(** * deep4cast.cv: temporal cross-validation

    A shallow embedding of [src/deep4cast/cv.py]: the fold generator, the
    vector scaler, the metrics evaluator, the cross-validator and the
    optimizer's objective construction, with the properties the
    specification states about them.

    Conventions.
    - Python [int] is [Z]; Python [float] and numpy's float64 are Rocq's
      primitive binary64 floats, so [int(data_length * test_fraction)]
      rounds exactly as the interpreter does.
    - A call that may raise returns a [result]; the exception is a value
      of [exn].
    - numpy arrays are nested lists (axis 0 outermost); a time series
      also carries its number of columns, which [np.array] compares
      when it stacks the slices of a fold.
    - What a float is worth is read on the reals ([F2R]), from the
      specification of binary64 in [SpecFloat].
    - Python dicts are [gmap]s keyed by strings, except where iteration
      order is observable.
    - Collaborators that live outside [cv.py] ([utils.sequentialize],
      the forecaster, [custom_metrics], pickling) are section variables. *)

From Stdlib Require Import Reals Lra.
From stdpp Require Import gmap strings list.
From Stdlib Require Import ZArith Lia.
From Stdlib Require Import PrimFloat FloatOps SpecFloat FloatAxioms Uint63.

Set Warnings "-inexact-float".

Local Open Scope Z_scope.

(** ** Exceptions and results *)

Inductive exn : Type :=
| IndexError                      (* numpy: index out of bounds for an axis *)
| ValueError (msg : string)
| OverflowError                   (* int(inf) *)
| AttributeError (msg : string)
| TypeError (msg : string)
| KeyError (key : string)
| External (msg : string)         (* raised inside a collaborator *)
| InvalidIndexError.              (* pandas: reindexing on repeated labels *)

Inductive result (A : Type) : Type :=
| Ok (a : A)
| Raise (e : exn).
Arguments Ok {A} a.
Arguments Raise {A} e.

#[global] Instance result_ret : MRet result := fun _ a => Ok a.
#[global] Instance result_bind : MBind result := fun _ _ f r =>
  match r with
  | Ok a => f a
  | Raise e => Raise e
  end.

Definition is_ok {A} (r : result A) : bool :=
  match r with Ok _ => true | Raise _ => false end.

(** Code that mutates a world [W] and may raise: the world is kept as it
    was when the exception was raised. *)
Definition M (W A : Type) : Type := W -> W * result A.

#[global] Instance M_ret {W} : MRet (M W) := fun _ a w => (w, Ok a).
#[global] Instance M_bind {W} : MBind (M W) := fun _ _ f m w =>
  match m w with
  | (w', Ok a) => f a w'
  | (w', Raise e) => (w', Raise e)
  end.

Definition get {W} : M W W := fun w => (w, Ok w).
Definition modify {W} (f : W -> W) : M W unit := fun w => (f w, Ok tt).
Definition raise {W A} (e : exn) : M W A := fun w => (w, Raise e).
Definition lift {W A} (r : result A) : M W A := fun w => (w, r).

(** [for x in l: body(x)]. *)
Fixpoint for_each {W B} (l : list B) (body : B -> M W unit) : M W unit :=
  match l with
  | [] => mret tt
  | x :: l' => body x;; for_each l' body
  end.

(** ** Python and numpy primitives *)

(** [range(n)]: empty when [n <= 0]. *)
Definition range (n : Z) : list Z := Z.of_nat <$> seq 0 (Z.to_nat n).

(** [np.arange(a, b)] on integers. *)
Definition arange (a b : Z) : list Z := (fun k => a + k) <$> range (b - a).

(** [max(l)] on a list of ints. *)
Definition py_max (l : list Z) : result Z :=
  match l with
  | [] => Raise (ValueError "max() arg is an empty sequence")
  | x :: r => Ok (foldl Z.max x r)
  end.

(** [float(n)] for a length: lengths stay far below 2^63, where the
    conversion rounds to the nearest binary64 as Python's does. *)
Definition float_of_Z (z : Z) : float := PrimFloat.of_uint63 (Uint63.of_Z z).

(** The integer part of a decoded finite float, rounded towards zero
    ([trunc]) or towards minus infinity ([floor]). *)
Definition SF_magnitude (m : positive) (e : Z) : Z * Z :=
  if decide (0 <= e) then (Z.pos m * 2 ^ e, 1) else (Z.pos m, 2 ^ (- e)).

Definition SF_trunc (s : bool) (m : positive) (e : Z) : Z :=
  let '(num, den) := SF_magnitude m e in
  if s then - (num `quot` den) else num `quot` den.

Definition SF_floor (s : bool) (m : positive) (e : Z) : Z :=
  let '(num, den) := SF_magnitude m e in
  (if s then - num else num) `div` den.

(** [int(x)] on a float: truncation towards zero. *)
Definition py_int (x : float) : result Z :=
  match Prim2SF x with
  | S754_zero _ => Ok 0
  | S754_finite s m e => Ok (SF_trunc s m e)
  | S754_infinity _ => Raise OverflowError
  | S754_nan => Raise (ValueError "cannot convert float NaN to integer")
  end.

(** [math.floor(x)]. *)
Definition py_floor (x : float) : result Z :=
  match Prim2SF x with
  | S754_zero _ => Ok 0
  | S754_finite s m e => Ok (SF_floor s m e)
  | S754_infinity _ => Raise OverflowError
  | S754_nan => Raise (ValueError "cannot convert float NaN to integer")
  end.

(** Decoded floats that are not below zero. *)
Definition SF_not_negative (x : spec_float) : Prop :=
  match x with S754_finite s _ _ => s = false | _ => True end.

Definition SF_sign_clear (x : spec_float) : Prop :=
  match x with
  | S754_finite s _ _ | S754_infinity s | S754_zero s => s = false
  | S754_nan => True
  end.

(** ** binary64 values as real numbers

    What a float stands for, to state how far the result of a
    computation is from the number it approximates. *)

(** The real number of a decoded float; [0] for the infinities and NaN,
    which stand for no number. *)
Definition SF2R (f : spec_float) : R :=
  match f with
  | S754_finite s m e => (IZR (cond_Zopp s (Z.pos m)) * powerRZ 2 e)%R
  | _ => 0%R
  end.

Definition SFfinite (f : spec_float) : bool :=
  match f with
  | S754_zero _ | S754_finite _ _ _ => true
  | _ => false
  end.

Definition F2R (x : float) : R := SF2R (Prim2SF x).

(** [np.isfinite(x)]: neither an infinity nor NaN. *)
Definition isfinite (x : float) : bool := SFfinite (Prim2SF x).

(** Where the rest [rho] of a division by [D] lies in [0, D): nowhere
    (the division is exact), or below, at or above the middle. *)
Definition locate (D rho : Z) : location :=
  if rho =? 0 then loc_Exact else loc_Inexact (2 * rho ?= D).

(** The record of a shifted mantissa stands for the fraction [N / D]:
    its integer part, and the position of the rest. *)
Definition represents (N D : Z) (mrs : shr_record) : Prop :=
  0 < D /\ 0 <= shr_m mrs
  /\ shr_m mrs * D <= N < (shr_m mrs + 1) * D
  /\ loc_of_shr_record mrs = locate D (N - shr_m mrs * D).

(** numpy's integer indexing along axis 0: [a[idx]] with wrap-around of
    negative indices and [IndexError] outside [-len, len). *)
Definition getitem {A} (a : list A) (idx : Z) : result A :=
  let n := Z.of_nat (length a) in
  if decide (- n <= idx < n) then
    match a !! Z.to_nat (if decide (idx < 0) then idx + n else idx) with
    | Some x => Ok x
    | None => Raise IndexError
    end
  else Raise IndexError.

(** Fancy indexing [a[ind, :]] with an integer index array. *)
Definition fancy_index {A} (a : list A) (ind : list Z) : result (list A) :=
  mapM (getitem a) ind.

(** Python's slice [a[lo:hi]] for in-range, non-negative bounds. *)
Definition slice {A} (a : list A) (lo hi : Z) : list A :=
  firstn (Z.to_nat (hi - lo)) (skipn (Z.to_nat lo) a).

(** ** The windowing transform *)

Module utils.
Section Sequentialize.
Context {A : Type}.

Definition select (targets : option (list Z)) (row : list A) : result (list A) :=
  match targets with
  | None => Ok row
  | Some ind => fancy_index row ind
  end.

(** The [(lag, horizon)] windows of one series, one per starting row. *)
Definition windows (lag horizon : nat) (time_series : list (list A))
    : list (list (list A) * list (list A)) :=
  (fun start =>
     (firstn lag (skipn start time_series),
      firstn horizon (skipn (start + lag) time_series)))
  <$> seq 0 (length time_series + 1 - (lag + horizon)).

(** Modelled from the spec: [utils.sequentialize], which [cv.py] imports
    and this repository's sources do not include. "Given a 3-D array, a
    lag length, a horizon length, and target column indices, produces
    feature windows of length lag and target windows of length horizon,
    targets optionally restricted to a subset of variables." It is used
    to run the generator on examples; every property of the generator is
    proved for an arbitrary transform. *)
Definition sequentialize (data : list (list (list A))) (lag horizon : Z)
    (targets : option (list Z))
    : result (list (list (list A)) * list (list (list A))) :=
  if decide (lag < 0 ∨ horizon < 0) then Raise (ValueError "negative window")
  else
    let ws := concat (windows (Z.to_nat lag) (Z.to_nat horizon) <$> data) in
    ys ← mapM (fun w => mapM (select targets) (snd w)) ws;
    mret (fst <$> ws, ys).

End Sequentialize.
End utils.

(** ** FoldGenerator *)

Module FoldGenerator.
Section WithSequentialize.

(** [A]: the dtype of the series; [X], [Y]: what the windowing transform
    returns. *)
Context {A X Y : Type}.

(** A time series: a 2-D array of shape [(len(steps), variables)], one
    row per time step. The number of variables belongs to the shape
    also when there is no row. *)
Record series : Type := {
  steps : list (list A);
  variables : nat
}.

(** [utils.sequentialize(data, lag, horizon, targets=...)]. *)
Variable sequentialize :
  list (list (list A)) -> Z -> Z -> option (list Z) -> result (X * Y).

Record t : Type := {
  data : list series;
  targets : option (list Z);
  lag : Z;
  horizon : Z;
  test_fraction : float;
  n_folds : Z
}.

(** A fold as yielded: [(X_train, X_test, y_train, y_test)]. *)
Definition fold : Type := (X * X * Y * Y)%type.

(** Lines 135-140: the lengths shared by all folds. *)
Definition data_length (self : t) : result Z :=
  py_max ((fun time_series => Z.of_nat (length (steps time_series))) <$> data self).

Definition lengths (self : t) : result (Z * Z) :=
  data_length ← data_length self;
  test_length ← py_int (float_of_Z data_length * test_fraction self)%float;
  mret (test_length, data_length - n_folds self * test_length).

(** Lines 147-154. *)
Definition train_ind (test_length train_length i : Z) : list Z :=
  arange (- (i + 1) * test_length - train_length) (- (i + 1) * test_length).

Definition test_ind (self : t) (test_length i : Z) : list Z :=
  arange (- (i + 1) * test_length - lag self) (- i * test_length).

(** Lines 146-156 for the rows of one series. *)
Definition slice_series (self : t) (test_length train_length i : Z)
    (time_series : list (list A)) : result (list (list A) * list (list A)) :=
  train ← fancy_index time_series (train_ind test_length train_length i);
  test ← fancy_index time_series (test_ind self test_length i);
  mret (train, test).

(** [np.array(slices)] on a list of 2-D arrays with the given shapes:
    arrays of one shape are stacked along a new first axis. The slices
    of one fold have the same number of rows, so that their shapes can
    differ in the number of columns only, which numpy refuses with a
    [ValueError]; its message goes on to name the shapes. *)
Definition inhomogeneous : exn :=
  ValueError "could not broadcast input array".

Definition np_array (shapes : list (nat * nat)) (slices : list (list (list A)))
    : result (list (list (list A))) :=
  match shapes with
  | [] => Ok slices
  | shape :: others =>
      if decide (Forall (fun other => other = shape) others) then Ok slices
      else Raise inhomogeneous
  end.

(** The shapes of the slices taken from each series: as many rows as
    there are indices, as many columns as the series has. *)
Definition shapes_of (self : t) (slices : list (list (list A))) : list (nat * nat) :=
  zip (length <$> slices) (variables <$> data self).

(** Lines 145-158: the slices of every series, stacked by [np.array]. *)
Definition stack_slices (self : t) (test_length train_length i : Z)
    : result (list (list (list A)) * list (list (list A))) :=
  slices ←
    mapM (fun time_series =>
            slice_series self test_length train_length i (steps time_series))
         (data self);
  data_train ← np_array (shapes_of self (fst <$> slices)) (fst <$> slices);
  data_test ← np_array (shapes_of self (snd <$> slices)) (snd <$> slices);
  mret (data_train, data_test).

(** Lines 145-173: the body of the loop for fold [i]. *)
Definition fold_at (self : t) (test_length train_length i : Z) : result fold :=
  '(data_train, data_test) ← stack_slices self test_length train_length i;
  '(X_train, y_train) ←
    sequentialize data_train (lag self) (horizon self) (targets self);
  '(X_test, y_test) ←
    sequentialize data_test (lag self) (horizon self) (targets self);
  mret (X_train, X_test, y_train, y_test).

(** The generator object that [generate_folds] returns: the object it
    was called on and its frame. The frame is private to the generator:
    [NotStarted] before the first [next]; [AtYield] holds the locals
    while suspended at the [yield], [rest] being what is left of
    [range(self.n_folds)]; [Finished] after return or an exception. *)
Inductive frame : Type :=
| NotStarted
| AtYield (test_length train_length : Z) (rest : list Z)
| Finished.

Record generator : Type := { gen_self : t; gen_frame : frame }.

Definition generate_folds (self : t) : generator :=
  {| gen_self := self; gen_frame := NotStarted |}.

Definition __call__ (self : t) : generator := generate_folds self.

Inductive signal : Type :=
| Yielded (f : fold)
| StopIteration
| Raised (e : exn).

Definition resume (self : t) (test_length train_length : Z) (rest : list Z)
    : signal * generator :=
  match rest with
  | [] => (StopIteration, {| gen_self := self; gen_frame := Finished |})
  | i :: rest' =>
      match fold_at self test_length train_length i with
      | Ok f => (Yielded f,
                 {| gen_self := self;
                    gen_frame := AtYield test_length train_length rest' |})
      | Raise e => (Raised e, {| gen_self := self; gen_frame := Finished |})
      end
  end.

(** [next(g)]. *)
Definition next (g : generator) : signal * generator :=
  let self := gen_self g in
  match gen_frame g with
  | NotStarted =>
      match lengths self with
      | Ok (test_length, train_length) =>
          resume self test_length train_length (range (n_folds self))
      | Raise e => (Raised e, {| gen_self := self; gen_frame := Finished |})
      end
  | AtYield test_length train_length rest =>
      resume self test_length train_length rest
  | Finished => (StopIteration, g)
  end.

(** [list(g)]-like consumption: the folds yielded until the generator
    stops, and the exception that ended it, if one did. Recursion is on
    what is left of the range. *)
Fixpoint drain_rest (self : t) (test_length train_length : Z) (rest : list Z)
    : list fold * option exn :=
  match rest with
  | [] => ([], None)
  | i :: rest' =>
      match fold_at self test_length train_length i with
      | Ok f =>
          let '(fs, e) := drain_rest self test_length train_length rest' in
          (f :: fs, e)
      | Raise e => ([], Some e)
      end
  end.

Definition drain (g : generator) : list fold * option exn :=
  let self := gen_self g in
  match gen_frame g with
  | NotStarted =>
      match lengths self with
      | Ok (test_length, train_length) =>
          drain_rest self test_length train_length (range (n_folds self))
      | Raise e => ([], Some e)
      end
  | AtYield test_length train_length rest =>
      drain_rest self test_length train_length rest
  | Finished => ([], None)
  end.

(** The first [k] signals of a generator. *)
Fixpoint observe (k : nat) (g : generator) : list signal :=
  match k with
  | O => []
  | S k' => let '(s, g') := next g in s :: observe k' g'
  end.

(** The trailing [test_length] indices of fold [i]'s test window: the
    block that is held out, without the [lag] samples of context. *)
Definition test_block (test_length i : Z) : list Z :=
  arange (- (i + 1) * test_length) (- i * test_length).

Definition signal_of (r : result fold) : signal :=
  match r with
  | Ok f => Yielded f
  | Raise e => Raised e
  end.

(** *** The windows as the specification words them

    These definitions follow the specification, not the code: the
    lengths use [floor], and a window [lo, hi) counted from the end of a
    series is the contiguous run of its rows from [len + lo] up to
    [len + hi], out of bounds when it starts before the first row. *)

Definition spec_lengths (self : t) : result (Z * Z) :=
  L ← data_length self;
  test_length ← py_floor (float_of_Z L * test_fraction self)%float;
  mret (test_length, L - n_folds self * test_length).

Definition spec_window (time_series : list (list A)) (lo hi : Z)
    : result (list (list A)) :=
  let n := Z.of_nat (length time_series) in
  if decide (lo < hi ∧ lo < - n) then Raise IndexError
  else Ok (slice time_series (n + lo) (n + hi)).

Definition spec_slices (self : t) (test_length train_length i : Z)
    (time_series : list (list A)) : result (list (list A) * list (list A)) :=
  train ← spec_window time_series
            (- (i + 1) * test_length - train_length) (- (i + 1) * test_length);
  test ← spec_window time_series
            (- (i + 1) * test_length - lag self) (- i * test_length);
  mret (train, test).

Definition spec_fold (self : t) (i : Z) : result fold :=
  '(test_length, train_length) ← spec_lengths self;
  slices ←
    mapM (fun time_series =>
            spec_slices self test_length train_length i (steps time_series))
         (data self);
  '(X_train, y_train) ←
    sequentialize (fst <$> slices) (lag self) (horizon self) (targets self);
  '(X_test, y_test) ←
    sequentialize (snd <$> slices) (lag self) (horizon self) (targets self);
  mret (X_train, X_test, y_train, y_test).

(** Whether all series have the same number of variables. *)
Definition same_variables (self : t) : Prop :=
  forall ts ts', ts ∈ data self -> ts' ∈ data self -> variables ts = variables ts'.

(** *** What one invocation signals

    Read off the loop of lines 143-173: the folds for [i = 0, 1, ...] in
    this order, up to the first exception, which ends the sequence; or
    the exception of lines 135-140 alone. After these the generator is
    exhausted and signals [StopIteration] for ever. *)

Fixpoint fold_signals (self : t) (test_length train_length : Z) (rest : list Z)
    : list signal :=
  match rest with
  | [] => []
  | i :: rest' =>
      match fold_at self test_length train_length i with
      | Ok f => Yielded f :: fold_signals self test_length train_length rest'
      | Raise e => [Raised e]
      end
  end.

Definition signals (self : t) : list signal :=
  match lengths self with
  | Ok (test_length, train_length) =>
      fold_signals self test_length train_length (range (n_folds self))
  | Raise e => [Raised e]
  end.

Definition nth_signal (self : t) (j : nat) : signal :=
  default StopIteration (signals self !! j).

(** *** Several generators of one object

    A session holds one [FoldGenerator] object and the frames of the
    generators created from it so far. Every generator refers to that
    one object: [next] on generator [k] runs its frame against the
    object as it is now, and what [next] leaves of the object is what
    the other generators and later invocations see. [log] records, for
    each [next], which generator was advanced and what it signalled. *)

Inductive op : Type :=
| Call
| Next (k : nat).

Record session : Type := {
  object : t;
  frames : list frame;
  log : list (nat * signal)
}.

Definition step (s : session) (o : op) : session :=
  match o with
  | Call =>
      let g := __call__ (object s) in
      {| object := gen_self g;
         frames := frames s ++ [gen_frame g];
         log := log s |}
  | Next k =>
      match frames s !! k with
      | None => s
      | Some fr =>
          let '(sig, g') := next {| gen_self := object s; gen_frame := fr |} in
          {| object := gen_self g';
             frames := <[k := gen_frame g']> (frames s);
             log := log s ++ [(k, sig)] |}
      end
  end.

Definition run_session (self : t) (ops : list op) : session :=
  foldl step {| object := self; frames := []; log := [] |} ops.

Definition signals_of (k : nat) (s : session) : list signal :=
  snd <$> filter (fun e => fst e = k) (log s).

End WithSequentialize.
End FoldGenerator.

(** *** Collections used as examples *)

(** [n] rows of one column holding [0.0, 1.0, ..., n-1]. *)
Definition ramp (n : nat) : list (list float) :=
  (fun k => [float_of_Z (Z.of_nat k)]) <$> seq 0 n.

(** The series of shape [(n, 1)] with these rows. *)
Definition ramp_series (n : nat) : FoldGenerator.series :=
  {| FoldGenerator.steps := ramp n; FoldGenerator.variables := 1 |}.

(** [n] rows of two columns, and the series of shape [(n, 2)]. *)
Definition ramp2 (n : nat) : list (list float) :=
  (fun k => [float_of_Z (Z.of_nat k); float_of_Z (Z.of_nat k)]) <$> seq 0 n.

Definition ramp2_series (n : nat) : FoldGenerator.series :=
  {| FoldGenerator.steps := ramp2 n; FoldGenerator.variables := 2 |}.

(** The specification's end-to-end scenario: 3 series of length 100, one
    target column, [lag=5], [horizon=1], [test_fraction=0.1], [n_folds=2]. *)
Definition scenario : FoldGenerator.t :=
  {| FoldGenerator.data := [ramp_series 100; ramp_series 100; ramp_series 100];
     FoldGenerator.targets := Some [0];
     FoldGenerator.lag := 5;
     FoldGenerator.horizon := 1;
     FoldGenerator.test_fraction := 0.1%float;
     FoldGenerator.n_folds := 2 |}.

(** A collection whose second series is shorter than the first. *)
Definition ragged : FoldGenerator.t :=
  {| FoldGenerator.data := [ramp_series 10; ramp_series 5];
     FoldGenerator.targets := Some [0];
     FoldGenerator.lag := 1;
     FoldGenerator.horizon := 1;
     FoldGenerator.test_fraction := 0.1%float;
     FoldGenerator.n_folds := 2 |}.

(** Series of equal length and a lag longer than the training length. *)
Definition long_lag : FoldGenerator.t :=
  {| FoldGenerator.data := [ramp_series 10];
     FoldGenerator.targets := Some [0];
     FoldGenerator.lag := 9;
     FoldGenerator.horizon := 1;
     FoldGenerator.test_fraction := 0.1%float;
     FoldGenerator.n_folds := 2 |}.

(** Two series of equal length, one with one column and one with two. *)
Definition mixed_widths : FoldGenerator.t :=
  {| FoldGenerator.data := [ramp_series 10; ramp2_series 10];
     FoldGenerator.targets := Some [0];
     FoldGenerator.lag := 1;
     FoldGenerator.horizon := 1;
     FoldGenerator.test_fraction := 0.1%float;
     FoldGenerator.n_folds := 2 |}.

(** A negative test fraction. *)
Definition negative_fraction : FoldGenerator.t :=
  {| FoldGenerator.data := [ramp_series 10];
     FoldGenerator.targets := Some [0];
     FoldGenerator.lag := 1;
     FoldGenerator.horizon := 1;
     FoldGenerator.test_fraction := (-0.15)%float;
     FoldGenerator.n_folds := 1 |}.

(** A series so short that a test fraction of 0.1 holds out no row. *)
Definition short_series : FoldGenerator.t :=
  {| FoldGenerator.data := [ramp_series 5];
     FoldGenerator.targets := Some [0];
     FoldGenerator.lag := 1;
     FoldGenerator.horizon := 1;
     FoldGenerator.test_fraction := 0.1%float;
     FoldGenerator.n_folds := 2 |}.

(** ** VectorScaler *)

Module VectorScaler.

(** What the scaler needs of numpy's dtype. *)
Class Dtype (T : Type) : Type := {
  zero : T;
  one : T;
  add : T -> T -> T;
  sub : T -> T -> T;
  mul : T -> T -> T;
  div : T -> T -> T;
  sqrt : T -> T;
  of_nat : nat -> T
}.

(** Subtracting zero and dividing by one change nothing. *)
Class Neutral (T : Type) `{Dtype T} : Prop := {
  sub_zero : forall x : T, sub x zero = x;
  div_one : forall x : T, div x one = x
}.

Section WithDtype.
Context {T : Type} `{Dtype T}.

(** Arrays are rectangular nested lists: a 2-D array of rows, a 3-D
    array of samples. An array with a zero-length axis does not record
    the lengths of the axes inside it. *)
Abbreviation matrix := (list (list T)).
Abbreviation array3 := (list (list (list T))).

Definition rect2 (L F : nat) (M : matrix) : Prop :=
  length M = L /\ Forall (fun row => length row = F) M.

Definition rect3 (n L F : nat) (X : array3) : Prop :=
  length X = n /\ Forall (rect2 L F) X.

(** numpy's broadcasting along one axis: equal lengths pair up, an axis
    of length one is stretched, anything else is an error. *)
Definition broadcast_error : exn :=
  ValueError "operands could not be broadcast together".

Definition broadcast {B C D : Type} (f : B -> C -> result D)
    (xs : list B) (ys : list C) : result (list D) :=
  if decide (length xs = length ys) then mapM (fun p => f p.1 p.2) (zip xs ys)
  else
    match xs, ys with
    | _, [y] => mapM (fun x => f x y) xs
    | [x], _ => mapM (f x) ys
    | _, _ => Raise broadcast_error
    end.

Definition ewise1 (f : T -> T -> T) (xs ys : list T) : result (list T) :=
  broadcast (fun x y => Ok (f x y)) xs ys.

Definition ewise2 (f : T -> T -> T) (a b : matrix) : result matrix :=
  broadcast (ewise1 f) a b.

(** A 3-D array against a 2-D one: the 2-D operand is used for every
    sample. *)
Definition ewise32 (f : T -> T -> T) (X : array3) (M : matrix) : result array3 :=
  mapM (fun sample => ewise2 f sample M) X.

(** [np.sum(X, axis=0)], [np.mean(X, axis=0)], [np.std(X, axis=0)]. *)
Definition sum0 (X : array3) : matrix :=
  match X with
  | [] => []
  | first :: rest => foldl (zip_with (zip_with add)) first rest
  end.

Definition mean0 (X : array3) : matrix :=
  (fun row : list T =>
     (fun total => div total (of_nat (length X))) <$> row) <$> sum0 X.

Definition std0 (X : array3) : matrix :=
  let arrmean := mean0 X in
  let x := (fun sample : matrix => zip_with (zip_with sub) sample arrmean) <$> X in
  let x := (fun sample : matrix =>
              (fun row : list T => (fun d => mul d d) <$> row) <$> sample) <$> x in
  (fun row : list T => sqrt <$> row) <$> mean0 x.

(** [X.shape[1]] and [X.shape[2]]. *)
Definition shape1 (X : array3) : nat := length (default [] (head X)).
Definition shape2 (X : array3) : nat :=
  length (default [] (head (default [] (head X)))).

(** [np.zeros(shape)] and [np.ones(shape)] for a 2-D shape. *)
Definition full (v : T) (rows : nat) (cols : Z) : result matrix :=
  if decide (cols < 0)
  then Raise (ValueError "negative dimensions are not allowed")
  else Ok (replicate rows (replicate (Z.to_nat cols) v)).

(** [np.concatenate((a, b), axis=1)]. *)
Definition concatenate1 (a b : matrix) : result matrix :=
  if decide (length a = length b) then Ok (zip_with app a b)
  else Raise (ValueError "all the input array dimensions except for the concatenation axis must match exactly").

(** [X[:, :, targets]]. *)
Definition select_targets (X : array3) (targets : list Z) : result array3 :=
  mapM (mapM (fun row => fancy_index row targets)) X.

Record t : Type := {
  targets : option (list Z);
  x_mean : option matrix;
  x_std : option matrix;
  x_is_fitted : bool;
  y_mean : option matrix;
  y_std : option matrix;
  y_is_fitted : bool
}.

Definition __init__ (targets : option (list Z)) : t :=
  {| targets := targets;
     x_mean := None; x_std := None; x_is_fitted := false;
     y_mean := None; y_std := None; y_is_fitted := false |}.

Definition set_x (self : t) (mean std : matrix) : t :=
  {| targets := targets self;
     x_mean := Some mean; x_std := Some std; x_is_fitted := true;
     y_mean := y_mean self; y_std := y_std self; y_is_fitted := y_is_fitted self |}.

Definition set_y (self : t) (mean std : matrix) : t :=
  {| targets := targets self;
     x_mean := x_mean self; x_std := x_std self; x_is_fitted := x_is_fitted self;
     y_mean := Some mean; y_std := Some std; y_is_fitted := true |}.

Definition fit_x (self : t) (X : array3) : result t :=
  match targets self with
  | None => Ok (set_x self (mean0 X) (std0 X))
  | Some targets =>
      Xt ← select_targets X targets;
      let mean := mean0 Xt in
      let std := std0 Xt in
      let cat_rows := shape1 X in
      let cat_cols := Z.of_nat (shape2 X) - Z.of_nat (length targets) in
      zeros ← full zero cat_rows cat_cols;
      ones ← full one cat_rows cat_cols;
      mean ← concatenate1 mean zeros;
      std ← concatenate1 std ones;
      Ok (set_x self mean std)
  end.

Definition fit_y (self : t) (y : array3) : t :=
  set_y self (mean0 y) (std0 y).

(** [(X - mean) / std]; with the statistics still [None] the subtraction
    is a [TypeError]. *)
Definition scale (mean std : option matrix) (X : array3) : result array3 :=
  match mean, std with
  | Some mean, Some std =>
      centred ← ewise32 sub X mean;
      ewise32 div centred std
  | _, _ => Raise (TypeError "unsupported operand type(s): 'NoneType'")
  end.

(** [X * std + mean]. *)
Definition unscale (mean std : option matrix) (X : array3) : result array3 :=
  match mean, std with
  | Some mean, Some std =>
      scaled ← ewise32 mul X std;
      ewise32 add scaled mean
  | _, _ => Raise (TypeError "unsupported operand type(s): 'NoneType'")
  end.

Definition transform_x (self : t) (X : array3) : result array3 :=
  scale (x_mean self) (x_std self) X.

Definition transform_y (self : t) (y : array3) : result array3 :=
  scale (y_mean self) (y_std self) y.

Definition fit_transform_x (self : t) (X : array3) : result (t * array3) :=
  self ← fit_x self X;
  X ← transform_x self X;
  mret (self, X).

Definition fit_transform_y (self : t) (y : array3) : result (t * array3) :=
  let self := fit_y self y in
  y ← transform_y self y;
  mret (self, y).

Definition inverse_transform_x (self : t) (X : array3) : result array3 :=
  if x_is_fitted self then unscale (x_mean self) (x_std self) X
  else Raise (ValueError "Not fitted on X.").

Definition inverse_transform_y (self : t) (y : array3) : result array3 :=
  if y_is_fitted self then unscale (y_mean self) (y_std self) y
  else Raise (ValueError "Not fitted on y.").

(** [X[i][l][j]], when it exists. *)
Definition entry (X : array3) (i l j : nat) : option T :=
  sample ← X !! i; row ← sample !! l; row !! j.

Definition entry2 (M : matrix) (l j : nat) : option T :=
  row ← M !! l; row !! j.

(** *** Histories of calls

    A scaler is an object that its users call in some order. [invoke]
    gives the object after one call, whether the call returned or
    raised; an exception leaves the attributes as they were when it was
    raised. *)
Inductive call : Type :=
| FitX (X : array3)
| FitY (y : array3)
| TransformX (X : array3)
| TransformY (y : array3)
| FitTransformX (X : array3)
| FitTransformY (y : array3)
| InverseTransformX (X : array3)
| InverseTransformY (y : array3).

Definition invoke (self : t) (c : call) : t :=
  match c with
  | FitX X | FitTransformX X =>
      match fit_x self X with
      | Ok self' => self'
      | Raise _ => self
      end
  | FitY y | FitTransformY y => fit_y self y
  | _ => self
  end.

Definition replay (history : list call) (self : t) : t :=
  foldl invoke self history.

(** The call runs [fit_x] (respectively [fit_y]). *)
Definition calls_fit_x (c : call) : bool :=
  match c with FitX _ | FitTransformX _ => true | _ => false end.

Definition calls_fit_y (c : call) : bool :=
  match c with FitY _ | FitTransformY _ => true | _ => false end.

(** The call runs [fit_x] on [self] and [fit_x] returns. *)
Definition completes_fit_x (self : t) (c : call) : bool :=
  match c with
  | FitX X | FitTransformX X => is_ok (fit_x self X)
  | _ => false
  end.

End WithDtype.

(** numpy's float64: IEEE 754 binary64, where dividing by zero gives an
    infinity or NaN and raises nothing. *)
#[global] Instance float64 : Dtype float := {|
  zero := 0%float;
  one := 1%float;
  add := PrimFloat.add;
  sub := PrimFloat.sub;
  mul := PrimFloat.mul;
  div := PrimFloat.div;
  sqrt := PrimFloat.sqrt;
  of_nat n := float_of_Z (Z.of_nat n)
|}.

(** *** The round trip in binary64 *)

(** [z] is within floating-point tolerance of [x], for a value [x] that
    was standardised with mean [mu] and standard deviation [sigma] and
    brought back: four operations, each rounding by at most [2^-53] of
    its result, or by [2^-1075] where binary64 has no more digits. *)
Definition within_tolerance (x mu sigma z : float) : Prop :=
  (Rabs (F2R z - F2R x)
   <= / 2 ^ 50 * (Rabs (F2R x) + Rabs (F2R mu))
      + / 2 ^ 1073 * (1 + Rabs (F2R sigma)))%R.

(** What [a'] is for an array [a] taken through [transform] and
    [inverse_transform] with the statistics [m] and [sd]: at every
    position the value standardised and brought back as binary64
    computes it. When that is finite, the value that went in was finite,
    the standard deviation is not zero, and the two are within
    tolerance. *)
Definition round_trip_of (m sd : list (list float))
    (a a' : list (list (list float))) : Prop :=
  forall (i l j : nat) (x : float),
    entry a i l j = Some x ->
    exists mu sigma : float,
      entry2 m l j = Some mu /\ entry2 sd l j = Some sigma
      /\ entry a' i l j = Some ((x - mu) / sigma * sigma + mu)%float
      /\ (isfinite ((x - mu) / sigma * sigma + mu) = true ->
          isfinite x = true /\ F2R sigma <> 0%R
          /\ within_tolerance x mu sigma ((x - mu) / sigma * sigma + mu)).

End VectorScaler.

(** *** Arrays used as examples *)

(** Two samples of one step and two features; the second feature is
    constant. *)
Definition constant_feature : list (list (list float)) :=
  [[[1; 5]]; [[3; 5]]]%float.

(** Two samples of one step and two features. *)
Definition two_features : list (list (list float)) :=
  [[[1; 10]]; [[3; 30]]]%float.

(** ** MetricsEvaluator *)

Module MetricsEvaluator.
Section WithMetrics.

(** [S]: prediction samples; [Y]: ground truth; [V]: what a metric
    returns. *)
Context {S Y V : Type}.

(** [getattr(custom_metrics, name)]: the metric function registered
    under [name], or nothing ([AttributeError]). A metric function may
    raise. *)
Variable custom_metrics : string -> option (S -> Y -> result V).

(** ['{}'.format(value)]. *)
Variable format : V -> string.

(** [DataFrame.to_pickle(filename)]. *)
Variable to_pickle_file : string -> result unit.

(** A pandas [DataFrame] as far as the evaluator uses one: the column
    labels and the rows in order, a row holding the cells that are not
    NaN. *)
Record DataFrame : Type := {
  columns : list string;
  rows : list (gmap string V)
}.

(** [pd.DataFrame(columns=metrics)]. *)
Definition empty (metrics : list string) : DataFrame :=
  {| columns := metrics; rows := [] |}.

(** [df.append(d, ignore_index=True)] for a dict [d]: a new frame with
    one more row, with NaN where [d] has no key; labels of [d] that are
    no column yet become columns. To append, pandas aligns the columns
    of the frame with the keys of [d], whatever [d] holds; on a frame in
    which a column label is repeated this raises [InvalidIndexError]
    (reindexing only valid with uniquely valued Index objects) and
    there is no new frame. *)
Definition append (df : DataFrame) (d : gmap string V) : result DataFrame :=
  if decide (NoDup (columns df)) then
    Ok {| columns :=
            columns df ++ filter (fun k => k ∉ columns df) (elements (dom d));
          rows := rows df ++ [d] |}
  else Raise InvalidIndexError.

Record t : Type := {
  metrics : list string;
  tearsheet : DataFrame;
  filename : option string
}.

Definition __init__ (metrics : list string) (filename : option string) : t :=
  {| metrics := metrics; tearsheet := empty metrics; filename := filename |}.

Definition reset (self : t) : t :=
  {| metrics := metrics self;
     tearsheet := empty (metrics self);
     filename := filename self |}.

(** Lines 186-195: one turn of the loop, on the results collected so far
    and the lines printed so far. *)
Definition try_metric (y_samples : S) (y_truth : Y) (verbose : bool)
    (acc : gmap string V * list string) (metric : string)
    : gmap string V * list string :=
  let '(eval_results, out) := acc in
  match custom_metrics metric with
  | None => (eval_results, out ++ [metric +:+ " not a valid metric"])
  | Some eval_func =>
      match eval_func y_samples y_truth with
      | Raise _ => (eval_results, out ++ [metric +:+ " not a valid metric"])
      | Ok value =>
          (<[metric := value]> eval_results,
           if verbose
           then out ++ ["Results for " +:+ metric +:+ " is " +:+ format value +:+ "."]
           else out)
      end
  end.

(** [if self.filename:] holds for a non-empty string. *)
Definition truthy (filename : option string) : option string :=
  match filename with
  | Some "" => None
  | other => other
  end.

(** What a call leaves behind: the object, the lines printed, and the
    exception if one was raised. *)
Record outcome : Type := {
  after : t;
  printed : list string;
  raised : option exn
}.

(** Lines 184-198. When line 196 raises, the assignment to
    [self.tearsheet] does not take place and line 197 is not reached. *)
Definition evaluate (self : t) (y_samples : S) (y_truth : Y) (verbose : bool)
    : outcome :=
  let '(eval_results, out) :=
    foldl (try_metric y_samples y_truth verbose) (∅, []) (metrics self) in
  match append (tearsheet self) eval_results with
  | Raise e => {| after := self; printed := out; raised := Some e |}
  | Ok tearsheet =>
      let self :=
        {| metrics := metrics self;
           tearsheet := tearsheet;
           filename := filename self |} in
      {| after := self;
         printed := out;
         raised :=
           match truthy (filename self) with
           | None => None
           | Some name =>
               match to_pickle_file name with
               | Ok _ => None
               | Raise e => Some e
               end
           end |}
  end.

(** The metric resolves and returns [value]. *)
Definition computes (y_samples : S) (y_truth : Y) (metric : string) (value : V)
    : Prop :=
  exists eval_func,
    custom_metrics metric = Some eval_func
    /\ eval_func y_samples y_truth = Ok value.

(** The metric does not resolve, or raises. *)
Definition fails (y_samples : S) (y_truth : Y) (metric : string) : Prop :=
  match custom_metrics metric with
  | None => True
  | Some eval_func => is_ok (eval_func y_samples y_truth) = false
  end.

(** *** Histories of calls

    An evaluator is used over time: [invoke] gives the object after one
    call of [evaluate] or [reset], whether the call returned or raised. *)
Inductive call : Type :=
| Evaluate (y_samples : S) (y_truth : Y) (verbose : bool)
| Reset.

Definition invoke (self : t) (c : call) : t :=
  match c with
  | Evaluate y_samples y_truth verbose =>
      after (evaluate self y_samples y_truth verbose)
  | Reset => reset self
  end.

Definition replay (history : list call) (self : t) : t :=
  foldl invoke self history.

(** The number of calls of [evaluate] after the last [reset]. *)
Definition evaluations_since_reset (history : list call) : nat :=
  foldl (fun k c => match c with Evaluate _ _ _ => Datatypes.S k | Reset => O end)
        O history.

End WithMetrics.
End MetricsEvaluator.

(** ** CrossValidator *)

Module CrossValidator.

(** What [evaluate] calls on a scaler: any object with these four
    methods will do. A method returns the scaler after the call. *)
Class Scaler (Sc X Y S : Type) : Type := {
  fit_transform_x : Sc -> X -> result (Sc * X);
  transform_x : Sc -> X -> result X;
  fit_transform_y : Sc -> Y -> result (Sc * Y);
  inverse_transform_y : Sc -> S -> result S
}.

(** [VectorScaler] is one. *)
#[global] Instance vector_scaler {T : Type} `{VectorScaler.Dtype T} :
  Scaler (@VectorScaler.t T)
    (list (list (list T))) (list (list (list T))) (list (list (list T))) := {|
  fit_transform_x := VectorScaler.fit_transform_x;
  transform_x := VectorScaler.transform_x;
  fit_transform_y := VectorScaler.fit_transform_y;
  inverse_transform_y := VectorScaler.inverse_transform_y
|}.

Section WithCollaborators.

(** [A]: dtype of the series; [X], [Y]: inputs and targets of a fold;
    [S]: predicted samples; [V]: metric values; [Net]: what a forecaster
    holds besides its fittedness flag; [Sc]: the scaler. *)
Context {A X Y S V Net Sc : Type} `{Scaler Sc X Y S}.

Variable sequentialize :
  list (list (list A)) -> Z -> Z -> option (list Z) -> result (X * Y).
Variable custom_metrics : string -> option (S -> Y -> result V).
Variable format : V -> string.
Variable to_pickle_file : string -> result unit.

Record Forecaster : Type := { _is_fitted : bool; net : Net }.

(** [forecaster.fit(X, y, verbose=0)] and
    [forecaster.predict(X, n_samples=n)]: each gives the forecaster after
    the call, or raises. *)
Variable fit : Forecaster -> X -> Y -> Z -> result Forecaster.
Variable predict : Forecaster -> X -> Z -> result (Forecaster * S).

(** What happens to the forecaster during a run, in the order in which
    it happens: line 54 has cleared its flag ([Marked], with the
    forecaster as the line leaves it), line 64 calls [fit] and line 67
    calls [predict] (each with the forecaster as the call receives
    it). *)
Inductive event : Type :=
| Marked (f : Forecaster)
| FitCalled (f : Forecaster)
| PredictCalled (f : Forecaster).

(** The objects a cross-validator holds, with what a run leaves to be
    observed: the lines printed by [evaluate] itself, and the journal of
    what happened to the forecaster. *)
Record t : Type := {
  forecaster : Forecaster;
  fold_generator : @FoldGenerator.t A;
  evaluator : @MetricsEvaluator.t V;
  scaler : option Sc;
  stdout : list string;
  journal : list event
}.

(** The forecaster as each call of [fit] received it. *)
Definition fit_calls (self : t) : list Forecaster :=
  omap (fun e => match e with FitCalled f => Some f | _ => None end)
       (journal self).

Definition __init__ (forecaster : Forecaster) (fold_generator : FoldGenerator.t)
    (evaluator : MetricsEvaluator.t) (scaler : option Sc) : t :=
  {| forecaster := forecaster; fold_generator := fold_generator;
     evaluator := evaluator; scaler := scaler;
     stdout := []; journal := [] |}.

Definition set_forecaster (f : Forecaster) (self : t) : t :=
  {| forecaster := f; fold_generator := fold_generator self;
     evaluator := evaluator self; scaler := scaler self;
     stdout := stdout self; journal := journal self |}.

Definition set_evaluator (e : MetricsEvaluator.t) (self : t) : t :=
  {| forecaster := forecaster self; fold_generator := fold_generator self;
     evaluator := e; scaler := scaler self;
     stdout := stdout self; journal := journal self |}.

Definition set_scaler (sc : Sc) (self : t) : t :=
  {| forecaster := forecaster self; fold_generator := fold_generator self;
     evaluator := evaluator self; scaler := Some sc;
     stdout := stdout self; journal := journal self |}.

Definition print (lines : list string) (self : t) : t :=
  {| forecaster := forecaster self; fold_generator := fold_generator self;
     evaluator := evaluator self; scaler := scaler self;
     stdout := stdout self ++ lines; journal := journal self |}.

Definition record (e : event) (self : t) : t :=
  {| forecaster := forecaster self; fold_generator := fold_generator self;
     evaluator := evaluator self; scaler := scaler self;
     stdout := stdout self; journal := journal self ++ [e] |}.

(** The forecaster with its flag cleared. *)
Definition unfitted (f : Forecaster) : Forecaster :=
  {| _is_fitted := false; net := net f |}.

(** Lines 53-54: [forecaster] is another name of [self.forecaster], so
    the assignment clears the flag of the object the cross-validator
    holds. *)
Definition mark : M t unit :=
  self ← get;
  modify (set_forecaster (unfitted (forecaster self)));;
  modify (record (Marked (unfitted (forecaster self)))).

(** Lines 58-61. *)
Definition scale_fold (X_train X_test : X) (y_train : Y) : M t (X * X * Y) :=
  self ← get;
  match scaler self with
  | None => mret (X_train, X_test, y_train)
  | Some sc =>
      '(sc, X_train) ← lift (fit_transform_x sc X_train);
      modify (set_scaler sc);;
      X_test ← lift (transform_x sc X_test);
      '(sc, y_train) ← lift (fit_transform_y sc y_train);
      modify (set_scaler sc);;
      mret (X_train, X_test, y_train)
  end.

(** Line 64, with the call recorded. *)
Definition call_fit (X_train : X) (y_train : Y) : M t unit :=
  self ← get;
  modify (record (FitCalled (forecaster self)));;
  f ← lift (fit (forecaster self) X_train y_train 0);
  modify (set_forecaster f).

(** Line 67, with the call recorded. *)
Definition call_predict (X_test : X) (n_samples : Z) : M t S :=
  self ← get;
  modify (record (PredictCalled (forecaster self)));;
  '(f, y_pred_samples) ← lift (predict (forecaster self) X_test n_samples);
  modify (set_forecaster f);;
  mret y_pred_samples.

(** Line 70: the attribute is looked up on [self.scaler] whatever it is. *)
Definition no_scaler_error : exn :=
  AttributeError "'NoneType' object has no attribute 'inverse_transform_y'".

Definition call_inverse_transform_y (y_pred_samples : S) : M t S :=
  self ← get;
  match scaler self with
  | None => raise no_scaler_error
  | Some sc => lift (inverse_transform_y sc y_pred_samples)
  end.

(** Line 73. *)
Definition call_evaluate (y_pred_samples : S) (y_test : Y) (verbose : bool)
    : M t unit :=
  self ← get;
  let r :=
    MetricsEvaluator.evaluate custom_metrics format to_pickle_file
      (evaluator self) y_pred_samples y_test verbose in
  modify (set_evaluator (MetricsEvaluator.after r));;
  modify (print (MetricsEvaluator.printed r));;
  match MetricsEvaluator.raised r with
  | None => mret tt
  | Some e => raise e
  end.

(** Lines 52-75: the body of the loop. The elapsed time that line 75
    prints is not modelled. *)
Definition body (n_samples : Z) (verbose : bool) (f : X * X * Y * Y) : M t unit :=
  let '(X_train, X_test, y_train, y_test) := f in
  mark;;
  '(X_train, X_test, y_train) ← scale_fold X_train X_test y_train;
  call_fit X_train y_train;;
  y_pred_samples ← call_predict X_test n_samples;
  y_pred_samples ← call_inverse_transform_y y_pred_samples;
  call_evaluate y_pred_samples y_test verbose;;
  if verbose then modify (print ["Evaluation took {} seconds."]) else mret tt.

(** [for fold in generator: body(fold)], by recursion on what is left of
    the generator's range. *)
Fixpoint for_rest (self : FoldGenerator.t) (test_length train_length : Z)
    (rest : list Z) (body : X * X * Y * Y -> M t unit) : M t unit :=
  match rest with
  | [] => mret tt
  | i :: rest' =>
      f ← lift (FoldGenerator.fold_at sequentialize self test_length train_length i);
      body f;;
      for_rest self test_length train_length rest' body
  end.

Definition for_folds (g : FoldGenerator.generator)
    (body : X * X * Y * Y -> M t unit) : M t unit :=
  let self := FoldGenerator.gen_self g in
  match FoldGenerator.gen_frame g with
  | FoldGenerator.NotStarted =>
      '(test_length, train_length) ← lift (FoldGenerator.lengths self);
      for_rest self test_length train_length
        (range (FoldGenerator.n_folds self)) body
  | FoldGenerator.AtYield test_length train_length rest =>
      for_rest self test_length train_length rest body
  | FoldGenerator.Finished => mret tt
  end.

Definition evaluate (n_samples : Z) (verbose : bool)
    : M t MetricsEvaluator.DataFrame :=
  self ← get;
  modify (set_evaluator (MetricsEvaluator.reset (evaluator self)));;
  for_folds (FoldGenerator.__call__ (fold_generator self)) (body n_samples verbose);;
  self ← get;
  mret (MetricsEvaluator.tearsheet (evaluator self)).

(** *** What a run does to the forecaster

    The journal of one turn of the loop that starts with the forecaster
    [f0], and the forecaster the turn leaves. The turn clears the flag
    first. If scaling returns, it calls [fit] on the forecaster so
    marked; if [fit] returns, it calls [predict] on the forecaster [fit]
    left, and leaves the forecaster [predict] left. [predicted] tells
    whether the turn got that far. *)
Inductive turn (n_samples : Z) (f0 : Forecaster)
    : list event -> Forecaster -> bool -> Prop :=
| turn_stops_scaling :
    turn n_samples f0 [Marked (unfitted f0)] (unfitted f0) false
| turn_stops_in_fit (X_train : X) (y_train : Y) (e : exn) :
    fit (unfitted f0) X_train y_train 0 = Raise e ->
    turn n_samples f0
      [Marked (unfitted f0); FitCalled (unfitted f0)] (unfitted f0) false
| turn_stops_in_predict (X_train : X) (y_train : Y) (f1 : Forecaster)
    (X_test : X) (e : exn) :
    fit (unfitted f0) X_train y_train 0 = Ok f1 ->
    predict f1 X_test n_samples = Raise e ->
    turn n_samples f0
      [Marked (unfitted f0); FitCalled (unfitted f0); PredictCalled f1] f1 false
| turn_predicts (X_train : X) (y_train : Y) (f1 : Forecaster)
    (X_test : X) (f2 : Forecaster) (y_pred_samples : S) :
    fit (unfitted f0) X_train y_train 0 = Ok f1 ->
    predict f1 X_test n_samples = Ok (f2, y_pred_samples) ->
    turn n_samples f0
      [Marked (unfitted f0); FitCalled (unfitted f0); PredictCalled f1] f2 true.

(** The journals of the turns of a run, from the forecaster the run
    starts with to the one it leaves: each turn starts with the
    forecaster the turn before it left, and only the last turn may have
    stopped before [predict] returned. *)
Inductive turns (n_samples : Z)
    : Forecaster -> list (list event) -> Forecaster -> Prop :=
| turns_none (f : Forecaster) : turns n_samples f [] f
| turns_last (f0 : Forecaster) (block : list event) (f1 : Forecaster)
    (predicted : bool) :
    turn n_samples f0 block f1 predicted ->
    turns n_samples f0 [block] f1
| turns_more (f0 : Forecaster) (block : list event) (f1 : Forecaster)
    (blocks : list (list event)) (f2 : Forecaster) :
    turn n_samples f0 block f1 true ->
    turns n_samples f1 blocks f2 ->
    turns n_samples f0 (block :: blocks) f2.

(** [fit] honours the flag: on a forecaster whose flag is cleared, what
    it returns does not depend on what the forecaster holds. *)
Definition fit_honours_flag : Prop :=
  forall (f f' : Forecaster) (X_train : X) (y_train : Y) (verbose : Z),
    _is_fitted f = false -> _is_fitted f' = false ->
    fit f X_train y_train verbose = fit f' X_train y_train verbose.

End WithCollaborators.
End CrossValidator.

(** ** Optimizer *)

Module Optimizer.

Definition __MODEL_ARGS__ : list string := ["filters"; "num_layers"].
Definition __OPTIMIZER_ARGS__ : list string := ["lr"].
Definition __FORECASTER_ARGS__ : list string := ["epochs"; "batch_size"].

Section WithValues.

(** [Val]: the values of hyperparameters; [Space]: the search space. *)
Context {Val Space : Type}.

(** What gets assigned to an attribute: a hyperparameter value, or a
    string. *)
Inductive value : Type :=
| Hyper (v : Val)
| Str (s : string).

(** An object as the optimizer sees it: the argument names of its
    class ([getargspec(obj.__class__).args]) and its attributes. *)
Record object : Type := {
  class_args : list string;
  attrs : gmap string value
}.

Definition setattr (o : object) (name : string) (v : value) : object :=
  {| class_args := class_args o; attrs := <[name := v]> (attrs o) |}.

(** The forecaster with its nested [model] and [_optimizer]. *)
Record Forecaster : Type := {
  this : object;
  model : object;
  _optimizer : object
}.

(** The optimizer: of its attributes only [forecaster] is read or
    written by [get_args] and by the loop of [get_objective]. *)
Record t : Type := { forecaster : Forecaster }.

(** A dict whose order of insertion is kept. *)
Definition dict (B : Type) : Type := list (string * B).

Definition keys {B} (d : dict B) : list string := fst <$> d.

Definition getitem_dict {B} (d : dict B) (key : string) : result B :=
  match list_find (fun kv => kv.1 = key) d with
  | Some (_, (_, v)) => Ok v
  | None => Raise (KeyError key)
  end.

(** Lines 108-116. *)
Definition get_args (self : t) : dict (list string) :=
  [("model", class_args (model (forecaster self)));
   ("forecaster", class_args (this (forecaster self)));
   ("optimizer", class_args (_optimizer (forecaster self)))].

(** [key, value = item] for a string: its characters, which must be
    two. *)
Definition unpack2 (item : string) : result (string * string) :=
  match item with
  | String a (String b EmptyString) =>
      Ok (String a EmptyString, String b EmptyString)
  | String _ (String _ (String _ _)) =>
      Raise (ValueError "too many values to unpack (expected 2)")
  | String _ EmptyString =>
      Raise (ValueError "not enough values to unpack (expected 2, got 1)")
  | EmptyString =>
      Raise (ValueError "not enough values to unpack (expected 2, got 0)")
  end.

Definition contains (l : list string) (key : string) : bool :=
  bool_decide (key ∈ l).

(** Lines 94-101: the branches of the loop body. *)
Definition assign (args : dict (list string)) (key : string) (v : value)
    : M Forecaster unit :=
  model_args ← lift (getitem_dict args "model");
  if contains model_args key && contains __MODEL_ARGS__ key then
    modify (fun f => {| this := this f; model := setattr (model f) key v;
                        _optimizer := _optimizer f |})
  else
    forecaster_args ← lift (getitem_dict args "forecaster");
    if contains forecaster_args key && contains __OPTIMIZER_ARGS__ key then
      modify (fun f => {| this := this f; model := model f;
                          _optimizer := setattr (_optimizer f) key v |})
    else
      forecaster_args ← lift (getitem_dict args "forecaster");
      if contains forecaster_args key && contains __FORECASTER_ARGS__ key then
        modify (fun f => {| this := setattr (this f) key v; model := model f;
                            _optimizer := _optimizer f |})
      else raise (ValueError (key +:+ " not a valid argument")).

(** Lines 90-105, read as [def get_objective(self, space, **args)]: the
    header as written, with [space] after [**args], is not accepted by
    Python's parser. Line 91 rebinds [args] to the dict of [get_args];
    iterating a dict gives its keys, and each key is unpacked into
    [key, value]. The function defined on lines 103-105 is neither
    called nor returned. *)
Definition get_objective (self : t) (args : gmap string Val) (space : Space)
    : M Forecaster unit :=
  let args := get_args self in
  for_each (keys args) (fun item =>
    '(key, value) ← lift (unpack2 item);
    assign args key (Str value)).

(** *** The routing as the specification words it

    This definition follows the specification, not the code: each name
    of the trial is looked up in the three lists in order and its value
    is assigned on the first target that lists it; a name in none of
    them is a configuration error. *)
Definition spec_route (f : Forecaster) (name : string) (v : Val)
    : result Forecaster :=
  if contains __MODEL_ARGS__ name then
    Ok {| this := this f; model := setattr (model f) name (Hyper v);
          _optimizer := _optimizer f |}
  else if contains __OPTIMIZER_ARGS__ name then
    Ok {| this := this f; model := model f;
          _optimizer := setattr (_optimizer f) name (Hyper v) |}
  else if contains __FORECASTER_ARGS__ name then
    Ok {| this := setattr (this f) name (Hyper v); model := model f;
          _optimizer := _optimizer f |}
  else Raise (ValueError (name +:+ " not a valid argument")).

End WithValues.
End Optimizer.

(** ** The command-line script [deep4cast.py] *)

(** Python's [a[start:stop]]: a bound that is left out is the end of the
    sequence on its side, a negative bound counts from the end, and a
    bound outside the sequence is brought to the nearest end. numpy
    slices axis 0 of an array in the same way. *)
Definition slice_bound (n b : Z) : Z :=
  if decide (b < 0) then Z.max (b + n) 0 else Z.min b n.

Definition py_slice {A} (a : list A) (start stop : option Z) : list A :=
  let n := Z.of_nat (length a) in
  slice a (from_option (slice_bound n) 0 start)
          (from_option (slice_bound n) n stop).

(** [np.expand_dims(ts, axis=-1)] on a 2-D array. *)
Definition expand_dims {A} (ts : list (list A)) : list (list (list A)) :=
  (fun row : list A => (fun x => [x]) <$> row) <$> ts.

Module deep4cast.

(** The namespace that [_get_parser().parse_args()] returns. *)
Record Namespace : Type := {
  data_path : string;
  test_fraction : option float;
  lag : Z;
  horizon : Z;
  epochs : Z;
  batch_size : Z;
  uncertainty : bool;
  dropout_rate : float;
  n_samples : Z;
  learning_rate : float
}.

(** [if args.test_fraction:] holds for a float other than zero, NaN
    included, and not for [None]. *)
Definition given (test_fraction : option float) : option float :=
  match test_fraction with
  | Some x => if PrimFloat.eqb x 0 then None else Some x
  | None => None
  end.

Section WithForecaster.

(** [A]: the dtype of the table; [F]: a forecaster; [P]: the ['mean']
    entry of a prediction. *)
Context {A F P : Type}.

(** What [main] prepares on lines 33-40: the series the forecaster is
    fitted on and, with a test fraction, the series it is tested on and
    the training length. *)
Record split : Type := {
  ts_train : list (list (list A));
  held_out : option (list (list (list A)) * Z)
}.

(** Lines 33-40, on the array [ts] of [len(df)] rows. *)
Definition prepare (args : Namespace) (ts : list (list (list A))) : result split :=
  match given (test_fraction args) with
  | Some fraction =>
      test_length ← py_int (float_of_Z (Z.of_nat (length ts)) * fraction)%float;
      let train_length := Z.of_nat (length ts) - test_length in
      mret {| ts_train := py_slice ts None (Some (- test_length));
              held_out :=
                Some (py_slice ts (Some (- test_length - lag args)) None,
                      train_length) |}
  | None => mret {| ts_train := ts; held_out := None |}
  end.

(** The rows a prediction is compared with: lines 136, 142 and 149. *)
Definition truth_train (args : Namespace) (ts : list (list (list A)))
    (s : split) : list (list (list A)) :=
  match held_out s with
  | Some (_, train_length) => py_slice ts (Some (lag args)) (Some train_length)
  | None => py_slice ts (Some (lag args)) None
  end.

Definition truth_test (ts : list (list (list A))) (train_length : Z)
    : list (list (list A)) :=
  py_slice ts (Some train_length) None.

(** [read_table(path, sep=',').values]; [Forecaster(topology, ...)] with
    the arguments taken from the namespace; [fit], [predict(...)['mean']]
    and the metric [adjust_for_horizon(mape)] of the package; and
    ['{0:.1f}'.format]. *)
Variable read_table : string -> result (list (list A)).
Variable Forecaster : Namespace -> result F.
Variable fit : F -> list (list (list A)) -> result F.
Variable predict : F -> list (list (list A)) -> Z -> result (F * P).
Variable metric : P -> list (list (list A)) -> result float.
Variable format : float -> string.

Definition print (line : string) : M (list string) unit :=
  modify (fun out => out ++ [line]).

Definition tab : string := String (Ascii.ascii_of_nat 9) "".
Definition newline : string := String (Ascii.ascii_of_nat 10) "".

(** ['TRAIN \t Mean Absolute Percentage Error: {0:.1f}%'.format(error)]. *)
Definition report (which : string) (error : float) : string :=
  which +:+ " " +:+ tab +:+ " Mean Absolute Percentage Error: "
  +:+ format error +:+ "%".

(** Lines 19-150; the world is what has been printed. [df.values] is
    2-D, so the loop of lines 27-28 adds one axis. *)
Definition main (args : Namespace) : M (list string) unit :=
  print (newline +:+ newline +:+ "Loading datasets.");;
  values ← lift (read_table (data_path args));
  let ts := expand_dims values in
  s ← lift (prepare args ts);
  forecaster ← lift (Forecaster args);
  forecaster ← lift (fit forecaster (ts_train s));
  '(forecaster, ts_train_pred) ←
    lift (predict forecaster (ts_train s) (n_samples args));
  match held_out s with
  | Some (ts_test, train_length) =>
      '(forecaster, ts_test_pred) ←
        lift (predict forecaster ts_test (n_samples args));
      train_error ← lift (metric ts_train_pred (truth_train args ts s));
      print (report "TRAIN" train_error);;
      test_error ← lift (metric ts_test_pred (truth_test ts train_length));
      print (report "TEST" test_error)
  | None =>
      train_error ← lift (metric ts_train_pred (truth_train args ts s));
      print (report "TRAIN" train_error)
  end.

End WithForecaster.
End deep4cast.

(** A command line: [--data-path timeseries_data.csv --lag 2
    --test-fraction 0.1], the other arguments at their defaults. *)
Definition command_line : deep4cast.Namespace :=
  {| deep4cast.data_path := "timeseries_data.csv";
     deep4cast.test_fraction := Some 0.1%float;
     deep4cast.lag := 2;
     deep4cast.horizon := 1;
     deep4cast.epochs := 100;
     deep4cast.batch_size := 8;
     deep4cast.uncertainty := false;
     deep4cast.dropout_rate := 0.1%float;
     deep4cast.n_samples := 10;
     deep4cast.learning_rate := 0.1%float |}.

(** ** A cross-validation run used as example *)

Module Example.

(** A forecaster that learns nothing: [fit] marks it fitted, [predict]
    returns the inputs as its samples. *)
Definition fit (f : @CrossValidator.Forecaster unit)
    (X y : list (list (list float))) (verbose : Z)
    : result (@CrossValidator.Forecaster unit) :=
  Ok {| CrossValidator._is_fitted := true; CrossValidator.net := tt |}.

Definition predict (f : @CrossValidator.Forecaster unit)
    (X : list (list (list float))) (n_samples : Z)
    : result (@CrossValidator.Forecaster unit * list (list (list float))) :=
  Ok (f, X).

Definition mean_all (a : list (list (list float))) : float :=
  let cells := concat (concat a) in
  (foldl PrimFloat.add 0 cells / float_of_Z (Z.of_nat (length cells)))%float.

(** A metrics module with two entries: ["bias"], the difference of the
    means, and ["broken"], which raises. *)
Definition custom_metrics (name : string)
    : option (list (list (list float)) -> list (list (list float)) -> result float) :=
  if decide (name = "bias") then
    Some (fun y_samples y_truth => Ok (mean_all y_samples - mean_all y_truth)%float)
  else if decide (name = "broken") then
    Some (fun _ _ => Raise (External "division by zero"))
  else None.

Definition format (v : float) : string := "<float>".

Definition to_pickle_file (name : string) : result unit := Ok tt.

Definition new_forecaster : @CrossValidator.Forecaster unit :=
  {| CrossValidator._is_fitted := true; CrossValidator.net := tt |}.

(** The scenario with a scaler, and without one. *)
Definition with_scaler
    : @CrossValidator.t float float unit (@VectorScaler.t float) :=
  CrossValidator.__init__ new_forecaster scenario
    (MetricsEvaluator.__init__ ["bias"; "not_a_real_metric"; "broken"] None)
    (Some (VectorScaler.__init__ (Some [0]))).

Definition without_scaler
    : @CrossValidator.t float float unit (@VectorScaler.t float) :=
  CrossValidator.__init__ new_forecaster scenario
    (MetricsEvaluator.__init__ ["bias"; "not_a_real_metric"; "broken"] None)
    None.

Definition evaluate :=
  CrossValidator.evaluate (Sc := @VectorScaler.t float)
    utils.sequentialize custom_metrics format to_pickle_file fit predict.

(** A forecaster that goes on from the weights it holds, whatever its
    flag says: what it holds is the number of fits that went into its
    weights. *)
Definition warm_fit (f : @CrossValidator.Forecaster nat)
    (X y : list (list (list float))) (verbose : Z)
    : result (@CrossValidator.Forecaster nat) :=
  Ok {| CrossValidator._is_fitted := true;
        CrossValidator.net := S (CrossValidator.net f) |}.

Definition warm_predict (f : @CrossValidator.Forecaster nat)
    (X : list (list (list float))) (n_samples : Z)
    : result (@CrossValidator.Forecaster nat * list (list (list float))) :=
  Ok (f, X).

Definition warm_start
    : @CrossValidator.t float float nat (@VectorScaler.t float) :=
  CrossValidator.__init__
    {| CrossValidator._is_fitted := false; CrossValidator.net := 0%nat |}
    scenario (MetricsEvaluator.__init__ ["bias"] None)
    (Some (VectorScaler.__init__ (Some [0]))).

End Example.

(** * Properties *)

(** ** Results *)

Lemma bind_ok {A B} (f : A -> result B) (a : A) : (Ok a ≫= f) = f a.
Proof. reflexivity. Qed.

Lemma bind_raise {A B} (f : A -> result B) (e : exn) : (Raise e ≫= f) = Raise e.
Proof. reflexivity. Qed.

Lemma is_ok_true {A} (r : result A) : is_ok r = true -> exists a, r = Ok a.
Proof. destruct r; [eauto|discriminate]. Qed.

Lemma mapM_ok_all {A B} (f : A -> result B) (l : list A) :
  (forall x, x ∈ l -> is_ok (f x) = true) ->
  exists ys, mapM f l = Ok ys /\ length ys = length l.
Proof.
  induction l as [|x l IH]; intros Hall; simpl.
  - by exists [].
  - destruct (is_ok_true (f x)) as [y Hy]; [apply Hall; left|].
    destruct IH as (ys & Hys & Hlen); [intros z Hz; apply Hall; by right|].
    exists (y :: ys). rewrite Hy, bind_ok, Hys. simpl. by rewrite Hlen.
Qed.

Lemma mapM_result_ext {A B} (f g : A -> result B) (l : list A) :
  (forall x, x ∈ l -> f x = g x) -> mapM f l = mapM g l.
Proof.
  induction l as [|x l IH]; intros Hfg; simpl; [done|].
  rewrite (Hfg x) by left. rewrite IH; [done|].
  intros z Hz. apply Hfg. by right.
Qed.

Lemma mapM_length {A B} (f : A -> result B) (l : list A) (ys : list B) :
  mapM f l = Ok ys -> length ys = length l.
Proof.
  revert ys. induction l as [|x l IH]; intros ys; simpl.
  - by intros [= <-].
  - destruct (f x) as [y|e]; simpl; [|done].
    destruct (mapM f l) as [ys'|e]; simpl; [|done].
    intros [= <-]. simpl. by rewrite (IH ys').
Qed.

Lemma mapM_Forall2_ok {A B} (f : A -> result B) (l : list A) (ys : list B) :
  mapM f l = Ok ys -> Forall2 (fun x y => f x = Ok y) l ys.
Proof.
  revert ys. induction l as [|x l IH]; intros ys; simpl.
  - intros [= <-]. constructor.
  - destruct (f x) as [y|e] eqn:Hy; simpl; [|done].
    destruct (mapM f l) as [ys'|e]; simpl; [|done].
    intros [= <-]. constructor; [done|by apply IH].
Qed.

Lemma mapM_raise {B C} (f : B -> result C) (l : list B) (e : exn) :
  mapM f l = Raise e -> exists x, x ∈ l /\ f x = Raise e.
Proof.
  induction l as [|x l IH]; simpl; [done|].
  destruct (f x) as [y|e'] eqn:Hfx; simpl.
  - destruct (mapM f l) as [k|e'] eqn:Hl; simpl; [done|].
    intros [= ->]. destruct IH as (z & Hz & Hfz); [done|].
    exists z. split; [by right|done].
  - intros [= ->]. exists x. split; [left|done].
Qed.

(** ** [range], [arange], indexing *)

Lemma range_length n : length (range n) = Z.to_nat n.
Proof. unfold range. by rewrite length_fmap, length_seq. Qed.

Lemma elem_of_range n i : i ∈ range n <-> 0 <= i < n.
Proof.
  unfold range. rewrite list_elem_of_fmap. split.
  - intros (k & -> & Hk). apply elem_of_seq in Hk. lia.
  - intros Hi. exists (Z.to_nat i). split; [lia|]. apply elem_of_seq. lia.
Qed.

Lemma range_lookup n (k : nat) :
  (k < Z.to_nat n)%nat -> range n !! k = Some (Z.of_nat k).
Proof.
  intros Hk. unfold range. rewrite list_lookup_fmap, lookup_seq_lt by done.
  reflexivity.
Qed.

Lemma arange_length a b : length (arange a b) = Z.to_nat (b - a).
Proof. unfold arange. by rewrite length_fmap, range_length. Qed.

Lemma arange_nil a b : b <= a -> arange a b = [].
Proof.
  intros Hab. unfold arange, range.
  replace (Z.to_nat (b - a)) with 0%nat by lia. reflexivity.
Qed.

Lemma arange_cons a b : a < b -> arange a b = a :: arange (a + 1) b.
Proof.
  intros Hab. unfold arange, range.
  replace (Z.to_nat (b - a)) with (S (Z.to_nat (b - (a + 1)))) by lia.
  simpl. f_equal; [lia|].
  rewrite <- fmap_S_seq, <- !list_fmap_compose.
  apply list_fmap_ext. intros _ k _. simpl. lia.
Qed.

Lemma elem_of_arange a b x : x ∈ arange a b <-> a <= x < b.
Proof.
  unfold arange. rewrite list_elem_of_fmap. split.
  - intros (k & -> & Hk%elem_of_range). lia.
  - intros Hx. exists (x - a). split; [lia|]. apply elem_of_range. lia.
Qed.

Lemma arange_app a m b : a <= m <= b -> arange a b = arange a m ++ arange m b.
Proof.
  intros [Ham Hmb].
  remember (Z.to_nat (m - a)) as k eqn:Hk.
  revert a Ham Hk. induction k as [|k IH]; intros a Ham Hk.
  - assert (a = m) as -> by lia. by rewrite (arange_nil m m) by lia.
  - rewrite (arange_cons a b), (arange_cons a m) by lia.
    simpl. f_equal. apply IH; lia.
Qed.

Lemma getitem_negative {A} (a : list A) idx :
  - Z.of_nat (length a) <= idx < 0 ->
  exists x, a !! Z.to_nat (idx + Z.of_nat (length a)) = Some x /\ getitem a idx = Ok x.
Proof.
  intros Hidx. unfold getitem.
  destruct (lookup_lt_is_Some_2 a (Z.to_nat (idx + Z.of_nat (length a)))) as [x Hx];
    [lia|].
  exists x. split; [done|].
  rewrite decide_True by lia. rewrite decide_True by lia. by rewrite Hx.
Qed.

Lemma getitem_below {A} (a : list A) idx :
  idx < - Z.of_nat (length a) -> getitem a idx = Raise IndexError.
Proof. intros Hidx. unfold getitem. by rewrite decide_False by lia. Qed.

Lemma slice_cons {A} (a : list A) lo hi x :
  0 <= lo < hi -> a !! Z.to_nat lo = Some x ->
  slice a lo hi = x :: slice a (lo + 1) hi.
Proof.
  intros Hlo Hx. unfold slice.
  rewrite (drop_S a x (Z.to_nat lo)) by done.
  replace (Z.to_nat (hi - lo)) with (S (Z.to_nat (hi - (lo + 1)))) by lia.
  replace (Z.to_nat (lo + 1)) with (S (Z.to_nat lo)) by lia.
  reflexivity.
Qed.

Lemma fancy_index_arange_inside {A} (a : list A) lo hi :
  - Z.of_nat (length a) <= lo -> lo <= hi <= 0 ->
  fancy_index a (arange lo hi)
  = Ok (slice a (Z.of_nat (length a) + lo) (Z.of_nat (length a) + hi)).
Proof.
  intros Hlo Hhi. unfold fancy_index.
  remember (Z.to_nat (hi - lo)) as k eqn:Hk.
  revert lo Hlo Hhi Hk. induction k as [|k IH]; intros lo Hlo Hhi Hk.
  - rewrite arange_nil by lia. unfold slice.
    replace (Z.to_nat _) with 0%nat by lia. reflexivity.
  - rewrite arange_cons by lia. simpl.
    destruct (getitem_negative a lo) as (x & Hx & ->); [lia|].
    rewrite bind_ok, (IH (lo + 1)) by lia. simpl.
    rewrite (slice_cons a (Z.of_nat (length a) + lo) _ x); [|lia|].
    + do 3 f_equal. lia.
    + by rewrite Z.add_comm.
Qed.

(** Indexing with [arange(lo, hi)], [hi <= 0], reads the contiguous rows
    from [len + lo] up to [len + hi], and fails when [lo] is out of
    bounds. *)
Lemma fancy_index_arange {A} (a : list A) lo hi :
  hi <= 0 ->
  fancy_index a (arange lo hi)
  = if decide (lo < hi ∧ lo < - Z.of_nat (length a)) then Raise IndexError
    else Ok (slice a (Z.of_nat (length a) + lo) (Z.of_nat (length a) + hi)).
Proof.
  intros Hhi. case_decide as Hcase.
  - destruct Hcase as [Hlt Hout]. unfold fancy_index.
    rewrite arange_cons by done. simpl. by rewrite getitem_below.
  - destruct (decide (lo < hi)) as [Hlt|Hge].
    + apply fancy_index_arange_inside; lia.
    + rewrite arange_nil by lia. unfold slice.
      replace (Z.to_nat _) with 0%nat by lia. reflexivity.
Qed.

Lemma foldl_max_spec (l : list Z) (x : Z) :
  (foldl Z.max x l = x \/ foldl Z.max x l ∈ l)
  /\ x <= foldl Z.max x l
  /\ (forall y, y ∈ l -> y <= foldl Z.max x l).
Proof.
  revert x. induction l as [|z l IH]; intros x; simpl.
  - split; [by left|]. split; [lia|]. intros y Hy. by apply elem_of_nil in Hy.
  - destruct (IH (Z.max x z)) as (Hin & Hle & Hall). split; [|split].
    + destruct Hin as [Heq|Hin]; [|right; by right].
      rewrite Heq. destruct (Z.max_spec x z) as [[_ ->]|[_ ->]]; [right; left|by left].
    + lia.
    + intros y [->|Hy]%elem_of_cons; [lia|by apply Hall].
Qed.

(** [max] returns an element of the list that bounds the others. *)
Lemma py_max_spec (l : list Z) (m : Z) :
  py_max l = Ok m -> m ∈ l /\ (forall y, y ∈ l -> y <= m).
Proof.
  destruct l as [|x l]; simpl; [discriminate|]. intros [= <-].
  destruct (foldl_max_spec l x) as (Hin & Hle & Hall). split.
  - destruct Hin as [->|Hin]; [left|by right].
  - intros y [->|Hy]%elem_of_cons; [done|by apply Hall].
Qed.

(** ** Floats: [int] against [floor] *)

Lemma binary_round_aux_sign_clear prec emax m e l :
  SF_sign_clear (binary_round_aux prec emax false m e l).
Proof.
  unfold binary_round_aux.
  destruct (shr_fexp prec emax m e l) as [mrs' e'].
  destruct (shr_fexp prec emax _ e' loc_Exact) as [mrs'' e''].
  destruct (shr_m mrs''); simpl; auto.
  destruct (Z.leb _ _); simpl; auto.
Qed.

Lemma float_of_Z_sign_clear z : SF_sign_clear (Prim2SF (float_of_Z z)).
Proof.
  unfold float_of_Z. rewrite of_uint63_spec.
  pose proof (Uint63.to_Z_bounded (Uint63.of_Z z)) as [Hz _].
  destruct (Uint63.to_Z (Uint63.of_Z z)) as [|p|p]; simpl; [done| |lia].
  unfold binary_round. destruct (shl_align _ _ _) as [mz ez].
  apply binary_round_aux_sign_clear.
Qed.

Lemma leb_zero_sign x :
  (0 <=? x)%float = true ->
  match Prim2SF x with
  | S754_zero _ => True
  | S754_finite s _ _ | S754_infinity s => s = false
  | S754_nan => False
  end.
Proof.
  rewrite FloatAxioms.leb_spec. change (Prim2SF 0) with (S754_zero false).
  destruct (Prim2SF x) as [s|s| |s m e]; simpl; try done; destruct s; done.
Qed.

(** A length times a fraction that is not below zero is not negative. *)
Lemma mul_not_negative z x :
  (0 <=? x)%float = true -> SF_not_negative (Prim2SF (float_of_Z z * x)%float).
Proof.
  intros Hx%leb_zero_sign. rewrite FloatAxioms.mul_spec.
  pose proof (float_of_Z_sign_clear z) as Hz.
  destruct (Prim2SF (float_of_Z z)) as [sz|sz| |sz mz ez],
    (Prim2SF x) as [s|s| |s m e]; simpl in *; subst; try done.
  pose proof (binary_round_aux_sign_clear prec emax
                (Z.pos (mz * m)) (ez + e) loc_Exact) as H.
  unfold SF64mul. simpl.
  destruct (binary_round_aux _ _ _ _ _ _); simpl in *; done.
Qed.

Lemma SF_magnitude_pos m e :
  0 <= fst (SF_magnitude m e) /\ 0 < snd (SF_magnitude m e).
Proof.
  unfold SF_magnitude. case_decide; simpl.
  - split; [|lia]. apply Z.mul_nonneg_nonneg; [lia|]. apply Z.pow_nonneg. lia.
  - split; [lia|]. apply Z.pow_pos_nonneg; lia.
Qed.

Lemma SF_trunc_floor m e : SF_trunc false m e = SF_floor false m e.
Proof.
  unfold SF_trunc, SF_floor. pose proof (SF_magnitude_pos m e) as [Hn Hd].
  destruct (SF_magnitude m e) as [num den]. simpl in *.
  by apply Z.quot_div_nonneg.
Qed.

Lemma SF_floor_nonneg m e : 0 <= SF_floor false m e.
Proof.
  unfold SF_floor. pose proof (SF_magnitude_pos m e) as [Hn Hd].
  destruct (SF_magnitude m e) as [num den]. simpl in *.
  by apply Z.div_pos.
Qed.

Lemma py_int_floor x : SF_not_negative (Prim2SF x) -> py_int x = py_floor x.
Proof.
  unfold py_int, py_floor. destruct (Prim2SF x); simpl; try done.
  intros ->. by rewrite SF_trunc_floor.
Qed.

Lemma py_floor_nonneg x n :
  SF_not_negative (Prim2SF x) -> py_floor x = Ok n -> 0 <= n.
Proof.
  unfold py_floor. destruct (Prim2SF x); simpl; try discriminate.
  - intros _ [= <-]. lia.
  - intros -> [= <-]. apply SF_floor_nonneg.
Qed.

(** ** Floats: zero and one are neutral

    Subtracting [0.0] and dividing by [1.0] return their argument, for
    every binary64 value: the quotient of a mantissa by that of [1.0] is
    exact, so rounding leaves it alone. *)

Lemma SF64sub_zero (x : spec_float) : SF64sub x (S754_zero false) = x.
Proof. by destruct x as [[]|[]| |s m e]. Qed.

Lemma float_sub_zero (x : float) : (x - 0)%float = x.
Proof.
  rewrite <- (SF2Prim_Prim2SF (x - 0)), FloatAxioms.sub_spec.
  change (Prim2SF 0) with (S754_zero false).
  by rewrite SF64sub_zero, SF2Prim_Prim2SF.
Qed.

Ltac std_Z :=
  change IntDef.Z.add with Z.add in *;
  change IntDef.Z.sub with Z.sub in *;
  change IntDef.Z.mul with Z.mul in *;
  change IntDef.Z.min with Z.min in *;
  change IntDef.Z.max with Z.max in *;
  change IntDef.Z.leb with Z.leb in *;
  change IntDef.Z.eqb with Z.eqb in *;
  change IntDef.Z.shiftl with Z.shiftl in *;
  change IntDef.Z.div_eucl with Z.div_eucl in *.

Lemma canonical_cases m e :
  bounded prec emax m e = true ->
  e <= 971 /\ fexp prec emax (Z.pos (digits2_pos m) + e) = e.
Proof.
  unfold bounded, canonical_mantissa. intros [Hc He]%andb_true_iff.
  apply Z.eqb_eq in Hc. apply Z.leb_le in He. unfold prec, emax in *. simpl in He.
  split; [lia|done].
Qed.

Lemma div_eucl_mul (q b : Z) : 0 < b -> Z.div_eucl (q * b) b = (q, 0).
Proof.
  intros Hb. destruct (Z.div_eucl (q * b) b) as [q' r'] eqn:Heq.
  assert (q' = q * b / b) as -> by (unfold Z.div; by rewrite Heq).
  assert (r' = (q * b) mod b) as -> by (unfold Z.modulo; by rewrite Heq).
  rewrite Z.div_mul, Z.mod_mul by lia. done.
Qed.

Lemma shr_fexp_exact m e :
  fexp prec emax (Z.pos (digits2_pos m) + e) = e ->
  shr_fexp prec emax (Z.pos m) e loc_Exact
  = ({| shr_m := Z.pos m; shr_r := false; shr_s := false |}, e).
Proof.
  intros Hc. unfold shr_fexp. std_Z.
  change (Zdigits2 (Z.pos m)) with (Z.pos (digits2_pos m)).
  by rewrite Hc, Z.sub_diag.
Qed.

Lemma binary_round_aux_exact s m e :
  e <= 971 -> fexp prec emax (Z.pos (digits2_pos m) + e) = e ->
  binary_round_aux prec emax s (Z.pos m) e loc_Exact = S754_finite s m e.
Proof.
  intros He Hc. unfold binary_round_aux.
  rewrite shr_fexp_exact by done. cbv beta iota.
  change (round_nearest_even _ _) with (Z.pos m).
  rewrite shr_fexp_exact by done. cbv beta iota.
  change (shr_m _) with (Z.pos m). cbv beta iota. std_Z.
  change (emax - prec) with 971.
  by rewrite (proj2 (Z.leb_le e 971)) by done.
Qed.

Lemma fexp_eq (x : Z) : fexp prec emax x = Z.max (x - 53) (-1074).
Proof. reflexivity. Qed.

Lemma binary_round_aux_double s m e :
  e <= 971 -> Z.pos (digits2_pos m) = 53 -> -1074 < e ->
  binary_round_aux prec emax s (Z.pos m~0) (e - 1) loc_Exact = S754_finite s m e.
Proof.
  intros He Hd Hgt. unfold binary_round_aux, shr_fexp. std_Z.
  change (Zdigits2 (Z.pos m~0)) with (Z.pos (Pos.succ (digits2_pos m))).
  replace (fexp prec emax (Z.pos (Pos.succ (digits2_pos m)) + (e - 1)) - (e - 1))
    with 1 by (rewrite fexp_eq; lia).
  change (shr (shr_record_of_loc (Z.pos m~0) loc_Exact) (e - 1) 1)
    with ({| shr_m := Z.pos m; shr_r := false; shr_s := false |}, e - 1 + 1).
  cbv beta iota.
  change (round_nearest_even _ _) with (Z.pos m).
  replace (e - 1 + 1) with e by lia.
  change (Zdigits2 (Z.pos m)) with (Z.pos (digits2_pos m)).
  replace (fexp prec emax (Z.pos (digits2_pos m) + e) - e)
    with 0 by (rewrite fexp_eq; lia).
  change (shr _ e 0) with ({| shr_m := Z.pos m; shr_r := false; shr_s := false |}, e).
  cbv beta iota. change (shr_m _) with (Z.pos m). cbv beta iota.
  change (emax - prec) with 971.
  by rewrite (proj2 (Z.leb_le e 971)) by done.
Qed.

Lemma div_one_finite s m e :
  bounded prec emax m e = true ->
  SF64div (S754_finite s m e) (S754_finite false 4503599627370496 (-52))
  = S754_finite s m e.
Proof.
  intros [He Hc]%canonical_cases.
  unfold SF64div, SFdiv, SFdiv_core_binary. std_Z.
  change (Zdigits2 (Z.pos 4503599627370496)) with 53.
  change (Zdigits2 (Z.pos m)) with (Z.pos (digits2_pos m)).
  rewrite xorb_false_r.
  pose proof Hc as Hc'. rewrite fexp_eq in Hc'.
  assert ((Z.pos (digits2_pos m) = 53 /\ -1074 < e)
          \/ (e = -1074 /\ Z.pos (digits2_pos m) <= 53))
    as [[Hd53 Hgt]|[Hemin Hle]] by lia.
  - (* normal, above the smallest exponent: the quotient is [2 m] at [e - 1] *)
    replace (Z.min (fexp prec emax (Z.pos (digits2_pos m) + e - (53 + -52))) (e - -52))
      with (e - 1) by (rewrite fexp_eq; lia).
    replace (e - -52 - (e - 1)) with 53 by lia.
    rewrite Z.shiftl_mul_pow2 by lia.
    replace (Z.pos m * 2 ^ 53) with (Z.pos (xO m) * 4503599627370496) by lia.
    rewrite div_eucl_mul by lia.
    change (new_location 4503599627370496 0) with loc_Exact.
    by apply binary_round_aux_double.
  - (* the smallest exponent: the quotient is [m] at [e] *)
    replace (Z.min (fexp prec emax (Z.pos (digits2_pos m) + e - (53 + -52))) (e - -52))
      with e by (rewrite fexp_eq; lia).
    replace (e - -52 - e) with 52 by lia.
    rewrite Z.shiftl_mul_pow2 by lia.
    change (2 ^ 52) with 4503599627370496.
    rewrite div_eucl_mul by lia.
    change (new_location 4503599627370496 0) with loc_Exact.
    by apply binary_round_aux_exact.
Qed.

Lemma SF64div_one (x : spec_float) :
  valid_binary x = true ->
  SF64div x (S754_finite false 4503599627370496 (-52)) = x.
Proof.
  destruct x as [[]|[]| |s m e]; try done. apply div_one_finite.
Qed.

Lemma float_div_one (x : float) : (x / 1)%float = x.
Proof.
  rewrite <- (SF2Prim_Prim2SF (x / 1)), FloatAxioms.div_spec.
  change (Prim2SF 1) with (S754_finite false 4503599627370496 (-52)).
  by rewrite SF64div_one, SF2Prim_Prim2SF by apply Prim2SF_valid.
Qed.

(** Scaling by a standard deviation of zero and back gives NaN, whatever
    the value and the mean. *)
Lemma float_zero_std (x m : float) : ((x - m) / 0 * 0 + m)%float = nan.
Proof.
  rewrite <- (SF2Prim_Prim2SF (_ + m)).
  rewrite FloatAxioms.add_spec, FloatAxioms.mul_spec, FloatAxioms.div_spec.
  change (Prim2SF 0) with (S754_zero false).
  by destruct (Prim2SF (x - m)) as [[]|[]| |[] mx ex].
Qed.

(** ** binary64: how far one operation is from the exact result

    The operations of binary64 are specified by [SpecFloat]: the exact
    result is shifted to the exponent of the format, with the position
    of what is shifted out kept in a record, and rounded to nearest,
    ties to even. This section reads that specification on the reals:
    a result that is not an infinity or NaN differs from the exact
    result by at most [2^-53] of its magnitude, or by [2^-1075] where
    the format has no more digits. *)

Lemma locate_spec D rho l :
  locate D rho = l <->
  match l with
  | loc_Exact => rho = 0
  | loc_Inexact Lt => rho <> 0 /\ 2 * rho < D
  | loc_Inexact Eq => rho <> 0 /\ 2 * rho = D
  | loc_Inexact Gt => rho <> 0 /\ D < 2 * rho
  end.
Proof.
  unfold locate. destruct (Z.eqb_spec rho 0) as [->|Hne].
  - destruct l as [|[]]; split; try done; lia.
  - destruct (Z.compare_spec (2 * rho) D); destruct l as [|[]];
      split; try done; try lia; intros [= ]; lia.
Qed.

Lemma shr_1_represents N D mrs :
  represents N D mrs -> represents N (2 * D) (shr_1 mrs).
Proof.
  destruct mrs as [m r s]. unfold represents. simpl.
  intros (HD & Hm & HN & Hloc). symmetry in Hloc. apply locate_spec in Hloc.
  destruct m as [|p|p]; [| |lia].
  - destruct r, s; simpl in *; (split; [lia|]); (split; [lia|]);
      (split; [lia|]); symmetry; apply locate_spec; lia.
  - destruct p as [p|p|]; destruct r, s; simpl in *;
      (split; [lia|]); (split; [lia|]);
      (split; [lia|]); symmetry; apply locate_spec; lia.
Qed.

Lemma iter_pos_represents N D mrs (p : positive) :
  represents N D mrs -> represents N (2 ^ Z.pos p * D) (iter_pos shr_1 p mrs).
Proof.
  revert D mrs. induction p as [p IH|p IH|]; intros D mrs H; simpl.
  - apply shr_1_represents, IH, IH in H.
    replace (2 ^ Z.pos p~1 * D) with (2 ^ Z.pos p * (2 ^ Z.pos p * (2 * D))); [done|].
    replace (Z.pos p~1) with (Z.pos p + Z.pos p + 1) by lia.
    rewrite !Z.pow_add_r by lia. change (2 ^ 1) with 2. ring.
  - apply IH, IH in H.
    replace (2 ^ Z.pos p~0 * D) with (2 ^ Z.pos p * (2 ^ Z.pos p * D)); [done|].
    replace (Z.pos p~0) with (Z.pos p + Z.pos p) by lia.
    rewrite !Z.pow_add_r by lia. ring.
  - by apply shr_1_represents.
Qed.

(** [shr] by [n] bits: the record stands for the same fraction at the
    new exponent. *)
Lemma shr_represents N D mrs e n :
  represents N D mrs ->
  shr mrs e n = (mrs, e) /\ n <= 0
  \/ 0 < n /\ snd (shr mrs e n) = e + n
     /\ represents N (2 ^ n * D) (fst (shr mrs e n)).
Proof.
  intros H. destruct n as [|p|p]; simpl.
  - left. split; [done|lia].
  - right. split; [lia|]. split; [done|]. by apply iter_pos_represents.
  - left. split; [done|lia].
Qed.

Lemma digits2_pos_bounds (m : positive) :
  2 ^ (Z.pos (digits2_pos m) - 1) <= Z.pos m < 2 ^ Z.pos (digits2_pos m).
Proof.
  induction m as [m IH|m IH|]; simpl; [| |done].
  - rewrite Pos2Z.inj_succ.
    replace (Z.succ (Z.pos (digits2_pos m)) - 1) with (Z.pos (digits2_pos m) - 1 + 1) by lia.
    rewrite Z.pow_succ_r, Z.pow_add_r by lia. change (2 ^ 1) with 2. lia.
  - rewrite Pos2Z.inj_succ.
    replace (Z.succ (Z.pos (digits2_pos m)) - 1) with (Z.pos (digits2_pos m) - 1 + 1) by lia.
    rewrite Z.pow_succ_r, Z.pow_add_r by lia. change (2 ^ 1) with 2. lia.
Qed.

Lemma Zdigits2_nonneg m : 0 <= Zdigits2 m.
Proof. destruct m; simpl; lia. Qed.

Lemma Zdigits2_bounds m :
  0 < m -> 2 ^ (Zdigits2 m - 1) <= m < 2 ^ Zdigits2 m.
Proof. destruct m as [|p|p]; try lia. intros _. apply digits2_pos_bounds. Qed.

(** A number below [2 ^ k] has at most [k] digits. *)
Lemma Zdigits2_le m k : 0 <= m < 2 ^ k -> 0 <= k -> Zdigits2 m <= k.
Proof.
  intros [Hm Hlt] Hk. destruct (decide (m = 0)) as [->|Hne]; [done|].
  destruct (Zdigits2_bounds m) as [Hlo _]; [lia|].
  destruct (decide (Zdigits2 m <= k)) as [|Hgt]; [done|]. exfalso.
  assert (2 ^ k <= 2 ^ (Zdigits2 m - 1)) by (apply Z.pow_le_mono_r; lia).
  lia.
Qed.

(** A number from [2 ^ k] on has more than [k] digits. *)
Lemma Zdigits2_gt m k : 2 ^ k <= m -> 0 <= k -> k < Zdigits2 m.
Proof.
  intros Hle Hk. assert (0 < 2 ^ k) by (apply Z.pow_pos_nonneg; lia).
  destruct (Zdigits2_bounds m) as [_ Hhi]; [lia|].
  destruct (decide (k < Zdigits2 m)) as [|Hge]; [done|]. exfalso.
  assert (2 ^ Zdigits2 m <= 2 ^ k)
    by (apply Z.pow_le_mono_r; [lia|lia]).
  lia.
Qed.

(** Rounding to nearest, ties to even: the integer chosen is next to
    the fraction. *)
Lemma round_nearest_even_spec N D mrs :
  represents N D mrs ->
  let m1 := round_nearest_even (shr_m mrs) (loc_of_shr_record mrs) in
  (m1 = shr_m mrs \/ m1 = shr_m mrs + 1)
  /\ - D <= 2 * (m1 * D - N) <= D
  /\ (loc_of_shr_record mrs = loc_Exact -> m1 * D = N).
Proof.
  intros (HD & Hm & HN & Hloc). symmetry in Hloc. apply locate_spec in Hloc.
  destruct (loc_of_shr_record mrs) as [|[]]; simpl; std_Z.
  - split; [by left|]. split; [lia|]. lia.
  - destruct (Z.even (shr_m mrs)); (split; [by auto|]); split; try lia; done.
  - split; [by left|]. split; [lia|]. done.
  - split; [by right|]. split; [lia|]. done.
Qed.

Section Rounding.
Variables prec emax : Z.
Hypothesis Hprec : 0 < prec.

Abbreviation emin := (SpecFloat.emin prec emax).
Abbreviation fexp := (SpecFloat.fexp prec emax).

Lemma fexp_spec e : fexp e = Z.max (e - prec) emin.
Proof. reflexivity. Qed.

Lemma record_of_loc m l :
  shr_m (shr_record_of_loc m l) = m
  /\ loc_of_shr_record (shr_record_of_loc m l) = l.
Proof. by destruct l as [|[]]. Qed.

(** The second shift of [binary_round_aux] loses nothing: it shifts only
    when rounding up has produced [2 ^ prec]. *)
Lemma shr_fexp_after_rounding m1 e1 :
  0 <= m1 <= 2 ^ prec -> emin <= e1 ->
  exists mf ef,
    shr_m (fst (shr_fexp prec emax m1 e1 loc_Exact)) = mf
    /\ snd (shr_fexp prec emax m1 e1 loc_Exact) = ef
    /\ 0 <= mf /\ e1 <= ef /\ mf * 2 ^ (ef - e1) = m1.
Proof.
  intros [Hm Hle] He. unfold shr_fexp. std_Z. rewrite fexp_spec.
  destruct (decide (m1 = 2 ^ prec)) as [->|Hne].
  - assert (Zdigits2 (2 ^ prec) = prec + 1) as ->.
    { apply Z.le_antisymm.
      - apply Zdigits2_le; [|lia]. split; [lia|].
        apply Z.pow_lt_mono_r; lia.
      - assert (prec < Zdigits2 (2 ^ prec)) by (apply Zdigits2_gt; lia). lia. }
    replace (Z.max (prec + 1 + e1 - prec) emin - e1) with 1 by lia.
    assert (exists p, 2 ^ (prec - 1) = Z.pos p) as [p Hp].
    { assert (0 < 2 ^ (prec - 1)) by (apply Z.pow_pos_nonneg; lia).
      destruct (2 ^ (prec - 1)) as [|p|p]; try lia. by exists p. }
    assert (2 ^ prec = Z.pos p~0) as ->.
    { replace prec with (prec - 1 + 1) at 1 by lia.
      rewrite Z.pow_add_r by lia. rewrite Hp, (Pos2Z.inj_xO p).
      change (2 ^ 1) with 2. lia. }
    simpl. exists (Z.pos p), (e1 + 1). repeat split; try lia.
    replace (e1 + 1 - e1) with 1 by lia. change (2 ^ 1) with 2.
    rewrite (Pos2Z.inj_xO p). lia.
  - assert (Zdigits2 m1 <= prec) by (apply Zdigits2_le; lia).
    destruct (Z.max (Zdigits2 m1 + e1 - prec) emin - e1) as [|p|p] eqn:Hn;
      [|lia|]; simpl; exists m1, e1; rewrite Z.sub_diag; repeat split; lia.
Qed.

(** [binary_round_aux] on a located fraction [N / D] at exponent [ex],
    read on integers: [m1] at exponent [e1] is next to the fraction, and
    the result is [m1 * 2 ^ e1] under another name, unless it
    overflows. *)
Lemma binary_round_aux_int sx mx ex lx N D :
  represents N D (shr_record_of_loc mx lx) ->
  lx = loc_Exact \/ ex <= fexp (Zdigits2 mx + ex) ->
  exists m1 e1 mf ef,
    e1 = Z.max ex (fexp (Zdigits2 mx + ex))
    /\ - (2 ^ (e1 - ex) * D) <= 2 * (m1 * (2 ^ (e1 - ex) * D) - N)
       <= 2 ^ (e1 - ex) * D
    /\ (fexp (Zdigits2 mx + ex) < ex -> m1 * D = N)
    /\ 0 <= mf /\ e1 <= ef /\ mf * 2 ^ (ef - e1) = m1
    /\ binary_round_aux prec emax sx mx ex lx
       = match mf with
         | Z0 => S754_zero sx
         | Z.pos m =>
             if ef <=? emax - prec then S754_finite sx m ef
             else S754_infinity sx
         | Z.neg _ => S754_nan
         end.
Proof.
  intros Hrep Hcase.
  destruct (record_of_loc mx lx) as [Hmx Hlx].
  pose proof Hrep as (HD & Hm0 & HN0 & _). rewrite Hmx in Hm0, HN0.
  unfold binary_round_aux, shr_fexp at 1. std_Z.
  set (n := fexp (Zdigits2 mx + ex) - ex).
  destruct (shr_represents N D (shr_record_of_loc mx lx) ex n Hrep)
    as [[Heq Hn]|(Hn & He & Hrep')].
  - (* no shift *)
    rewrite Heq.
    destruct (round_nearest_even_spec N D _ Hrep) as (Hm1 & Herr & Hexact).
    rewrite Hmx, Hlx in *. cbv zeta in *.
    set (m1 := round_nearest_even mx lx) in *.
    assert (Z.max ex (fexp (Zdigits2 mx + ex)) = ex) as Hmax by lia.
    destruct (decide (n = 0)) as [Hn0|Hn0].
    + (* the fraction is at the target exponent already *)
      assert (emin <= ex) as Hemin by (unfold n in Hn0; rewrite fexp_spec in Hn0; lia).
      assert (mx < 2 ^ prec) as Hlt.
      { destruct (decide (mx = 0)) as [->|Hne];
          [apply Z.pow_pos_nonneg; lia|].
        destruct (Zdigits2_bounds mx) as [_ Hhi]; [lia|].
        assert (2 ^ Zdigits2 mx <= 2 ^ prec).
        { apply Z.pow_le_mono_r; [lia|].
          unfold n in Hn0. rewrite fexp_spec in Hn0. lia. }
        lia. }
      destruct (shr_fexp_after_rounding m1 ex) as (mf & ef & Hmf & Hef & ? & ? & ?);
        [lia|done|].
      destruct (SpecFloat.shr_fexp prec emax m1 ex loc_Exact) as [mrs'' e''].
      simpl in Hmf, Hef. rewrite Hmf, Hef.
      exists m1, ex, mf, ef. rewrite Hmax, Z.sub_diag, Z.mul_1_l.
      repeat split; try done; try (unfold n in Hn0; lia).
    + (* fewer digits than the format has: only exact fractions *)
      destruct Hcase as [->|Hcase]; [|unfold n in *; lia].
      assert (m1 = mx) as Hm1' by done.
      unfold shr_fexp. std_Z. rewrite Hm1'. fold n.
      destruct n as [|p|p]; try lia. simpl.
      exists mx, ex, mx, ex. rewrite Hmax, Z.sub_diag, Z.mul_1_l.
      assert (mx * D = N) as HN by (rewrite <- Hm1'; by apply Hexact).
      repeat split; try done; try lia.
  - (* shift by [n] bits *)
    destruct (shr (shr_record_of_loc mx lx) ex n) as [mrs' e'] eqn:Hshr.
    simpl in He, Hrep'. subst e'.
    destruct (round_nearest_even_spec N _ _ Hrep') as (Hm1 & Herr & Hexact).
    cbv zeta in *.
    set (m1 := round_nearest_even (shr_m mrs') (loc_of_shr_record mrs')) in *.
    pose proof Hrep' as (HD' & Hm' & HN' & _).
    assert (Z.max ex (fexp (Zdigits2 mx + ex)) = ex + n) as Hmax by (unfold n; lia).
    assert (emin <= ex + n) as Hemin by (unfold n; rewrite fexp_spec; lia).
    assert (shr_m mrs' < 2 ^ prec) as Hlt.
    { destruct (decide (shr_m mrs' < 2 ^ prec)) as [|Hge]; [done|]. exfalso.
      assert (0 < mx).
      { destruct (decide (mx = 0)) as [->|]; [|lia].
        assert (0 < 2 ^ n) by (apply Z.pow_pos_nonneg; lia).
        assert (0 < 2 ^ prec) by (apply Z.pow_pos_nonneg; lia). nia. }
      destruct (Zdigits2_bounds mx) as [_ Hhi]; [lia|].
      assert (2 ^ prec * 2 ^ n < 2 ^ Zdigits2 mx).
      { assert (0 < 2 ^ n) by (apply Z.pow_pos_nonneg; lia). nia. }
      rewrite <- Z.pow_add_r in * by lia.
      assert (Zdigits2 mx <= prec + n) by (unfold n; rewrite fexp_spec; lia).
      assert (2 ^ Zdigits2 mx <= 2 ^ (prec + n))
        by (apply Z.pow_le_mono_r; lia).
      lia. }
    destruct (shr_fexp_after_rounding m1 (ex + n)) as (mf & ef & Hmf & Hef & ? & ? & ?);
      [lia|done|].
    destruct (SpecFloat.shr_fexp prec emax m1 (ex + n) loc_Exact) as [mrs'' e''].
    simpl in Hmf, Hef. rewrite Hmf, Hef.
    exists m1, (ex + n), mf, ef. rewrite Hmax.
    replace (ex + n - ex) with n by lia.
    repeat split; try done; try lia.
Qed.

End Rounding.

Section Reals.
Local Open Scope R_scope.

Lemma bpow_pos e : 0 < powerRZ 2 e.
Proof. apply powerRZ_lt. lra. Qed.

Lemma bpow_add a b : powerRZ 2 (a + b) = powerRZ 2 a * powerRZ 2 b.
Proof. apply powerRZ_add. lra. Qed.

Lemma bpow_ge_1 k : (0 <= k)%Z -> 1 <= powerRZ 2 k.
Proof.
  intros Hk. rewrite <- (Z2Nat.id k) by done. rewrite <- pow_powerRZ.
  apply pow_R1_Rle. lra.
Qed.

Lemma bpow_le a b : (a <= b)%Z -> powerRZ 2 a <= powerRZ 2 b.
Proof.
  intros Hab. replace b with (a + (b - a))%Z by lia. rewrite bpow_add.
  pose proof (bpow_pos a). pose proof (bpow_ge_1 (b - a) ltac:(lia)). nra.
Qed.

Lemma bpow_IZR k : (0 <= k)%Z -> IZR (2 ^ k) = powerRZ 2 k.
Proof.
  intros Hk. rewrite <- (Z2Nat.id k) by done.
  by rewrite <- pow_IZR, <- pow_powerRZ.
Qed.

Lemma bpow_half e : powerRZ 2 (e - 1) = powerRZ 2 e / 2.
Proof.
  unfold Z.sub. rewrite bpow_add. simpl. lra.
Qed.

End Reals.

Section RoundingReal.
Variables prec emax : Z.
Hypothesis Hprec : (0 < prec)%Z.
Local Open Scope R_scope.

(** [binary_round_aux] on a located fraction, read on the reals: unless
    the result overflows it is zero or finite and within half a unit in
    the last place of the fraction. *)
Lemma binary_round_aux_real sx mx ex lx N D :
  represents N D (shr_record_of_loc mx lx) ->
  lx = loc_Exact \/ (ex <= fexp prec emax (Zdigits2 mx + ex))%Z ->
  binary_round_aux prec emax sx mx ex lx = S754_infinity sx
  \/ SFfinite (binary_round_aux prec emax sx mx ex lx) = true
     /\ Rabs (SF2R (binary_round_aux prec emax sx mx ex lx)
              - (if sx then -1 else 1) * (IZR N / IZR D * powerRZ 2 ex))
        <= powerRZ 2 (- prec) * (IZR N / IZR D * powerRZ 2 ex)
           + powerRZ 2 (emin prec emax - 1).
Proof.
  intros Hrep Hcase.
  destruct (binary_round_aux_int prec emax Hprec sx mx ex lx N D Hrep Hcase)
    as (m1 & e1 & mf & ef & He1 & Herr & Hexact & Hmf & Hef & Hval & ->).
  destruct (record_of_loc mx lx) as [Hmx _].
  destruct Hrep as (HD & Hm0 & HN0 & _). rewrite Hmx in Hm0, HN0.
  set (v := IZR N / IZR D * powerRZ 2 ex).
  set (sigma := if sx then -1 else 1).
  assert (0 < IZR D) as HDr by by apply IZR_lt.
  assert (0 <= IZR N) as HNr by (apply IZR_le; nia).
  pose proof (bpow_pos ex) as Hpex.
  assert (0 <= v) as Hv.
  { unfold v. apply Rmult_le_pos; [|lra]. apply Rmult_le_pos; [done|].
    apply Rlt_le, Rinv_0_lt_compat. done. }
  assert (IZR mx * powerRZ 2 ex <= v) as Hmxv.
  { unfold v. apply Rmult_le_compat_r; [lra|].
    apply (Rmult_le_reg_r (IZR D)); [done|].
    unfold Rdiv. rewrite Rmult_assoc, Rinv_l, Rmult_1_r by lra.
    rewrite <- mult_IZR. apply IZR_le. lia. }
  (* the value of the result *)
  assert (IZR mf * powerRZ 2 ef = IZR m1 * powerRZ 2 e1) as Hvalue.
  { rewrite <- Hval, mult_IZR, bpow_IZR by lia.
    replace ef with (ef - e1 + e1)%Z at 1 by lia. rewrite bpow_add. ring. }
  (* half a unit in the last place *)
  assert (Rabs (IZR m1 * powerRZ 2 e1 - v) <= powerRZ 2 e1 / 2) as Hhalf.
  { assert (e1 = (e1 - ex + ex)%Z) as Hsplit by lia.
    rewrite Hsplit at 1 2. rewrite bpow_add.
    pose proof (bpow_pos (e1 - ex)) as Hk.
    assert (- (powerRZ 2 (e1 - ex) * IZR D)
            <= 2 * (IZR m1 * (powerRZ 2 (e1 - ex) * IZR D) - IZR N)
            <= powerRZ 2 (e1 - ex) * IZR D) as Herr'.
    { rewrite <- bpow_IZR by lia. rewrite <- !mult_IZR, <- minus_IZR.
      rewrite <- opp_IZR, <- mult_IZR. split; apply IZR_le; lia. }
    set (k := powerRZ 2 (e1 - ex)) in *. set (p := powerRZ 2 ex) in *.
    set (w := IZR N / IZR D).
    assert (IZR N = w * IZR D) as HNw by (unfold w; field; lra).
    unfold v. fold w. rewrite HNw in Herr'.
    assert (- k <= 2 * (IZR m1 * k - w) <= k) as [Hlo Hhi].
    { split; apply (Rmult_le_reg_r (IZR D)); try done; lra. }
    apply Rabs_le. split; nra. }
  assert (Rabs (IZR m1 * powerRZ 2 e1 - v)
          <= powerRZ 2 (- prec) * v + powerRZ 2 (emin prec emax - 1)) as Hbound.
  { pose proof (bpow_pos (- prec)). pose proof (bpow_pos (emin prec emax - 1)).
    destruct (Z_lt_le_dec (fexp prec emax (Zdigits2 mx + ex)) ex) as [Hno|Hshift].
    - (* exact *)
      specialize (Hexact Hno). assert (e1 = ex) as -> by lia.
      assert (IZR m1 * powerRZ 2 ex - v = 0) as ->.
      { unfold v. rewrite <- Hexact, mult_IZR. field. lra. }
      rewrite Rabs_R0. nra.
    - assert (e1 = fexp prec emax (Zdigits2 mx + ex)) as He1' by lia.
      rewrite fexp_spec in He1'.
      destruct (Z_le_gt_dec (Zdigits2 mx + ex - prec) (emin prec emax))
        as [Hsub|Hnorm].
      + (* at the least exponent *)
        assert (e1 = emin prec emax) as -> by lia.
        rewrite bpow_half. nra.
      + (* a full mantissa *)
        assert (e1 = (Zdigits2 mx + ex - prec)%Z) as He1'' by lia.
        assert (0 < mx)%Z as Hmxpos.
        { destruct mx as [|p|p]; [simpl in *; lia|lia|lia]. }
        destruct (Zdigits2_bounds mx Hmxpos) as [Hlo _].
        assert (powerRZ 2 (Zdigits2 mx - 1) <= IZR mx) as Hlo'.
        { rewrite <- bpow_IZR by (pose proof (Zdigits2_nonneg mx); lia).
          by apply IZR_le. }
        assert (powerRZ 2 e1 / 2 = powerRZ 2 (- prec)
                                   * (powerRZ 2 (Zdigits2 mx - 1) * powerRZ 2 ex))
          as Hulp.
        { rewrite <- bpow_half, <- !bpow_add. f_equal. lia. }
        rewrite Hulp in Hhalf.
        assert (powerRZ 2 (Zdigits2 mx - 1) * powerRZ 2 ex <= v) by nra.
        nra. }
  destruct mf as [|m|m]; [| |lia].
  - right. split; [done|]. simpl.
    assert (IZR m1 * powerRZ 2 e1 = 0) as Hzero by (rewrite <- Hvalue; simpl; lra).
    rewrite Hzero in Hbound.
    replace (0 - sigma * v) with (sigma * (0 - v)) by ring.
    rewrite Rabs_mult.
    assert (Rabs sigma = 1) as ->
      by (unfold sigma, Rabs; destruct sx; destruct (Rcase_abs _); lra).
    lra.
  - destruct (ef <=? emax - prec)%Z; [right|by left]. split; [done|]. simpl.
    assert (IZR (cond_Zopp sx (Z.pos m)) = sigma * IZR (Z.pos m)) as ->.
    { unfold sigma. destruct sx; simpl; [|lra].
      change (Z.neg m) with (- Z.pos m)%Z. rewrite opp_IZR. lra. }
    rewrite Rmult_assoc, Hvalue.
    replace (sigma * (IZR m1 * powerRZ 2 e1) - sigma * v)
      with (sigma * (IZR m1 * powerRZ 2 e1 - v)) by ring.
    rewrite Rabs_mult.
    assert (Rabs sigma = 1) as ->
      by (unfold sigma, Rabs; destruct sx; destruct (Rcase_abs _); lra).
    lra.
Qed.

End RoundingReal.

Lemma pos_iter_xO (m d : positive) :
  Z.pos (Pos.iter xO m d) = Z.pos m * 2 ^ Z.pos d.
Proof.
  induction d as [|d IH] using Pos.peano_ind.
  - simpl. lia.
  - rewrite Pos.iter_succ, Pos2Z.inj_xO, IH, Pos2Z.inj_succ, Z.pow_succ_r by lia.
    ring.
Qed.

(** [shl_align]: the same number with an exponent that is not above
    the one asked for. *)
Lemma shl_align_spec (m : positive) (e e' : Z) :
  let '(m', e'') := shl_align m e e' in
  e'' = Z.min e e' /\ Z.pos m' = Z.pos m * 2 ^ (e - e'').
Proof.
  unfold shl_align. std_Z. destruct (e' - e) as [|d|d] eqn:Hd.
  - split; [lia|]. rewrite Z.sub_diag. simpl. lia.
  - split; [lia|]. rewrite Z.sub_diag. simpl. lia.
  - split; [lia|]. rewrite pos_iter_xO. f_equal. f_equal. lia.
Qed.

Lemma represents_exact (m : positive) :
  represents (Z.pos m) 1 (shr_record_of_loc (Z.pos m) loc_Exact).
Proof.
  unfold represents. simpl. repeat split; try lia.
  symmetry. apply locate_spec. lia.
Qed.

Section Operations.
Variables prec emax : Z.
Hypothesis Hprec : (0 < prec)%Z.
Local Open Scope R_scope.

Abbreviation u := (powerRZ 2 (- prec)).
Abbreviation eta := (powerRZ 2 (emin prec emax - 1)).

Lemma sign_value (s : bool) (m : positive) (e : Z) :
  SF2R (S754_finite s m e)
  = (if s then -1 else 1) * (IZR (Z.pos m) * powerRZ 2 e).
Proof.
  simpl. destruct s; simpl; [|lra].
  change (Z.neg m) with (- Z.pos m)%Z. rewrite opp_IZR. lra.
Qed.

Lemma value_pos (m : positive) (e : Z) : 0 < IZR (Z.pos m) * powerRZ 2 e.
Proof.
  apply Rmult_lt_0_compat; [|apply bpow_pos]. by apply IZR_lt.
Qed.

Lemma Rabs_sign (s : bool) (v : R) :
  0 <= v -> Rabs ((if s then -1 else 1) * v) = v.
Proof.
  intros Hv. unfold Rabs. destruct s; destruct (Rcase_abs _); lra.
Qed.

(** The result of [binary_round], when it is not an infinity, is within
    half a unit in the last place of [m * 2 ^ e]. *)
Lemma binary_round_real (s : bool) (m : positive) (e : Z) :
  binary_round prec emax s m e = S754_infinity s
  \/ SFfinite (binary_round prec emax s m e) = true
     /\ Rabs (SF2R (binary_round prec emax s m e) - SF2R (S754_finite s m e))
        <= u * Rabs (SF2R (S754_finite s m e)) + eta.
Proof.
  unfold binary_round.
  pose proof (shl_align_spec m e (fexp prec emax (Z.pos (digits2_pos m) + e)))
    as Halign.
  destruct (shl_align m e _) as [mz ez]. destruct Halign as [Hez Hmz].
  destruct (binary_round_aux_real prec emax Hprec s (Z.pos mz) ez loc_Exact
              (Z.pos mz) 1 (represents_exact mz) (or_introl eq_refl))
    as [Hinf|[Hfin Hbound]]; [by left|right]. split; [done|].
  assert (IZR (Z.pos mz) / 1 * powerRZ 2 ez = IZR (Z.pos m) * powerRZ 2 e) as Hv.
  { rewrite Hmz, mult_IZR, bpow_IZR by lia.
    replace e with (e - ez + ez)%Z at 2 by lia. rewrite bpow_add. field. }
  rewrite Hv in Hbound. rewrite sign_value, Rabs_sign; [done|].
  apply Rlt_le, value_pos.
Qed.

(** An integer [M] at exponent [e], rounded by [binary_normalize]. *)
Lemma binary_normalize_real (M e : Z) :
  (exists s, binary_normalize prec emax M e false = S754_infinity s)
  \/ SFfinite (binary_normalize prec emax M e false) = true
     /\ Rabs (SF2R (binary_normalize prec emax M e false) - IZR M * powerRZ 2 e)
        <= u * Rabs (IZR M * powerRZ 2 e) + eta.
Proof.
  pose proof (bpow_pos (- prec)). pose proof (bpow_pos (emin prec emax - 1)).
  destruct M as [|m|m]; simpl.
  - right. split; [done|]. rewrite Rmult_0_l, Rminus_0_r, Rabs_R0. lra.
  - destruct (binary_round_real false m e) as [Hinf|[Hfin Hbound]];
      [left; by eexists|right]. split; [done|].
    by rewrite sign_value, !Rmult_1_l in Hbound.
  - destruct (binary_round_real true m e) as [Hinf|[Hfin Hbound]];
      [left; by eexists|right]. split; [done|].
    rewrite sign_value in Hbound.
    change (Z.neg m) with (- Z.pos m)%Z. rewrite opp_IZR.
    replace (- IZR (Z.pos m) * powerRZ 2 e)
      with (-1 * (IZR (Z.pos m) * powerRZ 2 e)) by ring. done.
Qed.

(** The mantissas of two floats brought to the smaller exponent. *)
Lemma aligned_value (s : bool) (m : positive) (e e' : Z) :
  (e' <= e)%Z ->
  IZR (cond_Zopp s (Z.pos (fst (shl_align m e e')))) * powerRZ 2 e'
  = SF2R (S754_finite s m e).
Proof.
  intros Hle. pose proof (shl_align_spec m e e') as Halign.
  destruct (shl_align m e e') as [m' e'']. destruct Halign as [He'' Hm'].
  simpl fst. assert (e'' = e') as -> by lia.
  rewrite sign_value.
  assert (IZR (cond_Zopp s (Z.pos m')) = (if s then -1 else 1) * IZR (Z.pos m'))
    as ->.
  { destruct s; simpl; [|lra].
    change (Z.neg m') with (- Z.pos m')%Z. rewrite opp_IZR. lra. }
  rewrite Hm', mult_IZR, bpow_IZR by lia.
  replace e with (e - e' + e')%Z at 2 by lia. rewrite bpow_add. ring.
Qed.

Lemma SFadd_real (x y : spec_float) :
  SFfinite (SFadd prec emax x y) = true ->
  SFfinite x = true /\ SFfinite y = true
  /\ Rabs (SF2R (SFadd prec emax x y) - (SF2R x + SF2R y))
     <= u * Rabs (SF2R x + SF2R y) + eta.
Proof.
  pose proof (bpow_pos (- prec)). pose proof (bpow_pos (emin prec emax - 1)).
  destruct x as [sx|sx| |sx mx ex], y as [sy|sy| |sy my ey];
    try (by destruct sx, sy); try done.
  - (* zero + zero *)
    intros _. split; [done|]. split; [done|].
    assert (SF2R (SFadd prec emax (S754_zero sx) (S754_zero sy)) = 0) as ->
      by by destruct sx, sy.
    simpl. rewrite Rplus_0_r, Rminus_0_r, Rabs_R0. lra.
  - (* zero + finite *)
    intros _. split; [done|]. split; [done|].
    cbn [SFadd]. cbn [SF2R]. rewrite Rplus_0_l.
    unfold Rminus. rewrite Rplus_opp_r, Rabs_R0.
    pose proof (Rabs_pos (IZR (cond_Zopp sy (Z.pos my)) * powerRZ 2 ey)). nra.
  - (* finite + zero *)
    intros _. split; [done|]. split; [done|].
    cbn [SFadd]. cbn [SF2R]. rewrite Rplus_0_r.
    unfold Rminus. rewrite Rplus_opp_r, Rabs_R0.
    pose proof (Rabs_pos (IZR (cond_Zopp sx (Z.pos mx)) * powerRZ 2 ex)). nra.
  - (* finite + finite *)
    cbn [SFadd]. std_Z. intros Hfin. split; [done|]. split; [done|].
    set (ez := Z.min ex ey) in *.
    set (M := (cond_Zopp sx (Z.pos (fst (shl_align mx ex ez)))
               + cond_Zopp sy (Z.pos (fst (shl_align my ey ez))))%Z) in *.
    assert (IZR M * powerRZ 2 ez
            = SF2R (S754_finite sx mx ex) + SF2R (S754_finite sy my ey)) as HM.
    { unfold M. rewrite plus_IZR, Rmult_plus_distr_r.
      rewrite !aligned_value by (unfold ez; lia). done. }
    destruct (binary_normalize_real M ez) as [[s Hinf]|[_ Hbound]].
    + by rewrite Hinf in Hfin.
    + by rewrite HM in Hbound.
Qed.

Lemma SFsub_real (x y : spec_float) :
  SFfinite (SFsub prec emax x y) = true ->
  SFfinite x = true /\ SFfinite y = true
  /\ Rabs (SF2R (SFsub prec emax x y) - (SF2R x - SF2R y))
     <= u * Rabs (SF2R x - SF2R y) + eta.
Proof.
  pose proof (bpow_pos (- prec)). pose proof (bpow_pos (emin prec emax - 1)).
  destruct x as [sx|sx| |sx mx ex], y as [sy|sy| |sy my ey];
    try (by destruct sx, sy); try done.
  - (* zero - zero *)
    intros _. split; [done|]. split; [done|].
    assert (SF2R (SFsub prec emax (S754_zero sx) (S754_zero sy)) = 0) as ->
      by by destruct sx, sy.
    simpl. rewrite !Rminus_0_r, Rabs_R0. lra.
  - (* zero - finite *)
    intros _. split; [done|]. split; [done|].
    cbn [SFsub]. rewrite !sign_value. cbn [SF2R].
    assert ((if negb sy then -1 else 1) * (IZR (Z.pos my) * powerRZ 2 ey)
            - (0 - (if sy then -1 else 1) * (IZR (Z.pos my) * powerRZ 2 ey)) = 0)
      as -> by (destruct sy; simpl; lra).
    rewrite Rabs_R0.
    pose proof (Rabs_pos (0 - (if sy then -1 else 1)
                              * (IZR (Z.pos my) * powerRZ 2 ey))). nra.
  - (* finite - zero *)
    intros _. split; [done|]. split; [done|].
    cbn [SFsub]. cbn [SF2R]. rewrite Rminus_0_r.
    unfold Rminus. rewrite Rplus_opp_r, Rabs_R0.
    pose proof (Rabs_pos (IZR (cond_Zopp sx (Z.pos mx)) * powerRZ 2 ex)). nra.
  - (* finite - finite *)
    cbn [SFsub]. std_Z. intros Hfin. split; [done|]. split; [done|].
    set (ez := Z.min ex ey) in *.
    set (M := (cond_Zopp sx (Z.pos (fst (shl_align mx ex ez)))
               - cond_Zopp sy (Z.pos (fst (shl_align my ey ez))))%Z) in *.
    assert (IZR M * powerRZ 2 ez
            = SF2R (S754_finite sx mx ex) - SF2R (S754_finite sy my ey)) as HM.
    { unfold M. rewrite minus_IZR. unfold Rminus.
      rewrite Rmult_plus_distr_r, Ropp_mult_distr_l_reverse.
      rewrite !aligned_value by (unfold ez; lia). done. }
    destruct (binary_normalize_real M ez) as [[s Hinf]|[_ Hbound]].
    + by rewrite Hinf in Hfin.
    + by rewrite HM in Hbound.
Qed.

Lemma sign_xorb (sx sy : bool) :
  (if xorb sx sy then -1 else 1)
  = (if sx then -1 else 1) * (if sy then -1 else 1).
Proof. destruct sx, sy; simpl; lra. Qed.

Lemma SFmul_real (x y : spec_float) :
  SFfinite (SFmul prec emax x y) = true ->
  SFfinite x = true /\ SFfinite y = true
  /\ Rabs (SF2R (SFmul prec emax x y) - SF2R x * SF2R y)
     <= u * Rabs (SF2R x * SF2R y) + eta.
Proof.
  pose proof (bpow_pos (- prec)). pose proof (bpow_pos (emin prec emax - 1)).
  destruct x as [sx|sx| |sx mx ex], y as [sy|sy| |sy my ey]; try done;
    try (intros _; split; [done|]; split; [done|]; cbn [SFmul SF2R];
         rewrite ?Rmult_0_l, ?Rmult_0_r, Rminus_0_r, Rabs_R0; lra).
  cbn [SFmul]. std_Z. intros Hfin. split; [done|]. split; [done|].
  destruct (binary_round_aux_real prec emax Hprec (xorb sx sy)
              (Z.pos (mx * my)) (ex + ey) loc_Exact
              (Z.pos (mx * my)) 1 (represents_exact (mx * my))
              (or_introl eq_refl))
    as [Hinf|[_ Hbound]]; [by rewrite Hinf in Hfin|].
  assert (IZR (Z.pos (mx * my)) / 1 * powerRZ 2 (ex + ey)
          = (IZR (Z.pos mx) * powerRZ 2 ex) * (IZR (Z.pos my) * powerRZ 2 ey))
    as Hv.
  { rewrite Pos2Z.inj_mul, mult_IZR, bpow_add. field. }
  rewrite Hv in Hbound. rewrite !sign_value.
  pose proof (value_pos mx ex). pose proof (value_pos my ey).
  set (a := IZR (Z.pos mx) * powerRZ 2 ex) in *.
  set (b := IZR (Z.pos my) * powerRZ 2 ey) in *.
  rewrite sign_xorb in Hbound.
  replace ((if sx then -1 else 1) * a * ((if sy then -1 else 1) * b))
    with ((if sx then -1 else 1) * (if sy then -1 else 1) * (a * b)) by ring.
  rewrite <- sign_xorb, Rabs_sign by nra. by rewrite sign_xorb.
Qed.

Lemma new_location_locate (D r : Z) :
  (0 < D)%Z -> new_location D r = locate D r.
Proof.
  intros HD. unfold new_location, new_location_even, new_location_odd, locate.
  std_Z. destruct (Z.even D) eqn:Heven; [done|].
  destruct (r =? 0)%Z; [done|]. f_equal.
  assert (Z.odd D = true) as Hodd by by rewrite <- Z.negb_even, Heven.
  apply Z.odd_spec in Hodd as [k ->].
  destruct (Z.compare_spec (2 * r + 1) (2 * k + 1));
    destruct (Z.compare_spec (2 * r) (2 * k + 1)); try done; lia.
Qed.

(** The quotient of two mantissas as the division computes it: enough
    digits for a correct rounding, and the rest located. *)
Lemma SFdiv_core_binary_spec (mx my : positive) (ex ey : Z) :
  let '(q, e', l) := SFdiv_core_binary prec emax (Z.pos mx) ex (Z.pos my) ey in
  (e' <= ex - ey)%Z
  /\ represents (Z.pos mx * 2 ^ (ex - ey - e')) (Z.pos my) (shr_record_of_loc q l)
  /\ (e' <= fexp prec emax (Zdigits2 q + e'))%Z.
Proof.
  unfold SFdiv_core_binary. std_Z.
  set (d1 := Zdigits2 (Z.pos mx)). set (d2 := Zdigits2 (Z.pos my)).
  set (e' := Z.min (fexp prec emax (d1 + ex - (d2 + ey))) (ex - ey)).
  set (s := (ex - ey - e')%Z).
  assert (0 <= s)%Z as Hs by (unfold s, e'; lia).
  set (m' := match s with
             | 0%Z => Z.pos mx
             | Z.pos _ => Z.shiftl (Z.pos mx) s
             | Z.neg _ => 0%Z
             end).
  assert (m' = (Z.pos mx * 2 ^ s)%Z) as Hm'.
  { unfold m'. destruct s as [|p|p] eqn:Hp; [simpl; lia| |lia].
    by rewrite Z.shiftl_mul_pow2. }
  pose proof (Z.div_eucl_eq m' (Z.pos my) ltac:(lia)) as Heq.
  pose proof (Z.mod_pos_bound m' (Z.pos my) ltac:(lia)) as Hmod.
  unfold Z.modulo in Hmod.
  destruct (Z.div_eucl m' (Z.pos my)) as [q r].
  assert (0 < 2 ^ s)%Z as Hpow by (apply Z.pow_pos_nonneg; lia).
  assert (0 <= q)%Z as Hq by nia.
  destruct (record_of_loc q (new_location (Z.pos my) r)) as [Hrm Hrl].
  split; [unfold e'; lia|]. split.
  - change (ex - ey - e')%Z with s. unfold represents.
    rewrite Hrm, Hrl, <- Hm'.
    split; [lia|]. split; [done|]. split; [nia|].
    rewrite new_location_locate by lia. f_equal. lia.
  - rewrite fexp_spec.
    destruct (Z_le_gt_dec e' (emin prec emax)) as [|Hgt]; [lia|].
    (* the quotient has a full mantissa *)
    assert (e' <= d1 + ex - (d2 + ey) - prec)%Z as He'
      by (unfold e' in *; rewrite fexp_spec in *; lia).
    destruct (digits2_pos_bounds mx) as [Hlo1 _].
    destruct (digits2_pos_bounds my) as [_ Hhi2].
    fold d1 in Hlo1. fold d2 in Hhi2. change (Z.pos (digits2_pos mx)) with d1 in Hlo1.
    change (Z.pos (digits2_pos my)) with d2 in Hhi2.
    assert (0 < d1)%Z by (unfold d1; simpl; lia).
    assert (0 < d2)%Z by (unfold d2; simpl; lia).
    set (k := (d1 - 1 + s - d2)%Z).
    assert (prec - 1 <= k)%Z as Hk by (unfold k, s; lia).
    assert (2 ^ k < q + 1)%Z as Hqk.
    { assert (2 ^ (d1 - 1) * 2 ^ s <= m')%Z by nia.
      assert (m' < (q + 1) * 2 ^ d2)%Z by nia.
      assert (2 ^ (d1 - 1) * 2 ^ s = 2 ^ k * 2 ^ d2)%Z as Hsplit.
      { rewrite <- !Z.pow_add_r by lia. f_equal. unfold k. lia. }
      assert (0 < 2 ^ d2)%Z by (apply Z.pow_pos_nonneg; lia).
      nia. }
    assert (k < Zdigits2 q)%Z by (apply Zdigits2_gt; lia).
    lia.
Qed.

Lemma SFdiv_real (x y : spec_float) :
  SFfinite (SFdiv prec emax x y) = true ->
  SFfinite y = true ->
  SFfinite x = true /\ SF2R y <> 0
  /\ Rabs (SF2R (SFdiv prec emax x y) - SF2R x / SF2R y)
     <= u * Rabs (SF2R x / SF2R y) + eta.
Proof.
  pose proof (bpow_pos (- prec)). pose proof (bpow_pos (emin prec emax - 1)).
  destruct x as [sx|sx| |sx mx ex], y as [sy|sy| |sy my ey]; try done.
  - (* zero / finite *)
    intros _ _. split; [done|]. pose proof (value_pos my ey).
    rewrite sign_value. split; [destruct sy; lra|].
    cbn [SFdiv SF2R]. unfold Rdiv. rewrite Rmult_0_l, Rminus_0_r, Rabs_R0. lra.
  - (* finite / finite *)
    cbn [SFdiv]. intros Hfin _. split; [done|].
    pose proof (value_pos mx ex) as Ha. pose proof (value_pos my ey) as Hb.
    rewrite !sign_value. split; [destruct sy; lra|].
    pose proof (SFdiv_core_binary_spec mx my ex ey) as Hcore.
    destruct (SFdiv_core_binary prec emax (Z.pos mx) ex (Z.pos my) ey)
      as [[q e'] l].
    destruct Hcore as (He' & Hrep & Hshift).
    destruct (binary_round_aux_real prec emax Hprec (xorb sx sy) q e' l
                _ _ Hrep (or_intror Hshift))
      as [Hinf|[_ Hbound]]; [by rewrite Hinf in Hfin|].
    assert (IZR (Z.pos mx * 2 ^ (ex - ey - e')) / IZR (Z.pos my) * powerRZ 2 e'
            = (IZR (Z.pos mx) * powerRZ 2 ex) / (IZR (Z.pos my) * powerRZ 2 ey))
      as Hv.
    { rewrite mult_IZR, bpow_IZR by lia.
      replace ex with ((ex - ey - e') + e' + ey)%Z at 2 by lia.
      rewrite !bpow_add. field. split.
      - pose proof (bpow_pos ey). lra.
      - apply not_0_IZR. lia. }
    rewrite Hv in Hbound.
    set (a := IZR (Z.pos mx) * powerRZ 2 ex) in *.
    set (b := IZR (Z.pos my) * powerRZ 2 ey) in *.
    assert (0 < a / b) as Hab by (apply Rdiv_lt_0_compat; lra).
    rewrite sign_xorb in Hbound.
    replace ((if sx then -1 else 1) * a / ((if sy then -1 else 1) * b))
      with ((if sx then -1 else 1) * (if sy then -1 else 1) * (a / b))
      by (destruct sx, sy; field; lra).
    rewrite <- sign_xorb, Rabs_sign by lra. by rewrite sign_xorb.
Qed.

End Operations.

Section Binary64.
Local Open Scope R_scope.

(** The unit roundoff of binary64 and half its least positive value. *)
Lemma binary64_u : powerRZ 2 (- prec) = / 2 ^ 53.
Proof. reflexivity. Qed.

Lemma binary64_eta : powerRZ 2 (emin prec emax - 1) = / 2 ^ 1075.
Proof. reflexivity. Qed.

Lemma float_add_error (x y : float) :
  isfinite (x + y) = true ->
  isfinite x = true /\ isfinite y = true
  /\ Rabs (F2R (x + y) - (F2R x + F2R y))
     <= / 2 ^ 53 * Rabs (F2R x + F2R y) + / 2 ^ 1075.
Proof.
  unfold isfinite, F2R. rewrite FloatAxioms.add_spec. intros Hfin.
  rewrite <- binary64_u, <- binary64_eta. by apply SFadd_real.
Qed.

Lemma float_sub_error (x y : float) :
  isfinite (x - y) = true ->
  isfinite x = true /\ isfinite y = true
  /\ Rabs (F2R (x - y) - (F2R x - F2R y))
     <= / 2 ^ 53 * Rabs (F2R x - F2R y) + / 2 ^ 1075.
Proof.
  unfold isfinite, F2R. rewrite FloatAxioms.sub_spec. intros Hfin.
  rewrite <- binary64_u, <- binary64_eta. by apply SFsub_real.
Qed.

Lemma float_mul_error (x y : float) :
  isfinite (x * y) = true ->
  isfinite x = true /\ isfinite y = true
  /\ Rabs (F2R (x * y) - F2R x * F2R y)
     <= / 2 ^ 53 * Rabs (F2R x * F2R y) + / 2 ^ 1075.
Proof.
  unfold isfinite, F2R. rewrite FloatAxioms.mul_spec. intros Hfin.
  rewrite <- binary64_u, <- binary64_eta. by apply SFmul_real.
Qed.

Lemma float_div_error (x y : float) :
  isfinite (x / y) = true -> isfinite y = true ->
  isfinite x = true /\ F2R y <> 0
  /\ Rabs (F2R (x / y) - F2R x / F2R y)
     <= / 2 ^ 53 * Rabs (F2R x / F2R y) + / 2 ^ 1075.
Proof.
  unfold isfinite, F2R. rewrite FloatAxioms.div_spec. intros Hfin Hy.
  rewrite <- binary64_u, <- binary64_eta. by apply SFdiv_real.
Qed.

End Binary64.

Section RoundTrip.
Local Open Scope R_scope.

Lemma Rabs_near (a b e : R) : Rabs (a - b) <= e -> Rabs a <= Rabs b + e.
Proof.
  intros H. replace a with (b + (a - b)) at 1 by ring.
  pose proof (Rabs_triang b (a - b)). lra.
Qed.

Lemma Rabs_sum4 (a b c d : R) :
  Rabs (a + b + c + d) <= Rabs a + Rabs b + Rabs c + Rabs d.
Proof.
  pose proof (Rabs_triang (a + b + c) d).
  pose proof (Rabs_triang (a + b) c).
  pose proof (Rabs_triang a b). lra.
Qed.

(** Standardising a value and undoing it, in binary64: when the result
    is finite, so were the value, the mean and the standard deviation,
    the latter not zero, and the result is near the value. *)
Lemma round_trip_error (x m s : float) :
  isfinite ((x - m) / s * s + m) = true ->
  isfinite x = true /\ isfinite m = true /\ isfinite s = true /\ F2R s <> 0
  /\ Rabs (F2R ((x - m) / s * s + m) - F2R x)
     <= / 2 ^ 50 * (Rabs (F2R x) + Rabs (F2R m))
        + / 2 ^ 1073 * (1 + Rabs (F2R s)).
Proof.
  intros Hr.
  destruct (float_add_error _ _ Hr) as (Hp & Hm & Er).
  destruct (float_mul_error _ _ Hp) as (Hq & Hs & Ep).
  destruct (float_div_error _ _ Hq Hs) as (Hd & HS & Eq).
  destruct (float_sub_error _ _ Hd) as (Hx & _ & Ed).
  split; [done|]. split; [done|]. split; [done|]. split; [done|].
  set (X := F2R x) in *. set (M := F2R m) in *. set (S := F2R s) in *.
  set (d := F2R (x - m)) in *. set (q := F2R ((x - m) / s)) in *.
  set (p := F2R ((x - m) / s * s)) in *.
  set (r := F2R ((x - m) / s * s + m)) in *.
  assert (Rabs (q * S - d) <= / 2 ^ 53 * Rabs d + / 2 ^ 1075 * Rabs S) as Eq'.
  { replace (q * S - d) with (S * (q - d / S)) by (field; done).
    rewrite Rabs_mult.
    assert (Rabs d = Rabs S * Rabs (d / S)) as ->.
    { rewrite <- Rabs_mult. f_equal. field. done. }
    pose proof (Rabs_pos S). nra. }
  pose proof (Rabs_near _ _ _ Ed) as Hd'.
  pose proof (Rabs_near _ _ _ Eq') as Hq'.
  pose proof (Rabs_near _ _ _ Ep) as Hp'.
  pose proof (Rabs_triang p M) as HpM.
  pose proof (Rabs_triang X (- M)) as HXM. rewrite Rabs_Ropp in HXM.
  replace (X + - M) with (X - M) in HXM by ring.
  replace (r - X) with ((r - (p + M)) + (p - q * S) + (q * S - d) + (d - (X - M)))
    by ring.
  pose proof (Rabs_sum4 (r - (p + M)) (p - q * S) (q * S - d) (d - (X - M))) as Hsum.
  pose proof (Rabs_pos X). pose proof (Rabs_pos M). pose proof (Rabs_pos S).
  pose proof (Rabs_pos d). pose proof (Rabs_pos (q * S)). pose proof (Rabs_pos p).
  pose proof (Rabs_pos (X - M)). pose proof (Rabs_pos (p + M)).
  lra.
Qed.

End RoundTrip.

(** ** FoldGenerator *)

Section FoldGeneratorFacts.
Import FoldGenerator.
Context {A X Y : Type}.
Variable sequentialize :
  list (list (list A)) -> Z -> Z -> option (list Z) -> result (X * Y).

Abbreviation t := (@FoldGenerator.t A).
Abbreviation fold_at := (FoldGenerator.fold_at sequentialize).
Abbreviation spec_fold := (FoldGenerator.spec_fold sequentialize).
Abbreviation next := (FoldGenerator.next sequentialize).
Abbreviation observe := (FoldGenerator.observe sequentialize).
Abbreviation drain := (FoldGenerator.drain sequentialize).
Abbreviation drain_rest := (FoldGenerator.drain_rest sequentialize).

Lemma lengths_spec_lengths (self : t) :
  (0 <=? test_fraction self)%float = true -> lengths self = spec_lengths self.
Proof.
  intros Htf. unfold lengths, spec_lengths.
  destruct (data_length self) as [L|e]; simpl; [|done].
  by rewrite py_int_floor by by apply mul_not_negative.
Qed.

Lemma test_length_nonneg (self : t) T tr :
  (0 <=? test_fraction self)%float = true -> lengths self = Ok (T, tr) -> 0 <= T.
Proof.
  intros Htf. rewrite lengths_spec_lengths by done. unfold spec_lengths.
  destruct (data_length self) as [L|e]; simpl; [|done].
  destruct (py_floor _) as [n|e] eqn:Hfloor; simpl; [|done].
  intros [= <- _]. eapply py_floor_nonneg; [|done]. by apply mul_not_negative.
Qed.

Lemma slice_series_spec (self : t) T tr i time_series :
  0 <= T -> 0 <= i ->
  slice_series self T tr i time_series = spec_slices self T tr i time_series.
Proof.
  intros HT Hi. unfold slice_series, spec_slices, train_ind, test_ind, spec_window.
  rewrite !fancy_index_arange by nia. reflexivity.
Qed.

Lemma fancy_index_raise {B} (a : list B) (ind : list Z) (e : exn) :
  fancy_index a ind = Raise e -> e = IndexError.
Proof.
  intros (idx & _ & Hidx)%mapM_raise. unfold getitem in Hidx.
  case_decide; [|congruence]. destruct (a !! _); congruence.
Qed.

Lemma slice_series_raise (self : t) T tr i ts e :
  slice_series self T tr i ts = Raise e -> e = IndexError.
Proof.
  unfold slice_series.
  destruct (fancy_index ts (train_ind T tr i)) as [train|e1] eqn:Htrain; simpl.
  - destruct (fancy_index ts (test_ind self T i)) as [test|e2] eqn:Htest; simpl;
      [done|].
    intros [= <-]. by eapply fancy_index_raise.
  - intros [= <-]. by eapply fancy_index_raise.
Qed.

(** The slices of a fold have as many rows as the index arrays have
    entries, whatever the series. *)
Lemma slice_series_lengths (self : t) T tr i ts train test :
  slice_series self T tr i ts = Ok (train, test) ->
  length train = length (train_ind T tr i)
  /\ length test = length (test_ind self T i).
Proof.
  unfold slice_series.
  destruct (fancy_index ts (train_ind T tr i)) as [train'|e1] eqn:Htrain; simpl;
    [|done].
  destruct (fancy_index ts (test_ind self T i)) as [test'|e2] eqn:Htest; simpl;
    [|done].
  intros [= <- <-]. split; by eapply mapM_length.
Qed.

Lemma same_variables_dec (self : t) : same_variables self \/ ~ same_variables self.
Proof.
  unfold same_variables. destruct (data self) as [|ts0 rest]; [left|].
  { intros ts ts' Hts. by apply elem_of_nil in Hts. }
  destruct (decide (Forall (fun other => variables other = variables ts0) rest))
    as [Hall|Hnot]; [left|right].
  - rewrite Forall_forall in Hall.
    assert (forall ts, ts ∈ ts0 :: rest -> variables ts = variables ts0) as Hts0.
    { intros ts [->|Hts]%elem_of_cons; [done|by apply Hall]. }
    intros ts ts' Hts Hts'. by rewrite (Hts0 ts), (Hts0 ts').
  - intros Hsame. apply Hnot, Forall_forall. intros ts Hts.
    apply Hsame; [by right|left].
Qed.

(** [np.array] on slices with equally many rows: it returns when the
    series have the same number of variables, and raises otherwise. *)
Lemma np_array_same_rows (self : t) (slices : list (list (list A))) (n : nat) :
  length slices = length (data self) ->
  Forall (fun s => length s = n) slices ->
  (same_variables self -> np_array (shapes_of self slices) slices = Ok slices)
  /\ (~ same_variables self ->
      np_array (shapes_of self slices) slices = Raise inhomogeneous).
Proof.
  unfold same_variables, shapes_of, np_array.
  destruct (data self) as [|ts0 rest]; destruct slices as [|s0 srest];
    simpl; intros Hlen Hrows; try done.
  { split; [done|]. intros Hnot. destruct Hnot.
    intros ts ts' Hts. by apply elem_of_nil in Hts. }
  apply Forall_cons in Hrows as [Hs0 Hrows]. rewrite Forall_forall in Hrows.
  assert (Forall (fun other => other = (length s0, variables ts0))
            (zip (length <$> srest) (variables <$> rest))
          <-> forall ts, ts ∈ rest -> variables ts = variables ts0) as Hiff.
  { rewrite Forall_lookup. split.
    - intros Hall ts [j Hj]%list_elem_of_lookup.
      destruct (lookup_lt_is_Some_2 srest j) as [sj Hsj];
        [apply lookup_lt_Some in Hj; lia|].
      specialize (Hall j (length sj, variables ts)).
      assert (zip (length <$> srest) (variables <$> rest) !! j
              = Some (length sj, variables ts)) as Hzip.
      { apply lookup_zip_with_Some. exists (length sj), (variables ts).
        by rewrite !list_lookup_fmap, Hsj, Hj. }
      by injection (Hall Hzip).
    - intros Hall j [r w] Hzip.
      apply lookup_zip_with_Some in Hzip as (r' & w' & [= -> ->] & Hr & Hw).
      rewrite list_lookup_fmap in Hr. rewrite list_lookup_fmap in Hw.
      destruct (srest !! j) as [sj|] eqn:Hsj; [|done]. injection Hr as <-.
      destruct (rest !! j) as [tsj|] eqn:Htsj; [|done]. injection Hw as <-.
      rewrite (Hrows sj) by by eapply list_elem_of_lookup_2.
      rewrite (Hall tsj) by by eapply list_elem_of_lookup_2.
      by rewrite Hs0. }
  split.
  - intros Hsame. rewrite decide_True; [done|]. apply Hiff. intros ts Hts.
    apply Hsame; [by right|left].
  - intros Hnot. rewrite decide_False; [done|]. intros Hall. apply Hnot.
    assert (forall ts, ts ∈ ts0 :: rest -> variables ts = variables ts0) as Hts0.
    { intros ts [->|Hts]%elem_of_cons; [done|]. by apply Hiff. }
    intros ts ts' Hts Hts'. by rewrite (Hts0 ts), (Hts0 ts').
Qed.

(** Lines 157-158 after slices that were all taken: the stack, when the
    series have the same number of variables, and [ValueError]
    otherwise. *)
Lemma stack_slices_taken (self : t) T tr i slices :
  mapM (fun ts => slice_series self T tr i (steps ts)) (data self) = Ok slices ->
  (same_variables self ->
   stack_slices self T tr i = Ok (fst <$> slices, snd <$> slices))
  /\ (~ same_variables self -> stack_slices self T tr i = Raise inhomogeneous).
Proof.
  intros Hm. pose proof (mapM_length _ _ _ Hm) as Hlen.
  assert (Forall (fun p => length (fst p) = length (train_ind T tr i)
                           /\ length (snd p) = length (test_ind self T i)) slices)
    as Hrows.
  { apply mapM_Forall2_ok in Hm. apply Forall_lookup_2. intros j [train test] Hj.
    destruct (Forall2_lookup_r _ _ _ _ _ Hm Hj) as (ts & _ & Hts).
    by eapply slice_series_lengths. }
  destruct (np_array_same_rows self (fst <$> slices) (length (train_ind T tr i)))
    as [Htrain_ok Htrain_raise].
  { by rewrite length_fmap. }
  { apply Forall_fmap. eapply Forall_impl; [exact Hrows|]. by intros p [? _]. }
  destruct (np_array_same_rows self (snd <$> slices) (length (test_ind self T i)))
    as [Htest_ok _].
  { by rewrite length_fmap. }
  { apply Forall_fmap. eapply Forall_impl; [exact Hrows|]. by intros p [_ ?]. }
  unfold stack_slices. rewrite Hm. simpl. split; intros Hsame.
  - by rewrite Htrain_ok, bind_ok, Htest_ok.
  - by rewrite Htrain_raise.
Qed.

Lemma stack_slices_raise (self : t) T tr i e :
  stack_slices self T tr i = Raise e -> e = IndexError \/ e = inhomogeneous.
Proof.
  destruct (mapM (fun ts => slice_series self T tr i (steps ts)) (data self))
    as [slices|e'] eqn:Hm.
  - destruct (stack_slices_taken self T tr i slices Hm) as [Hok Hraise].
    destruct (same_variables_dec self) as [Hsame|Hnot].
    + by rewrite Hok.
    + rewrite Hraise by done. intros [= <-]. by right.
  - unfold stack_slices. rewrite Hm. simpl. intros [= <-]. left.
    apply mapM_raise in Hm as (ts & _ & Hts). by eapply slice_series_raise.
Qed.

Lemma fold_at_spec_fold (self : t) T tr i :
  (0 <=? test_fraction self)%float = true -> same_variables self ->
  lengths self = Ok (T, tr) ->
  0 <= i -> fold_at self T tr i = spec_fold self i.
Proof.
  intros Htf Hsame Hlen Hi. unfold FoldGenerator.spec_fold.
  rewrite <- lengths_spec_lengths, Hlen by done. simpl.
  rewrite <- (mapM_result_ext
                (fun ts => slice_series self T tr i (steps ts))
                (fun ts => spec_slices self T tr i (steps ts))).
  2:{ intros ts _. apply slice_series_spec; [|done]. by eapply test_length_nonneg. }
  unfold FoldGenerator.fold_at.
  destruct (mapM (fun ts => slice_series self T tr i (steps ts)) (data self))
    as [slices|e] eqn:Hm.
  - by rewrite (proj1 (stack_slices_taken self T tr i slices Hm) Hsame).
  - unfold stack_slices. by rewrite Hm.
Qed.

(** The signal of the [k]-th resumption is what the loop body computes
    for the [k]-th remaining index, as long as the earlier ones yielded. *)
Lemma observe_at_yield (self : t) T tr rest (k : nat) i :
  rest !! k = Some i ->
  (forall (j : nat) ij, (j < k)%nat -> rest !! j = Some ij ->
     is_ok (fold_at self T tr ij) = true) ->
  observe (S k) {| gen_self := self; gen_frame := AtYield T tr rest |} !! k
  = Some (signal_of (fold_at self T tr i)).
Proof.
  revert rest. induction k as [|k IH]; intros rest Hk Hprev.
  - destruct rest as [|i0 rest]; [done|]. injection Hk as ->.
    simpl. unfold FoldGenerator.next; simpl.
    by destruct (fold_at self T tr i).
  - destruct rest as [|i0 rest]; [done|]. simpl in Hk.
    destruct (is_ok_true (fold_at self T tr i0)) as [f Hf];
      [by apply (Hprev 0%nat); [lia|]|].
    change (observe (S (S k)) ?g) with
      (let '(s, g') := next g in s :: observe (S k) g').
    unfold FoldGenerator.next at 1; simpl. rewrite Hf.
    change ((?s :: ?l) !! S k) with (l !! k).
    apply IH; [done|].
    intros j ij Hj Hij. apply (Hprev (S j)); [lia|done].
Qed.

Lemma observe_fresh (self : t) T tr (k : nat) :
  lengths self = Ok (T, tr) ->
  observe (S k) (__call__ self)
  = observe (S k)
      {| gen_self := self; gen_frame := AtYield T tr (range (n_folds self)) |}.
Proof.
  intros Hlen. simpl. unfold FoldGenerator.next; simpl. by rewrite Hlen.
Qed.

(** The [for] loop equation: draining a generator is taking [next] until
    it stops. *)
Lemma drain_next (g : generator) :
  drain g
  = match next g with
    | (Yielded f, g') => let '(fs, e) := drain g' in (f :: fs, e)
    | (StopIteration, _) => ([], None)
    | (Raised e, _) => ([], Some e)
    end.
Proof.
  destruct g as [self [|T tr rest|]]; unfold FoldGenerator.drain, FoldGenerator.next;
    simpl; [| |done].
  - destruct (lengths self) as [[T tr]|e]; [|done].
    destruct (range (n_folds self)) as [|i rest]; simpl; [done|].
    by destruct (fold_at self T tr i).
  - destruct rest as [|i rest]; simpl; [done|].
    by destruct (fold_at self T tr i).
Qed.

(** Draining and observing agree: the signals of a generator are its
    folds in order, then the stop or the exception. *)
Lemma observe_drain (g : generator) (folds : list fold) (e : option exn) :
  drain g = (folds, e) ->
  observe (S (length folds)) g
  = (Yielded <$> folds)
    ++ [match e with None => StopIteration | Some e => Raised e end].
Proof.
  revert g. induction folds as [|f folds IH]; intros g; rewrite drain_next.
  - simpl. destruct (next g) as [[f'|  |e'] g']; simpl.
    + by destruct (drain g').
    + by intros [= <-].
    + by intros [= <-].
  - cbn [length].
    change (observe (S (S (length folds))) g)
      with (let '(s, g') := next g in s :: observe (S (length folds)) g').
    destruct (next g) as [[f'|  |e'] g']; [|done|done].
    destruct (drain g') as [fs e0] eqn:Hd. intros [= <- <- <-].
    cbv beta iota zeta. by rewrite (IH g' Hd).
Qed.

Lemma drain_rest_all_ok (self : t) T tr rest :
  (forall i, i ∈ rest -> is_ok (fold_at self T tr i) = true) ->
  exists folds,
    drain_rest self T tr rest = (folds, None) /\ length folds = length rest.
Proof.
  induction rest as [|i rest IH]; intros Hall; simpl.
  - by exists [].
  - destruct (is_ok_true (fold_at self T tr i)) as [f ->]; [apply Hall; left|].
    destruct IH as (folds & -> & Hlen); [intros z Hz; apply Hall; by right|].
    exists (f :: folds). simpl. by rewrite Hlen.
Qed.

(** What a drained loop tells: without an exception every index gave a
    fold; with one, fewer folds than indices were yielded and the loop
    body raised it at some index. *)
Lemma drain_rest_outcome (self : t) T tr rest folds e :
  drain_rest self T tr rest = (folds, e) ->
  match e with
  | None =>
      length folds = length rest
      /\ forall i, i ∈ rest -> is_ok (fold_at self T tr i) = true
  | Some e' =>
      (length folds < length rest)%nat
      /\ exists i, i ∈ rest /\ fold_at self T tr i = Raise e'
  end.
Proof.
  revert folds. induction rest as [|i rest IH]; intros folds; simpl.
  - intros [= <- <-]. split; [done|]. intros i Hi. by apply elem_of_nil in Hi.
  - destruct (fold_at self T tr i) as [f|e'] eqn:Hf.
    + destruct (drain_rest self T tr rest) as [fs e0] eqn:Hd.
      intros [= <- <-]. specialize (IH fs eq_refl). destruct e0 as [e0|].
      * destruct IH as [Hlt (j & Hj & Hraise)]. split; [simpl; lia|].
        exists j. split; [by right|done].
      * destruct IH as [Hlen Hall]. split; [simpl; lia|].
        intros j [->|Hj]%elem_of_cons; [by rewrite Hf|by apply Hall].
    + intros [= <- <-]. split; [simpl; lia|]. exists i. split; [left|done].
Qed.

(** With every series as long as the longest and the lag within the
    training length, no index of fold [i] leaves a series. *)
Lemma slices_in_bounds (self : t) T tr i :
  0 <= T -> 0 < tr -> lag self <= tr -> 0 <= i < n_folds self ->
  (forall ts, ts ∈ data self ->
     Z.of_nat (length (steps ts)) = tr + n_folds self * T) ->
  is_ok (mapM (fun ts => slice_series self T tr i (steps ts)) (data self)) = true.
Proof.
  intros HT Htr Hlag Hi Hlen.
  destruct (mapM_ok_all (fun ts => slice_series self T tr i (steps ts)) (data self))
    as (slices & -> & _); [|done].
  intros ts Hts. rewrite slice_series_spec by lia.
  unfold spec_slices, spec_window. specialize (Hlen ts Hts).
  rewrite !decide_False by nia. reflexivity.
Qed.

Lemma stack_slices_in_bounds (self : t) T tr i :
  0 <= T -> 0 < tr -> lag self <= tr -> 0 <= i < n_folds self ->
  (forall ts, ts ∈ data self ->
     Z.of_nat (length (steps ts)) = tr + n_folds self * T) ->
  same_variables self ->
  is_ok (stack_slices self T tr i) = true.
Proof.
  intros HT Htr Hlag Hi Hlen Hsame.
  destruct (is_ok_true _ (slices_in_bounds self T tr i HT Htr Hlag Hi Hlen))
    as [slices Hm].
  by rewrite (proj1 (stack_slices_taken self T tr i slices Hm) Hsame).
Qed.

Lemma fold_at_in_bounds (self : t) T tr i :
  0 <= T -> 0 < tr -> lag self <= tr -> 0 <= i < n_folds self ->
  (forall ts, ts ∈ data self ->
     Z.of_nat (length (steps ts)) = tr + n_folds self * T) ->
  same_variables self ->
  (forall data_train data_test,
     stack_slices self T tr i = Ok (data_train, data_test) ->
     is_ok (sequentialize data_train (lag self) (horizon self) (targets self)) = true
     /\ is_ok (sequentialize data_test (lag self) (horizon self) (targets self)) = true) ->
  is_ok (fold_at self T tr i) = true.
Proof.
  intros HT Htr Hlag Hi Hlen Hsame Hseq. unfold FoldGenerator.fold_at.
  destruct (is_ok_true _ (stack_slices_in_bounds self T tr i HT Htr Hlag Hi Hlen Hsame))
    as [[data_train data_test] Hstack].
  rewrite Hstack. simpl. destruct (Hseq _ _ Hstack) as [Htrain Htest].
  destruct (is_ok_true _ Htrain) as [[X_train y_train] ->].
  destruct (is_ok_true _ Htest) as [[X_test y_test] ->].
  reflexivity.
Qed.

(** Conversely: when the last fold is computed, every series is as long
    as the longest, the lag is within the training length and the series
    have the same number of variables. *)
Lemma last_fold_needs (self : t) T tr :
  lengths self = Ok (T, tr) ->
  0 < n_folds self -> 0 <= T -> 0 < tr -> 0 <= lag self ->
  is_ok (stack_slices self T tr (n_folds self - 1)) = true ->
  (forall ts, ts ∈ data self ->
     Z.of_nat (length (steps ts)) = tr + n_folds self * T)
  /\ lag self <= tr
  /\ same_variables self.
Proof.
  intros Hlen Hn HT Htr Hlag Hok.
  unfold lengths in Hlen.
  destruct (data_length self) as [L|e] eqn:HL; simpl in Hlen; [|done].
  destruct (py_int _) as [T'|e]; simpl in Hlen; [|done].
  injection Hlen as -> <-.
  apply py_max_spec in HL as [Hin Hmax].
  apply list_elem_of_fmap in Hin as (ts0 & HL0 & Hts0).
  destruct (mapM (fun ts => slice_series self T (L - n_folds self * T)
                              (n_folds self - 1) (steps ts)) (data self))
    as [slices|e] eqn:Hm.
  2:{ unfold stack_slices in Hok. by rewrite Hm in Hok. }
  assert (forall ts, ts ∈ data self ->
            is_ok (spec_slices self T (L - n_folds self * T)
                     (n_folds self - 1) (steps ts)) = true) as Hall.
  { intros ts [j Hj]%list_elem_of_lookup. apply mapM_Forall2_ok in Hm.
    destruct (Forall2_lookup_l _ _ _ _ _ Hm Hj) as (p & _ & Hp).
    rewrite <- slice_series_spec by lia. by rewrite Hp. }
  assert (forall ts, ts ∈ data self ->
            L <= Z.of_nat (length (steps ts))
            /\ (0 < T + lag self -> lag self <= L - n_folds self * T)) as Hbounds.
  { intros ts Hts. specialize (Hall ts Hts).
    unfold spec_slices in Hall.
    set (train := spec_window (steps ts)
                    (- (n_folds self - 1 + 1) * T - (L - n_folds self * T))
                    (- (n_folds self - 1 + 1) * T)) in Hall.
    set (test := spec_window (steps ts) _ _) in Hall.
    assert (is_ok train = true /\ is_ok test = true) as [Htrain Htest]
      by (by destruct train, test).
    unfold train, test, spec_window in Htrain, Htest. clear Hall train test.
    destruct (decide _) as [?|Htrain'] in Htrain; [done|].
    destruct (decide _) as [?|Htest'] in Htest; [done|].
    assert (Z.of_nat (length (steps ts)) <= L) as Hle.
    { apply Hmax, list_elem_of_fmap. by exists ts. }
    split; [nia|]. intros Hpos. nia. }
  split; [|split].
  - intros ts Hts. destruct (Hbounds ts Hts) as [Hge _].
    assert (Z.of_nat (length (steps ts)) <= L) as Hle.
    { apply Hmax, list_elem_of_fmap. by exists ts. }
    lia.
  - destruct (Hbounds ts0 Hts0) as [_ Hlag']. lia.
  - destruct (same_variables_dec self) as [Hsame|Hnot]; [done|].
    by rewrite (proj2 (stack_slices_taken self T _ _ slices Hm) Hnot) in Hok.
Qed.

Lemma test_ind_block (self : t) T i :
  0 <= T -> 0 <= lag self ->
  test_ind self T i
  = arange (- (i + 1) * T - lag self) (- (i + 1) * T) ++ test_block T i.
Proof.
  intros HT Hlag. unfold test_ind, test_block. apply arange_app. nia.
Qed.

Lemma test_blocks_disjoint T i j idx :
  0 <= i -> 0 <= j -> i <> j -> idx ∈ test_block T i -> idx ∉ test_block T j.
Proof.
  unfold test_block. rewrite !elem_of_arange. intros Hi Hj Hij Hin Hin'. nia.
Qed.

(** C1, as amended. Take [0 <= n_folds], [0 <= test_length],
    [0 < train_length], [0 <= lag] and a windowing transform that accepts
    each fold's stacked slices. One invocation of the generation entry
    point yields exactly [n_folds] folds and then stops without an
    exception if and only if [n_folds = 0] or: every series has the
    maximal length, [lag <= train_length], and the series have the same
    number of variables. In every other case it yields fewer than
    [n_folds] folds and ends with [IndexError] (an index array leaves a
    series) or with the [ValueError] of [np.array] (series of different
    widths). Each fold's test window ends with its block
    [-(i+1)*test_length, -i*test_length), and the blocks of two distinct
    folds share no index. *)
Theorem generate_folds_count_and_disjoint (self : t) (T tr : Z) :
  lengths self = Ok (T, tr) ->
  0 <= n_folds self -> 0 <= T -> 0 < tr -> 0 <= lag self ->
  (forall i data_train data_test,
     0 <= i < n_folds self ->
     stack_slices self T tr i = Ok (data_train, data_test) ->
     is_ok (sequentialize data_train (lag self) (horizon self) (targets self)) = true
     /\ is_ok (sequentialize data_test (lag self) (horizon self) (targets self)) = true) ->
  ((exists folds,
      drain (__call__ self) = (folds, None)
      /\ Z.of_nat (length folds) = n_folds self)
   <-> n_folds self = 0
       \/ ((forall ts, ts ∈ data self ->
              Z.of_nat (length (steps ts)) = tr + n_folds self * T)
           /\ lag self <= tr
           /\ same_variables self))
  /\ (forall folds e,
        drain (__call__ self) = (folds, Some e) ->
        Z.of_nat (length folds) < n_folds self
        /\ (e = IndexError \/ e = inhomogeneous))
  /\ (forall i, 0 <= i < n_folds self ->
        test_ind self T i
        = arange (- (i + 1) * T - lag self) (- (i + 1) * T) ++ test_block T i)
  /\ (forall i j idx,
        0 <= i < n_folds self -> 0 <= j < n_folds self -> i <> j ->
        idx ∈ test_block T i -> idx ∉ test_block T j).
Proof.
  intros Hlen Hn HT Htr Hlag Hseq.
  assert (drain (__call__ self) = drain_rest self T tr (range (n_folds self)))
    as Hdrain.
  { unfold FoldGenerator.drain. simpl. by rewrite Hlen. }
  split; [|split; [|split]].
  - split.
    + intros (folds & Hd & Hcount).
      destruct (decide (n_folds self = 0)) as [Hzero|Hpos]; [by left|right].
      rewrite Hdrain in Hd. apply drain_rest_outcome in Hd as [_ Hall].
      apply (last_fold_needs self T tr); try done; [lia|].
      specialize (Hall (n_folds self - 1)).
      rewrite elem_of_range in Hall. specialize (Hall ltac:(lia)).
      unfold FoldGenerator.fold_at in Hall.
      by destruct (stack_slices self T tr (n_folds self - 1)).
    + intros Hcase.
      destruct (drain_rest_all_ok self T tr (range (n_folds self)))
        as (folds & Hd & Hl).
      { intros i Hi%elem_of_range. destruct Hcase as [Hzero|(Hall & Hle & Hsame)];
          [lia|].
        apply fold_at_in_bounds; try done. intros. by eapply Hseq. }
      exists folds. split; [by rewrite Hdrain|].
      rewrite Hl, range_length. lia.
  - intros folds e Hd. rewrite Hdrain in Hd.
    apply drain_rest_outcome in Hd as [Hlt (i & Hi%elem_of_range & Hraise)].
    rewrite range_length in Hlt. split; [lia|].
    unfold FoldGenerator.fold_at in Hraise.
    destruct (stack_slices self T tr i) as [[data_train data_test]|e'] eqn:Hstack.
    + destruct (Hseq i data_train data_test Hi Hstack) as [Htrain Htest].
      simpl in Hraise.
      destruct (is_ok_true _ Htrain) as [[X_train y_train] Heq1].
      destruct (is_ok_true _ Htest) as [[X_test y_test] Heq2].
      by rewrite Heq1, Heq2 in Hraise.
    + simpl in Hraise. injection Hraise as <-. by eapply stack_slices_raise.
  - intros i Hi. apply test_ind_block; lia.
  - intros i j idx Hi Hj Hij. apply test_blocks_disjoint; lia.
Qed.

(** C2, as amended. When [test_fraction] is not below zero and the
    series have the same number of variables: the length [L] that the
    generator computes is the maximum series length; and for every fold
    index [k] in [0, n_folds) whose predecessors were yielded, the signal
    of the [k]-th [next] is the fold the specification describes, with
    [test_length = floor(L * test_fraction)],
    [train_length = L - n_folds * test_length], the train window
    [-(k+1)*test_length - train_length, -(k+1)*test_length) and the test
    window [-(k+1)*test_length - lag, -k*test_length) of every series:
    the fold itself, or [IndexError] when a window leaves a series. *)
Theorem generate_folds_windows (self : t) (k : nat) :
  (0 <=? test_fraction self)%float = true ->
  same_variables self ->
  Z.of_nat k < n_folds self ->
  (forall j : nat, (j < k)%nat -> is_ok (spec_fold self (Z.of_nat j)) = true) ->
  (forall L, data_length self = Ok L ->
     (exists ts, ts ∈ data self /\ Z.of_nat (length (steps ts)) = L)
     /\ (forall ts, ts ∈ data self -> Z.of_nat (length (steps ts)) <= L))
  /\ observe (S k) (__call__ self) !! k
     = Some (signal_of (spec_fold self (Z.of_nat k))).
Proof.
  intros Htf Hsame Hk Hprev. split.
  - intros L [Hin Hmax]%py_max_spec. split.
    + apply list_elem_of_fmap in Hin as (ts & -> & Hts). by exists ts.
    + intros ts Hts. apply Hmax, list_elem_of_fmap. by exists ts.
  - destruct (lengths self) as [[T tr]|e] eqn:Hlen.
    + rewrite (observe_fresh self T tr) by done.
      rewrite (observe_at_yield self T tr _ k (Z.of_nat k)).
      * by rewrite (fold_at_spec_fold self T tr) by (done || lia).
      * apply range_lookup. lia.
      * intros j ij Hj Hij. rewrite range_lookup in Hij by lia.
        injection Hij as <-.
        rewrite (fold_at_spec_fold self T tr) by (done || lia). by apply Hprev.
    + assert (spec_fold self 0 = Raise e) as H0.
      { unfold FoldGenerator.spec_fold.
        by rewrite <- lengths_spec_lengths, Hlen by done. }
      destruct k as [|k].
      * change (Z.of_nat 0) with 0. rewrite H0. simpl.
        unfold FoldGenerator.next; simpl. by rewrite Hlen.
      * specialize (Hprev 0%nat ltac:(lia)). change (Z.of_nat 0) with 0 in Hprev.
        by rewrite H0 in Hprev.
Qed.

End FoldGeneratorFacts.

Lemma scenario_same_variables : FoldGenerator.same_variables scenario.
Proof.
  intros ts ts' Hts Hts'. simpl in Hts, Hts'.
  repeat (apply elem_of_cons in Hts as [->|Hts]);
    repeat (apply elem_of_cons in Hts' as [->|Hts']);
    try done; by apply elem_of_nil in Hts || by apply elem_of_nil in Hts'.
Qed.

(** The hypotheses of C1 hold on [scenario]: three series of 100 rows
    and one column, two folds of 10 test rows each. *)
Lemma generate_folds_count_and_disjoint_witness :
  exists folds,
    FoldGenerator.drain utils.sequentialize (FoldGenerator.__call__ scenario)
    = (folds, None)
    /\ Z.of_nat (length folds) = 2.
Proof.
  refine (proj2 (proj1 (generate_folds_count_and_disjoint
                          utils.sequentialize scenario 10 80 _ _ _ _ _ _)) _).
  - vm_compute. reflexivity.
  - vm_compute. discriminate.
  - lia.
  - lia.
  - simpl. lia.
  - intros i data_train data_test Hi Hstack.
    assert (i = 0 \/ i = 1) as [-> | ->] by (simpl in Hi; lia);
      vm_compute in Hstack; injection Hstack as <- <-; vm_compute; done.
  - right. split; [|split].
    + intros ts Hts. simpl in Hts.
      repeat (apply elem_of_cons in Hts as [->|Hts]; [vm_compute; reflexivity|]).
      by apply elem_of_nil in Hts.
    + simpl. lia.
    + exact scenario_same_variables.
Defined.

(** The hypotheses of C2 hold on [scenario] at its second fold. *)
Lemma generate_folds_windows_witness :
  FoldGenerator.observe utils.sequentialize 2 (FoldGenerator.__call__ scenario)
    !! 1%nat
  = Some (FoldGenerator.signal_of
            (FoldGenerator.spec_fold utils.sequentialize scenario 1)).
Proof.
  refine (proj2 (generate_folds_windows utils.sequentialize scenario 1 _ _ _ _)).
  - vm_compute. reflexivity.
  - exact scenario_same_variables.
  - simpl. lia.
  - intros j Hj. assert (j = 0%nat) as -> by lia. vm_compute. reflexivity.
Defined.

(** C1 as stated fails: on a collection whose second series is shorter
    than the first, with [train_length = 8 > 0] and [n_folds = 2], the
    first [next] raises [IndexError] and no fold is yielded. *)
Lemma generate_folds_ragged_counterexample :
  FoldGenerator.lengths ragged = Ok (1, 8)
  /\ FoldGenerator.n_folds ragged = 2
  /\ FoldGenerator.drain utils.sequentialize (FoldGenerator.__call__ ragged)
     = ([], Some IndexError).
Proof. vm_compute. done. Qed.

(** Two series of ten rows each, one with one column and one with two:
    the slices are taken, [np.array] refuses to stack them, and no fold
    is yielded. *)
Example mixed_widths_folds :
  FoldGenerator.lengths mixed_widths = Ok (1, 8)
  /\ FoldGenerator.drain utils.sequentialize (FoldGenerator.__call__ mixed_widths)
     = ([], Some FoldGenerator.inhomogeneous).
Proof. vm_compute. done. Qed.

(** C2 as stated fails in two ways. With a negative test fraction
    [int] truncates towards zero where the claim has [floor]: for one
    series of 10 rows and [test_fraction = -0.15] the generator computes
    [test_length = -1] and [train_length = 11], the claim [-2] and [12].
    And with series of different widths the windows are sliced as the
    claim says, but the fold is never built: the first [next] raises the
    [ValueError] of [np.array]. *)
Lemma generate_folds_windows_counterexample :
  FoldGenerator.lengths negative_fraction = Ok (-1, 11)
  /\ FoldGenerator.spec_lengths negative_fraction = Ok (-2, 12)
  /\ FoldGenerator.observe utils.sequentialize 1
       (FoldGenerator.__call__ mixed_widths)
     = [FoldGenerator.Raised FoldGenerator.inhomogeneous]
  /\ is_ok (FoldGenerator.spec_fold utils.sequentialize mixed_widths 0) = true.
Proof. vm_compute. done. Qed.

(** *** Restartability *)

Section Restartability.
Import FoldGenerator.
Context {A X Y : Type}.
Variable sequentialize :
  list (list (list A)) -> Z -> Z -> option (list Z) -> result (X * Y).

Abbreviation gen := (@FoldGenerator.generator A).
Abbreviation nxt := (FoldGenerator.next sequentialize).
Abbreviation obs := (FoldGenerator.observe sequentialize).
Abbreviation sigs := (@FoldGenerator.signals_of A X Y).
Abbreviation run := (FoldGenerator.run_session sequentialize).
Abbreviation nth_signal := (FoldGenerator.nth_signal sequentialize).
Abbreviation fold_signals := (FoldGenerator.fold_signals sequentialize).

Lemma next_self (g : gen) : gen_self (snd (nxt g)) = gen_self g.
Proof.
  destruct g as [self [|T tr rest|]]; unfold FoldGenerator.next; simpl; [| |done].
  - destruct (lengths self) as [[T tr]|e]; [|done].
    destruct (range (n_folds self)) as [|i rest]; simpl; [done|].
    by destruct (FoldGenerator.fold_at _ _ _ _ _).
  - destruct rest as [|i rest]; simpl; [done|].
    by destruct (FoldGenerator.fold_at _ _ _ _ _).
Qed.

Lemma observe_S (m : nat) (g : gen) :
  obs (S m) g = fst (nxt g) :: obs m (snd (nxt g)).
Proof. simpl. by destruct (nxt g). Qed.

Lemma observe_length (k : nat) (g : gen) : length (obs k g) = k.
Proof.
  revert g. induction k as [|k IH]; intros g; simpl; [done|].
  destruct (nxt g) as [s g']. simpl. by rewrite IH.
Qed.

Lemma observe_finished (self : FoldGenerator.t) (m : nat) :
  obs m {| gen_self := self; gen_frame := Finished |}
  = replicate m (@StopIteration X Y).
Proof.
  induction m as [|m IH]; [done|]. rewrite observe_S.
  unfold FoldGenerator.next. simpl. by rewrite IH.
Qed.

(** Past the end of a list of signals there is [StopIteration] only. *)
Lemma signals_beyond (l : list (@FoldGenerator.signal X Y)) (d m : nat) :
  (length l <= d)%nat ->
  (fun j => default StopIteration (l !! j)) <$> seq d m
  = replicate m (@StopIteration X Y).
Proof.
  revert d. induction m as [|m IH]; intros d Hd; [done|]. simpl.
  rewrite lookup_ge_None_2 by done. simpl. f_equal. apply IH. lia.
Qed.

Lemma signals_cons (s : @FoldGenerator.signal X Y) (l : list (@FoldGenerator.signal X Y)) (m : nat) :
  (fun j => default StopIteration ((s :: l) !! j)) <$> seq 0 (S m)
  = s :: ((fun j => default StopIteration (l !! j)) <$> seq 0 m).
Proof.
  simpl. f_equal. rewrite <- fmap_S_seq, <- list_fmap_compose.
  by apply list_fmap_ext.
Qed.

(** A generator suspended at the [yield] signals the folds of the
    remaining indices. *)
Lemma observe_at_yield_all (self : FoldGenerator.t) T tr rest (m : nat) :
  obs m {| gen_self := self; gen_frame := AtYield T tr rest |}
  = (fun j => default StopIteration (fold_signals self T tr rest !! j)) <$> seq 0 m.
Proof.
  revert rest. induction m as [|m IH]; intros rest; [done|].
  rewrite observe_S. unfold FoldGenerator.next.
  cbn [gen_frame gen_self FoldGenerator.resume].
  destruct rest as [|i rest].
  - rewrite (signals_beyond (fold_signals self T tr []) 0 (S m)) by (simpl; lia).
    cbn [FoldGenerator.resume fst snd]. by rewrite observe_finished.
  - cbn [FoldGenerator.fold_signals FoldGenerator.resume].
    destruct (FoldGenerator.fold_at sequentialize self T tr i) as [f|e].
    + rewrite signals_cons. cbn [fst snd]. by rewrite IH.
    + rewrite signals_cons. cbn [fst snd]. rewrite observe_finished.
      by rewrite (signals_beyond [] 0 m) by (simpl; lia).
Qed.

(** A new generator signals the sequence of its object from the start. *)
Lemma observe_call (self : FoldGenerator.t) (m : nat) :
  obs m (__call__ self) = nth_signal self <$> seq 0 m.
Proof.
  destruct m as [|m]; [done|].
  unfold FoldGenerator.nth_signal, FoldGenerator.signals.
  destruct (lengths self) as [[T tr]|e] eqn:Hlen.
  - rewrite (observe_fresh sequentialize self T tr) by done.
    apply observe_at_yield_all.
  - rewrite observe_S. unfold FoldGenerator.next.
    cbn [__call__ generate_folds gen_frame gen_self]. rewrite Hlen.
    rewrite signals_cons. cbn [fst snd]. rewrite observe_finished.
    by rewrite (signals_beyond [] 0 m) by (simpl; lia).
Qed.

(** One [next] on a generator that is [d] signals into the sequence:
    it signals entry [d], leaves the object as it was, and is then
    [d + 1] signals into the sequence. *)
Lemma next_follows (self : FoldGenerator.t) (fr : frame) (d : nat) :
  (forall m, obs m {| gen_self := self; gen_frame := fr |}
             = nth_signal self <$> seq d m) ->
  fst (nxt {| gen_self := self; gen_frame := fr |}) = nth_signal self d
  /\ gen_self (snd (nxt {| gen_self := self; gen_frame := fr |})) = self
  /\ forall m,
       obs m {| gen_self := self;
                gen_frame := gen_frame (snd (nxt {| gen_self := self;
                                                    gen_frame := fr |})) |}
       = nth_signal self <$> seq (S d) m.
Proof.
  intros Hobs. pose proof (next_self {| gen_self := self; gen_frame := fr |}) as Hself.
  simpl in Hself. split; [|split; [done|]].
  - specialize (Hobs 1%nat). rewrite observe_S in Hobs. by injection Hobs.
  - intros m. specialize (Hobs (S m)). rewrite observe_S in Hobs.
    destruct (snd (nxt {| gen_self := self; gen_frame := fr |})) as [self' fr'].
    simpl in *. subst self'. by injection Hobs.
Qed.

(** While the loop body succeeds, entry [j] of the sequence is the fold
    of the [j]-th index. *)
Lemma fold_signals_lookup (self : FoldGenerator.t) T tr rest (j : nat) i :
  rest !! j = Some i ->
  (forall (j' : nat) i', (j' < j)%nat -> rest !! j' = Some i' ->
     is_ok (FoldGenerator.fold_at sequentialize self T tr i') = true) ->
  fold_signals self T tr rest !! j
  = Some (signal_of (FoldGenerator.fold_at sequentialize self T tr i)).
Proof.
  revert rest. induction j as [|j IH]; intros rest Hj Hprev.
  - destruct rest as [|i0 rest]; [done|]. injection Hj as ->. simpl.
    by destruct (FoldGenerator.fold_at sequentialize self T tr i).
  - destruct rest as [|i0 rest]; [done|]. simpl in Hj.
    destruct (is_ok_true (FoldGenerator.fold_at sequentialize self T tr i0))
      as [f Hf]; [by apply (Hprev 0%nat); [lia|]|].
    simpl. rewrite Hf. simpl. apply IH; [done|].
    intros j' i' Hj' Hi'. apply (Hprev (S j')); [lia|done].
Qed.

(** What every session maintains. *)
Lemma session_facts (self : FoldGenerator.t) (ops : list op) :
  object (run self ops) = self
  /\ (forall (k : nat) fr,
        frames (run self ops) !! k = Some fr ->
        sigs k (run self ops)
        = nth_signal self <$> seq 0 (length (sigs k (run self ops)))
        /\ forall m,
             obs m {| gen_self := self; gen_frame := fr |}
             = nth_signal self <$> seq (length (sigs k (run self ops))) m)
  /\ (forall k : nat,
        (length (frames (run self ops)) <= k)%nat -> sigs k (run self ops) = []).
Proof.
  induction ops as [|o ops IH] using rev_ind.
  - split; [done|]. split; [|done]. intros k fr Hk. done.
  - unfold FoldGenerator.run_session. rewrite foldl_snoc.
    fold (run self ops). destruct IH as (Hobj & Hgens & Hout).
    destruct o as [|k0]; simpl.
    + rewrite Hobj. split; [done|]. split.
      * intros k fr Hk.
        change (sigs k {| object := self;
                          frames := frames (run self ops) ++ [NotStarted];
                          log := log (run self ops) |})
          with (sigs k (run self ops)).
        apply lookup_app_Some in Hk as [Hk|[Hge Hk]]; [by apply Hgens|].
        apply list_lookup_singleton_Some in Hk as [_ <-].
        rewrite (Hout k) by done. split; [done|]. intros m. apply observe_call.
      * intros k Hk. rewrite length_app in Hk. simpl in Hk.
        change (sigs k {| object := self;
                          frames := frames (run self ops) ++ [NotStarted];
                          log := log (run self ops) |})
          with (sigs k (run self ops)).
        apply Hout. lia.
    + destruct (frames (run self ops) !! k0) as [fr0|] eqn:Hk0; [|done].
      rewrite Hobj.
      destruct (Hgens k0 fr0 Hk0) as [Hs0 Hobs0].
      destruct (next_follows self fr0 _ Hobs0) as (Hsig & Hself & Hnext).
      destruct (nxt {| gen_self := self; gen_frame := fr0 |}) as [sig g'] eqn:Hn.
      simpl in Hsig, Hself, Hnext. simpl. split; [done|].
      assert (forall k : nat,
                sigs k {| object := gen_self g';
                          frames := <[k0 := gen_frame g']> (frames (run self ops));
                          log := log (run self ops) ++ [(k0, sig)] |}
                = sigs k (run self ops) ++ (if decide (k0 = k) then [sig] else []))
        as Hsigs.
      { intros k. unfold FoldGenerator.signals_of. simpl.
        rewrite filter_app, fmap_app. f_equal. case_decide.
        - by rewrite filter_cons_True, filter_nil by done.
        - by rewrite filter_cons_False, filter_nil by (simpl; congruence). }
      split.
      * intros k fr Hk. rewrite Hsigs. case_decide as Hkk.
        -- subst k. rewrite list_lookup_insert_eq in Hk by by eapply lookup_lt_Some.
           injection Hk as <-. rewrite length_app. simpl. rewrite Nat.add_1_r.
           split; [|exact Hnext].
           rewrite seq_S, fmap_app. simpl. by rewrite <- Hs0, Hsig.
        -- rewrite list_lookup_insert_ne in Hk by done. rewrite app_nil_r.
           by apply Hgens.
      * intros k Hk. rewrite length_insert in Hk. rewrite Hsigs.
        rewrite decide_False; [rewrite app_nil_r; by apply Hout|].
        apply lookup_lt_Some in Hk0. lia.
Qed.

(** C3. Take any interleaving of invocations of the generation entry
    point and of [next] calls on the generators it returned, all on one
    [FoldGenerator] object. The object is left as it was. Every
    generator has signalled, so far, the first entries of one and the
    same sequence, and will go on with the following entries of that
    sequence, whatever was done to the other generators meanwhile; a
    further invocation signals the whole sequence from its start. So any
    two invocations produce identical sequences. The sequence is that of
    the loop: as long as the preceding folds were built, entry [j] is
    the fold of index [j], or the exception its computation raised; and
    the exception of the length computation alone when that fails. *)
Theorem generate_folds_restartable (self : FoldGenerator.t) (ops : list op) :
  object (run self ops) = self
  /\ (forall (k : nat) fr,
        frames (run self ops) !! k = Some fr ->
        sigs k (run self ops)
        = nth_signal self <$> seq 0 (length (sigs k (run self ops)))
        /\ forall m,
             obs m {| gen_self := object (run self ops); gen_frame := fr |}
             = nth_signal self <$> seq (length (sigs k (run self ops))) m)
  /\ (forall m,
        obs m (__call__ (object (run self ops))) = nth_signal self <$> seq 0 m)
  /\ (forall T tr (j : nat),
        lengths self = Ok (T, tr) ->
        Z.of_nat j < n_folds self ->
        (forall i : nat,
           (i < j)%nat ->
           is_ok (FoldGenerator.fold_at sequentialize self T tr (Z.of_nat i)) = true) ->
        nth_signal self j
        = signal_of (FoldGenerator.fold_at sequentialize self T tr (Z.of_nat j)))
  /\ (forall e, lengths self = Raise e -> nth_signal self 0 = Raised e).
Proof.
  destruct (session_facts self ops) as (Hobj & Hgens & _).
  rewrite Hobj. split; [done|]. split; [exact Hgens|]. split; [|split].
  - intros m. apply observe_call.
  - intros T tr j Hlen Hj Hprev.
    unfold FoldGenerator.nth_signal, FoldGenerator.signals. rewrite Hlen.
    rewrite (fold_signals_lookup self T tr _ j (Z.of_nat j)); [done| |].
    + apply range_lookup. lia.
    + intros j' i' Hj' Hi'. rewrite range_lookup in Hi' by lia.
      injection Hi' as <-. by apply Hprev.
  - intros e Hlen. unfold FoldGenerator.nth_signal, FoldGenerator.signals.
    by rewrite Hlen.
Qed.

End Restartability.

(** ** VectorScaler *)

Section VectorScalerFacts.
Import VectorScaler.
Context {T : Type} `{Dtype T}.

Abbreviation matrix := (list (list T)).
Abbreviation array3 := (list (list (list T))).

Lemma mapM_Forall2 {B C} (f : B -> result C) (l : list B) (ys : list C) :
  mapM f l = Ok ys <-> Forall2 (fun x y => f x = Ok y) l ys.
Proof.
  revert ys. induction l as [|x l IH]; intros ys; simpl.
  - split; [intros [= <-]; constructor|by intros ->%Forall2_nil_inv_l].
  - destruct (f x) as [y|e] eqn:Hfx; simpl.
    + destruct (mapM f l) as [k|e] eqn:Hl; simpl.
      * split.
        -- intros [= <-]. constructor; [done|]. by apply IH.
        -- intros (y' & k' & Hy & Hk & ->)%Forall2_cons_inv_l.
           rewrite Hfx in Hy. injection Hy as <-. apply IH in Hk. by injection Hk as <-.
      * split; [done|].
        intros (y' & k' & _ & Hk & ->)%Forall2_cons_inv_l. by apply IH in Hk.
    + split; [done|].
      intros (y' & k' & Hy & _ & ->)%Forall2_cons_inv_l. by rewrite Hfx in Hy.
Qed.

Lemma mapM_zip_with {B C D} (g : B -> C -> result D) (h : B -> C -> D)
    (xs : list B) (ys : list C) :
  Forall2 (fun x y => g x y = Ok (h x y)) xs ys ->
  mapM (fun p => g p.1 p.2) (zip xs ys) = Ok (zip_with h xs ys).
Proof.
  induction 1 as [|x y xs ys Hxy _ IH]; simpl; [done|].
  by rewrite Hxy, bind_ok, IH.
Qed.

Lemma broadcast_same {B C D} (g : B -> C -> result D) (h : B -> C -> D)
    (xs : list B) (ys : list C) :
  Forall2 (fun x y => g x y = Ok (h x y)) xs ys ->
  broadcast g xs ys = Ok (zip_with h xs ys).
Proof.
  intros Hall. unfold broadcast.
  rewrite decide_True by by eapply Forall2_length.
  by apply mapM_zip_with.
Qed.

Lemma ewise1_same (f : T -> T -> T) (xs ys : list T) :
  length xs = length ys -> ewise1 f xs ys = Ok (zip_with f xs ys).
Proof.
  intros Hlen. apply broadcast_same.
  apply Forall2_same_length_lookup_2; [done|]. done.
Qed.

Lemma rect2_lookup (L F : nat) (M : matrix) (l : nat) (row : list T) :
  rect2 L F M -> M !! l = Some row -> length row = F.
Proof.
  intros [_ Hrows] Hl.
  exact (Forall_lookup_1 (fun row => length row = F) M l row Hrows Hl).
Qed.

Lemma ewise2_same (f : T -> T -> T) (L F : nat) (a b : matrix) :
  rect2 L F a -> rect2 L F b -> ewise2 f a b = Ok (zip_with (zip_with f) a b).
Proof.
  intros Ha Hb. apply broadcast_same.
  apply Forall2_same_length_lookup_2; [destruct Ha, Hb; congruence|].
  intros l ra rb Hra Hrb. apply ewise1_same.
  rewrite (rect2_lookup L F a l ra), (rect2_lookup L F b l rb); done.
Qed.

Lemma ewise32_same (f : T -> T -> T) (L F : nat) (X : array3) (M : matrix) :
  Forall (rect2 L F) X -> rect2 L F M ->
  ewise32 f X M = Ok ((fun sample => zip_with (zip_with f) sample M) <$> X).
Proof.
  intros HX HM. unfold ewise32. apply mapM_Forall2.
  apply Forall2_fmap_r, Forall_Forall2_diag.
  eapply Forall_impl; [exact HX|]. intros sample Hs. by eapply ewise2_same.
Qed.

Lemma rect2_zip_with (f : T -> T -> T) (L F : nat) (a b : matrix) :
  rect2 L F a -> rect2 L F b -> rect2 L F (zip_with (zip_with f) a b).
Proof.
  intros [Hla Ha] [Hlb Hb]. split.
  - rewrite length_zip_with. lia.
  - apply Forall_lookup_2. intros l row.
    rewrite lookup_zip_with_Some. intros (ra & rb & -> & Hra & Hrb).
    rewrite length_zip_with.
    rewrite (Forall_lookup_1 _ a l ra Ha Hra), (Forall_lookup_1 _ b l rb Hb Hrb).
    lia.
Qed.

Lemma rect2_fmap (f : T -> T) (L F : nat) (a : matrix) :
  rect2 L F a -> rect2 L F ((fun row : list T => f <$> row) <$> a).
Proof.
  intros [Hla Ha]. split; [by rewrite length_fmap|].
  apply Forall_fmap. eapply Forall_impl; [exact Ha|].
  intros row Hrow. simpl. by rewrite length_fmap.
Qed.

Lemma Forall_rect2_zip_with (f : T -> T -> T) (L F : nat) (X : array3) (M : matrix) :
  Forall (rect2 L F) X -> rect2 L F M ->
  Forall (rect2 L F) ((fun sample => zip_with (zip_with f) sample M) <$> X).
Proof.
  intros HX HM. apply Forall_fmap. eapply Forall_impl; [exact HX|].
  intros sample Hs. simpl. by apply rect2_zip_with.
Qed.
(** *** The shape of the fitted statistics *)

Lemma rect2_foldl_add (L F : nat) (acc : matrix) (rest : array3) :
  rect2 L F acc -> Forall (rect2 L F) rest ->
  rect2 L F (foldl (zip_with (zip_with add)) acc rest).
Proof.
  revert acc. induction rest as [|sample rest IH]; intros acc Hacc Hrest; simpl;
    [done|].
  apply Forall_cons in Hrest as [Hs Hrest].
  apply IH; [|done]. by apply rect2_zip_with.
Qed.

Lemma rect2_mean0 (n L F : nat) (X : array3) :
  rect3 (S n) L F X -> rect2 L F (mean0 X).
Proof.
  intros [Hlen HX]. unfold mean0. apply rect2_fmap.
  destruct X as [|first rest]; [done|]. simpl.
  apply Forall_cons in HX as [Hfirst Hrest]. by apply rect2_foldl_add.
Qed.

Lemma rect2_std0 (n L F : nat) (X : array3) :
  rect3 (S n) L F X -> rect2 L F (std0 X).
Proof.
  intros HX. unfold std0. apply rect2_fmap. apply (rect2_mean0 n).
  destruct HX as [Hlen HX]. split; [by rewrite !length_fmap|].
  apply Forall_fmap, Forall_fmap. eapply Forall_impl; [exact HX|].
  intros sample Hs. simpl. apply rect2_fmap, rect2_zip_with; [done|].
  by apply (rect2_mean0 n).
Qed.

Lemma fancy_index_length {B} (row : list B) (ind : list Z) (r : list B) :
  fancy_index row ind = Ok r -> length r = length ind.
Proof. intros Hr%mapM_Forall2. symmetry. by eapply Forall2_length. Qed.

Lemma select_targets_rect (n L F : nat) (X Xt : array3) (tg : list Z) :
  rect3 n L F X -> select_targets X tg = Ok Xt -> rect3 n L (length tg) Xt.
Proof.
  intros [Hlen HX] Hsel%mapM_Forall2. split.
  - rewrite <- Hlen. symmetry. by eapply Forall2_length.
  - apply Forall_lookup_2. intros i st Hst.
    destruct (Forall2_lookup_r _ _ _ _ _ Hsel Hst) as (sample & Hsample & Hrows).
    apply mapM_Forall2 in Hrows.
    pose proof (Forall_lookup_1 _ _ _ _ HX Hsample) as [HL _]. split.
    + rewrite <- HL. symmetry. by eapply Forall2_length.
    + apply Forall_lookup_2. intros l r Hr.
      destruct (Forall2_lookup_r _ _ _ _ _ Hrows Hr) as (row & _ & Hrow).
      by eapply fancy_index_length.
Qed.

Lemma zip_with_app_replicate (M : matrix) (pad : list T) :
  zip_with app M (replicate (length M) pad) = (fun row => row ++ pad) <$> M.
Proof. induction M as [|row M IH]; simpl; [done|]. by rewrite IH. Qed.

Lemma shape_rect3 (n L F : nat) (X : array3) :
  rect3 (S n) L F X -> shape1 X = L /\ (L = 0%nat \/ shape2 X = F).
Proof.
  intros [Hlen HX]. destruct X as [|first rest]; [done|].
  apply Forall_cons in HX as [[HL Hrows] _]. unfold shape1, shape2. simpl.
  split; [done|]. destruct first as [|row first]; [left; by rewrite <- HL|].
  right. simpl. by apply Forall_cons in Hrows as [Hrow _].
Qed.

(** In target-restricted mode a fit that returns has stored the
    statistics of the selected columns, each row followed by zeros
    (respectively ones) up to the width of [X]. *)
Lemma fit_x_restricted (self self' : t) (tg : list Z) (X : array3) (n L F : nat) :
  targets self = Some tg -> rect3 (S n) L F X -> fit_x self X = Ok self' ->
  exists mt st : matrix,
    rect2 L (length tg) mt /\ rect2 L (length tg) st
    /\ (L = 0%nat \/ (length tg <= F)%nat)
    /\ x_mean self' = Some ((fun row => row ++ replicate (F - length tg) zero) <$> mt)
    /\ x_std self' = Some ((fun row => row ++ replicate (F - length tg) one) <$> st)
    /\ x_is_fitted self' = true.
Proof.
  intros Htg HX. unfold fit_x. rewrite Htg.
  destruct (select_targets X tg) as [Xt|e] eqn:Hsel; simpl; [|done].
  pose proof (select_targets_rect _ _ _ _ _ _ HX Hsel) as HXt.
  destruct (shape_rect3 n L F X HX) as [-> Hshape2].
  unfold full. case_decide as Hcols; simpl; [done|].
  unfold concatenate1.
  pose proof (rect2_mean0 _ _ _ _ HXt) as Hmt.
  pose proof (rect2_std0 _ _ _ _ HXt) as Hst.
  rewrite !length_replicate.
  rewrite !decide_True by apply Hmt || apply Hst. simpl. intros [= <-].
  exists (mean0 Xt), (std0 Xt). simpl.
  split; [done|]. split; [done|].
  destruct Hmt as [Hlm Hmt], Hst as [Hls Hst].
  destruct Hshape2 as [H0|HF].
  - split; [by left|].
    assert (mean0 Xt = []) as -> by (apply nil_length_inv; congruence).
    assert (std0 Xt = []) as -> by (apply nil_length_inv; congruence).
    by rewrite H0.
  - split; [right; lia|].
    replace (Z.to_nat (Z.of_nat (shape2 X) - Z.of_nat (length tg)))
      with (F - length tg)%nat by lia.
    rewrite <- Hlm at 1. rewrite <- Hls at 1.
    by rewrite !zip_with_app_replicate.
Qed.

Lemma rect2_pad (L k F : nat) (mt : matrix) (v : T) :
  rect2 L k mt -> L = 0%nat \/ (k <= F)%nat ->
  rect2 L F ((fun row => row ++ replicate (F - k) v) <$> mt).
Proof.
  intros [Hl Hrows] Hk. split; [by rewrite length_fmap|].
  destruct Hk as [->|Hk].
  - apply nil_length_inv in Hl. subst mt. constructor.
  - apply Forall_fmap. eapply Forall_impl; [exact Hrows|].
    intros row Hrow. simpl. rewrite length_app, length_replicate, Hrow. lia.
Qed.

Lemma entry2_pad (L k F : nat) (mt : matrix) (v : T) (l j : nat) :
  rect2 L k mt -> (l < L)%nat -> (k <= j < F)%nat ->
  entry2 ((fun row => row ++ replicate (F - k) v) <$> mt) l j = Some v.
Proof.
  intros [Hl Hrows] Hlt Hj. unfold entry2. rewrite list_lookup_fmap.
  destruct (lookup_lt_is_Some_2 mt l) as [row Hrow]; [lia|].
  rewrite Hrow. simpl.
  pose proof (Forall_lookup_1 (fun row => length row = k) mt l row Hrows Hrow)
    as Hlen. simpl in Hlen.
  rewrite lookup_app_r by lia. apply lookup_replicate_2. lia.
Qed.

Lemma entry_bounds (L F : nat) (X : array3) (i l j : nat) (x : T) :
  Forall (rect2 L F) X -> entry X i l j = Some x -> (l < L)%nat /\ (j < F)%nat.
Proof.
  intros HX. unfold entry.
  destruct (X !! i) as [sample|] eqn:Hi; simpl; [|done].
  destruct (sample !! l) as [row|] eqn:Hl; simpl; [|done]. intros Hj.
  pose proof (Forall_lookup_1 _ _ _ _ HX Hi) as Hs.
  pose proof (rect2_lookup L F sample l row Hs Hl) as Hrow.
  destruct Hs as [HL _]. split.
  - rewrite <- HL. by eapply lookup_lt_Some.
  - rewrite <- Hrow. by eapply lookup_lt_Some.
Qed.

Lemma entry_zip_with (f : T -> T -> T) (X : array3) (M : matrix)
    (i l j : nat) (x y : T) :
  entry X i l j = Some x -> entry2 M l j = Some y ->
  entry ((fun sample => zip_with (zip_with f) sample M) <$> X) i l j
  = Some (f x y).
Proof.
  unfold entry, entry2. rewrite list_lookup_fmap.
  destruct (X !! i) as [sample|]; simpl; [|done].
  rewrite lookup_zip_with.
  destruct (sample !! l) as [row|]; simpl; [|done].
  destruct (M !! l) as [mrow|]; simpl; [|done].
  rewrite lookup_zip_with. intros -> ->. reflexivity.
Qed.

(** C5, as amended. After a fit in target-restricted mode on a
    rectangular array of width [F], for every array [X] of that sample
    shape: [transform_x] returns; in the stored statistics every column
    at index [len(targets)] or more has mean 0 and std 1; such a column
    of [X] is returned unchanged when subtracting zero and dividing by
    one are neutral; and these columns are all the non-target columns
    when the first [len(targets)] columns are all targets. *)
Theorem transform_x_keeps_columns_after_targets `{!Neutral T}
    (self self' : t) (tg : list Z) (X0 X : array3) (n L F : nat) :
  targets self = Some tg -> rect3 (S n) L F X0 -> fit_x self X0 = Ok self' ->
  Forall (rect2 L F) X ->
  exists (m sd : matrix) (X' : array3),
    x_mean self' = Some m /\ x_std self' = Some sd
    /\ transform_x self' X = Ok X'
    /\ (forall l j : nat,
          (l < L)%nat -> (length tg <= j < F)%nat ->
          entry2 m l j = Some zero /\ entry2 sd l j = Some one)
    /\ (forall (i l j : nat) (x : T),
          (length tg <= j)%nat ->
          entry X i l j = Some x -> entry X' i l j = Some x)
    /\ ((forall c : Z, 0 <= c < Z.of_nat (length tg) -> c ∈ tg) ->
        forall (i l j : nat) (x : T),
          Z.of_nat j ∉ tg ->
          entry X i l j = Some x -> entry X' i l j = Some x).
Proof.
  intros Htg HX0 Hfit HX.
  destruct (fit_x_restricted self self' tg X0 n L F Htg HX0 Hfit)
    as (mt & st & Hmt & Hst & Hk & Hmean & Hstd & _).
  pose proof (rect2_pad L (length tg) F mt zero Hmt Hk) as Hm.
  pose proof (rect2_pad L (length tg) F st one Hst Hk) as Hsd.
  eexists _, _, _. split; [exact Hmean|]. split; [exact Hstd|].
  assert (forall (i l j : nat) (x : T),
             (length tg <= j)%nat -> entry X i l j = Some x ->
             entry ((fun sample => zip_with (zip_with div) sample
                       ((fun row => row ++ replicate (F - length tg) one) <$> st))
                    <$> ((fun sample => zip_with (zip_with sub) sample
                            ((fun row => row ++ replicate (F - length tg) zero) <$> mt))
                         <$> X)) i l j = Some x) as Hkeep.
  { intros i l j x Hj Hx.
    destruct (entry_bounds L F X i l j x HX Hx) as [Hl HjF].
    replace (Some x) with (Some (div (sub x zero) one))
      by by rewrite sub_zero, div_one.
    apply entry_zip_with; [apply entry_zip_with; [done|]|];
      by apply (entry2_pad L). }
  split; [|split; [|split]].
  - unfold transform_x, scale. rewrite Hmean, Hstd.
    rewrite (ewise32_same sub L F) by done. rewrite bind_ok.
    rewrite (ewise32_same div L F); [done|by apply Forall_rect2_zip_with|done].
  - intros l j Hl Hj. split; by apply (entry2_pad L).
  - exact Hkeep.
  - intros Hlead i l j x Hj Hx. apply Hkeep; [|done].
    destruct (decide (length tg <= j)%nat) as [|Hlt]; [done|].
    exfalso. apply Hj, Hlead. lia.
Qed.

(** *** Which calls raise *)

Lemma broadcast_raise {B C D} (g : B -> C -> result D)
    (xs : list B) (ys : list C) (e : exn) :
  broadcast g xs ys = Raise e ->
  e = broadcast_error \/ exists x y, g x y = Raise e.
Proof.
  unfold broadcast. case_decide.
  - intros ([x y] & _ & Hg)%mapM_raise. right. by exists x, y.
  - destruct xs as [|x [|x' xs]], ys as [|y [|y' ys]]; lazy beta iota;
      try (intros [= <-]; by left);
      try (intros (z & _ & Hg)%mapM_raise; right; by eauto).
    all: simpl in *; done.
Qed.

Lemma ewise32_raise (f : T -> T -> T) (X : array3) (M : matrix) (e : exn) :
  ewise32 f X M = Raise e -> e = broadcast_error.
Proof.
  intros (sample & _ & Hs)%mapM_raise.
  apply broadcast_raise in Hs as [->|(row & mrow & Hr)]; [done|].
  apply broadcast_raise in Hr as [->|(x & y & Hxy)]; done.
Qed.

Lemma unscale_raise (mean std : option matrix) (a : array3) (e : exn) :
  unscale mean std a = Raise e ->
  e = broadcast_error \/ e = TypeError "unsupported operand type(s): 'NoneType'".
Proof.
  unfold unscale. destruct mean as [m|], std as [sd|];
    try (intros [= <-]; by right).
  destruct (ewise32 mul a sd) as [scaled|e'] eqn:Hmul; simpl.
  - intros He%ewise32_raise. by left.
  - intros [= <-]. apply ewise32_raise in Hmul. by left.
Qed.

Lemma scale_same (L F : nat) (m sd : matrix) (a : array3) :
  rect2 L F m -> rect2 L F sd -> Forall (rect2 L F) a ->
  scale (Some m) (Some sd) a
  = Ok ((fun sample => zip_with (zip_with div) (zip_with (zip_with sub) sample m) sd)
        <$> a).
Proof.
  intros Hm Hsd Ha. unfold scale.
  rewrite (ewise32_same sub L F) by done. rewrite bind_ok.
  rewrite (ewise32_same div L F); [|by apply Forall_rect2_zip_with|done].
  by rewrite <- list_fmap_compose.
Qed.

Lemma unscale_same (L F : nat) (m sd : matrix) (a : array3) :
  rect2 L F m -> rect2 L F sd -> Forall (rect2 L F) a ->
  unscale (Some m) (Some sd) a
  = Ok ((fun sample => zip_with (zip_with add) (zip_with (zip_with mul) sample sd) m)
        <$> a).
Proof.
  intros Hm Hsd Ha. unfold unscale.
  rewrite (ewise32_same mul L F) by done. rewrite bind_ok.
  rewrite (ewise32_same add L F); [|by apply Forall_rect2_zip_with|done].
  by rewrite <- list_fmap_compose.
Qed.

Lemma inverse_transform_x_unfitted (self : t) (a : array3) :
  inverse_transform_x self a = Raise (ValueError "Not fitted on X.")
  <-> x_is_fitted self = false.
Proof.
  unfold inverse_transform_x. destruct (x_is_fitted self); split; try done.
  by intros [[=]|[=]]%unscale_raise.
Qed.

Lemma inverse_transform_y_unfitted (self : t) (a : array3) :
  inverse_transform_y self a = Raise (ValueError "Not fitted on y.")
  <-> y_is_fitted self = false.
Proof.
  unfold inverse_transform_y. destruct (y_is_fitted self); split; try done.
  by intros [[=]|[=]]%unscale_raise.
Qed.

Lemma replay_snoc (history : list call) (c : call) (self : t) :
  replay (history ++ [c]) self = invoke (replay history self) c.
Proof. unfold replay. by rewrite foldl_snoc. Qed.

Lemma fit_x_sets (self self' : t) (X : array3) :
  fit_x self X = Ok self' ->
  targets self' = targets self /\ x_is_fitted self' = true
  /\ is_Some (x_mean self') /\ is_Some (x_std self')
  /\ y_is_fitted self' = y_is_fitted self
  /\ y_mean self' = y_mean self /\ y_std self' = y_std self.
Proof.
  unfold fit_x. destruct (targets self) as [tg|] eqn:Htg.
  - destruct (select_targets X tg); simpl; [|done].
    unfold full, concatenate1. repeat (case_decide; simpl; try done).
    intros [= <-]. simpl. by repeat split.
  - intros [= <-]. simpl. by repeat split.
Qed.

Lemma fit_x_unrestricted (self : t) (X : array3) :
  targets self = None -> is_ok (fit_x self X) = true.
Proof. intros Htg. unfold fit_x. by rewrite Htg. Qed.

(** What every history maintains. *)
Lemma invoke_spec (self : t) (c : call) :
  targets (invoke self c) = targets self
  /\ x_is_fitted (invoke self c) = x_is_fitted self || completes_fit_x self c
  /\ y_is_fitted (invoke self c) = y_is_fitted self || calls_fit_y c
  /\ ((x_is_fitted self = true -> is_Some (x_mean self) /\ is_Some (x_std self)) ->
      x_is_fitted (invoke self c) = true ->
      is_Some (x_mean (invoke self c)) /\ is_Some (x_std (invoke self c)))
  /\ ((y_is_fitted self = true -> is_Some (y_mean self) /\ is_Some (y_std self)) ->
      y_is_fitted (invoke self c) = true ->
      is_Some (y_mean (invoke self c)) /\ is_Some (y_std (invoke self c))).
Proof.
  destruct c as [X|y|X|y|X|y|X|y]; simpl.
  all: try (destruct (fit_x self X) as [self'|e] eqn:Hfit; simpl;
            [apply fit_x_sets in Hfit as (Htg & Hx & Hxm & Hxs & Hy & Hym & Hys);
             rewrite ?Htg, ?Hx, ?Hy, ?Hym, ?Hys|]).
  all: rewrite ?orb_false_r, ?orb_true_r; repeat split; eauto; tauto.
Qed.

Lemma replay_targets (history : list call) (self : t) :
  targets (replay history self) = targets self.
Proof.
  induction history as [|c history IH] using rev_ind; [done|].
  rewrite replay_snoc. destruct (invoke_spec (replay history self) c) as [-> _].
  exact IH.
Qed.

Lemma replay_x_fitted (history : list call) (self : t) :
  x_is_fitted (replay history self) = true
  <-> x_is_fitted self = true
      \/ exists before c after,
           history = before ++ c :: after
           /\ completes_fit_x (replay before self) c = true.
Proof.
  induction history as [|c history IH] using rev_ind.
  - split; [by left|]. intros [?|(before & c & after & Heq & _)]; [done|].
    by destruct before.
  - rewrite replay_snoc.
    destruct (invoke_spec (replay history self) c) as (_ & -> & _).
    rewrite orb_true_iff, IH. split.
    + intros [[?|(before & c' & after & -> & Hc)]|Hc]; [by left| |].
      * right. exists before, c', (after ++ [c]). by rewrite <- app_assoc.
      * right. exists history, c, []. done.
    + intros [?|(before & c' & after & Heq & Hc)]; [by left; left|].
      destruct after as [|c'' after _] using rev_ind.
      * apply app_inj_tail in Heq as [-> ->]. by right.
      * left. right. exists before, c', after. split; [|done].
        rewrite app_comm_cons, app_assoc in Heq.
        by apply app_inj_tail in Heq as [-> _].
Qed.

Lemma replay_y_fitted (history : list call) (self : t) :
  y_is_fitted (replay history self) = true
  <-> y_is_fitted self = true \/ exists c, c ∈ history /\ calls_fit_y c = true.
Proof.
  induction history as [|c history IH] using rev_ind.
  - split; [by left|]. intros [?|(c & Hc & _)]; [done|]. by apply elem_of_nil in Hc.
  - rewrite replay_snoc.
    destruct (invoke_spec (replay history self) c) as (_ & _ & -> & _).
    rewrite orb_true_iff, IH. split.
    + intros [[?|(c' & Hc' & Hfit)]|Hfit]; [by left| |].
      * right. exists c'. split; [|done]. apply elem_of_app. by left.
      * right. exists c. split; [|done]. apply elem_of_app. right. left.
    + intros [?|(c' & [Hc'|Hc']%elem_of_app & Hfit)]; [by left; left| |].
      * left. right. by exists c'.
      * apply list_elem_of_singleton in Hc' as ->. by right.
Qed.

Lemma replay_stats (history : list call) (self : t) :
  (x_is_fitted self = true -> is_Some (x_mean self) /\ is_Some (x_std self)) ->
  (y_is_fitted self = true -> is_Some (y_mean self) /\ is_Some (y_std self)) ->
  (x_is_fitted (replay history self) = true ->
   is_Some (x_mean (replay history self)) /\ is_Some (x_std (replay history self)))
  /\ (y_is_fitted (replay history self) = true ->
      is_Some (y_mean (replay history self)) /\ is_Some (y_std (replay history self))).
Proof.
  intros Hx Hy. induction history as [|c history [IHx IHy]] using rev_ind; [done|].
  rewrite replay_snoc.
  destruct (invoke_spec (replay history self) c) as (_ & _ & _ & Hx' & Hy').
  split; [by apply Hx'|by apply Hy'].
Qed.

Lemma completes_fit_x_unrestricted (self : t) (c : call) :
  targets self = None -> completes_fit_x self c = calls_fit_x c.
Proof.
  intros Htg. destruct c; simpl; try done; by apply fit_x_unrestricted.
Qed.

(** C6. For a scaler object after any history of calls:
    [inverse_transform_x] raises "Not fitted on X." exactly when no call
    of [fit_x] (alone or inside [fit_transform_x]) has returned; without
    target restriction [fit_x] always returns, so this is exactly when
    [fit_x] was never called; [inverse_transform_y] raises "Not fitted
    on y." exactly when [fit_y] was never called. When fitted, the
    statistics are stored, the result is [X * std + mean] under numpy's
    broadcasting, and for samples of the statistics' shape it is
    returned without error. *)
Theorem inverse_transform_raises_iff_never_fitted
    (targets0 : option (list Z)) (history : list call) (a : array3) :
  let self := replay history (__init__ targets0) in
  (inverse_transform_x self a = Raise (ValueError "Not fitted on X.")
   <-> forall before c after,
         history = before ++ c :: after ->
         completes_fit_x (replay before (__init__ targets0)) c = false)
  /\ (targets0 = None ->
      (inverse_transform_x self a = Raise (ValueError "Not fitted on X.")
       <-> forall c, c ∈ history -> calls_fit_x c = false))
  /\ (inverse_transform_y self a = Raise (ValueError "Not fitted on y.")
      <-> forall c, c ∈ history -> calls_fit_y c = false)
  /\ (x_is_fitted self = true ->
      exists m sd,
        x_mean self = Some m /\ x_std self = Some sd
        /\ inverse_transform_x self a = unscale (Some m) (Some sd) a
        /\ forall L F,
             rect2 L F m -> rect2 L F sd -> Forall (rect2 L F) a ->
             inverse_transform_x self a
             = Ok ((fun sample =>
                      zip_with (zip_with add) (zip_with (zip_with mul) sample sd) m)
                   <$> a))
  /\ (y_is_fitted self = true ->
      exists m sd,
        y_mean self = Some m /\ y_std self = Some sd
        /\ inverse_transform_y self a = unscale (Some m) (Some sd) a
        /\ forall L F,
             rect2 L F m -> rect2 L F sd -> Forall (rect2 L F) a ->
             inverse_transform_y self a
             = Ok ((fun sample =>
                      zip_with (zip_with add) (zip_with (zip_with mul) sample sd) m)
                   <$> a)).
Proof.
  intros self.
  assert (x_is_fitted self = false
          <-> forall before c after,
                history = before ++ c :: after ->
                completes_fit_x (replay before (__init__ targets0)) c = false)
    as Hx.
  { rewrite <- not_true_iff_false. unfold self. rewrite replay_x_fitted. simpl.
    split.
    - intros Hno before c after Heq. apply not_true_iff_false. intros Hc.
      apply Hno. right. by exists before, c, after.
    - intros Hall [?|(before & c & after & Heq & Hc)]; [done|].
      by rewrite (Hall before c after Heq) in Hc. }
  destruct (replay_stats history (__init__ targets0)) as [Hsx Hsy]; [done|done|].
  split; [|split; [|split; [|split]]].
  - by rewrite inverse_transform_x_unfitted.
  - intros ->. rewrite inverse_transform_x_unfitted, Hx. split.
    + intros Hall c (before & after & ->)%list_elem_of_split.
      rewrite <- (completes_fit_x_unrestricted (replay before (__init__ None)));
        [by eapply Hall|by rewrite replay_targets].
    + intros Hall before c after ->.
      rewrite completes_fit_x_unrestricted by by rewrite replay_targets.
      apply Hall. apply elem_of_app. right. left.
  - rewrite inverse_transform_y_unfitted, <- not_true_iff_false.
    unfold self. rewrite replay_y_fitted. simpl. split.
    + intros Hno c Hc. apply not_true_iff_false. intros Hfit. apply Hno.
      right. by exists c.
    + intros Hall [?|(c & Hc & Hfit)]; [done|]. by rewrite (Hall c Hc) in Hfit.
  - intros Hfit. destruct (Hsx Hfit) as [[m Hm] [sd Hsd]].
    exists m, sd. split; [done|]. split; [done|].
    unfold inverse_transform_x. unfold self in *. rewrite Hfit, Hm, Hsd.
    split; [done|]. intros L F. apply unscale_same.
  - intros Hfit. destruct (Hsy Hfit) as [[m Hm] [sd Hsd]].
    exists m, sd. split; [done|]. split; [done|].
    unfold inverse_transform_y. unfold self in *. rewrite Hfit, Hm, Hsd.
    split; [done|]. intros L F. apply unscale_same.
Qed.

End VectorScalerFacts.

(** *** Which arithmetic has which law *)

#[global] Instance float64_neutral : VectorScaler.Neutral float.
Proof. split; [exact float_sub_zero|exact float_div_one]. Qed.

(** *** The round trip in binary64 *)

Lemma entry2_exists (L F : nat) (M : list (list float)) (l j : nat) :
  VectorScaler.rect2 L F M -> (l < L)%nat -> (j < F)%nat ->
  exists y, VectorScaler.entry2 M l j = Some y.
Proof.
  intros [HL Hrows] Hl Hj. unfold VectorScaler.entry2.
  destruct (lookup_lt_is_Some_2 M l) as [row Hrow]; [lia|].
  pose proof (Forall_lookup_1 (fun row => length row = F) _ _ _ Hrows Hrow)
    as Hlen. simpl in Hlen.
  destruct (lookup_lt_is_Some_2 row j) as [y Hy]; [lia|].
  exists y. by rewrite Hrow.
Qed.

(** Scaling and unscaling with statistics of the shape of the samples:
    both return, and every entry went through the four operations. *)
Lemma scale_unscale (L F : nat) (m sd : list (list float))
    (a : list (list (list float))) :
  VectorScaler.rect2 L F m -> VectorScaler.rect2 L F sd ->
  Forall (VectorScaler.rect2 L F) a ->
  exists a',
    (VectorScaler.scale (Some m) (Some sd) a
     ≫= VectorScaler.unscale (Some m) (Some sd)) = Ok a'
    /\ length a' = length a
    /\ Forall (VectorScaler.rect2 L F) a'
    /\ VectorScaler.round_trip_of m sd a a'.
Proof.
  intros Hm Hsd Ha. unfold VectorScaler.scale, VectorScaler.unscale.
  rewrite (ewise32_same VectorScaler.sub L F) by done. rewrite bind_ok.
  rewrite (ewise32_same VectorScaler.div L F);
    [|by apply Forall_rect2_zip_with|done].
  rewrite bind_ok.
  rewrite (ewise32_same VectorScaler.mul L F);
    [|by do 2 (apply Forall_rect2_zip_with; [|done])|done].
  rewrite bind_ok.
  rewrite (ewise32_same VectorScaler.add L F);
    [|by do 3 (apply Forall_rect2_zip_with; [|done])|done].
  eexists. split; [reflexivity|]. split; [by rewrite !length_fmap|].
  split; [by do 4 (apply Forall_rect2_zip_with; [|done])|].
  intros i l j x Hx.
  destruct (entry_bounds L F a i l j x Ha Hx) as [Hl Hj].
  destruct (entry2_exists L F m l j Hm Hl Hj) as [mu Hmu].
  destruct (entry2_exists L F sd l j Hsd Hl Hj) as [sigma Hsigma].
  exists mu, sigma. split; [done|]. split; [done|]. split.
  - change ((x - mu) / sigma * sigma + mu)%float
      with (VectorScaler.add
              (VectorScaler.mul
                 (VectorScaler.div (VectorScaler.sub x mu) sigma) sigma) mu).
    apply (entry_zip_with VectorScaler.add); [|done].
    apply (entry_zip_with VectorScaler.mul); [|done].
    apply (entry_zip_with VectorScaler.div); [|done].
    by apply (entry_zip_with VectorScaler.sub).
  - intros Hfin.
    destruct (round_trip_error x mu sigma Hfin) as (Hxfin & _ & _ & Hnz & Herr).
    done.
Qed.

(** C4, as amended. For a scaler that is fitted on X (respectively y),
    with statistics of shape [(L, F)], and for every array of samples of
    that shape: [transform_x] followed by [inverse_transform_x]
    (respectively y) returns an array of the same shape without error.
    Every entry of it is the entry that went in, standardised and
    brought back in binary64; it is either not finite (an infinity or
    NaN), or within floating-point tolerance of the entry that went in:
    they differ by at most [2^-50 * (|x| + |mean|) + 2^-1073 * (1 +
    |std|)]. It is finite only if the entry that went in is finite and
    the standard deviation is not zero. *)
Theorem inverse_transform_round_trip (self : VectorScaler.t) (L F : nat)
    (a : list (list (list float))) :
  Forall (VectorScaler.rect2 L F) a ->
  (VectorScaler.x_is_fitted self = true ->
   forall m sd,
     VectorScaler.x_mean self = Some m -> VectorScaler.x_std self = Some sd ->
     VectorScaler.rect2 L F m -> VectorScaler.rect2 L F sd ->
     exists a',
       (VectorScaler.transform_x self a ≫= VectorScaler.inverse_transform_x self)
       = Ok a'
       /\ length a' = length a
       /\ Forall (VectorScaler.rect2 L F) a'
       /\ VectorScaler.round_trip_of m sd a a')
  /\ (VectorScaler.y_is_fitted self = true ->
      forall m sd,
        VectorScaler.y_mean self = Some m -> VectorScaler.y_std self = Some sd ->
        VectorScaler.rect2 L F m -> VectorScaler.rect2 L F sd ->
        exists a',
          (VectorScaler.transform_y self a ≫= VectorScaler.inverse_transform_y self)
          = Ok a'
          /\ length a' = length a
          /\ Forall (VectorScaler.rect2 L F) a'
          /\ VectorScaler.round_trip_of m sd a a').
Proof.
  intros Ha. split; intros Hfit m sd Hmean Hstd Hm Hsd.
  - unfold VectorScaler.transform_x, VectorScaler.inverse_transform_x.
    rewrite Hfit, Hmean, Hstd. by apply (scale_unscale L F).
  - unfold VectorScaler.transform_y, VectorScaler.inverse_transform_y.
    rewrite Hfit, Hmean, Hstd. by apply (scale_unscale L F).
Qed.

(** The hypotheses of C4 hold on a scaler fitted on an array whose two
    features both vary: the round trip returns, and its first entry is
    within tolerance of the [1.0] that went in. *)
Lemma inverse_transform_round_trip_witness :
  exists a',
    (VectorScaler.transform_x
       (VectorScaler.replay [VectorScaler.FitX two_features]
          (VectorScaler.__init__ None))
       two_features
     ≫= VectorScaler.inverse_transform_x
          (VectorScaler.replay [VectorScaler.FitX two_features]
             (VectorScaler.__init__ None)))
    = Ok a'
    /\ VectorScaler.round_trip_of [[2; 20]]%float [[1; 10]]%float two_features a'.
Proof.
  destruct (proj1 (inverse_transform_round_trip
                     (VectorScaler.replay [VectorScaler.FitX two_features]
                        (VectorScaler.__init__ None))
                     1 2 two_features ltac:(by repeat constructor))
              eq_refl [[2; 20]]%float [[1; 10]]%float)
    as (a' & Hrun & _ & _ & Htrip).
  - vm_compute. reflexivity.
  - vm_compute. reflexivity.
  - by repeat constructor.
  - by repeat constructor.
  - exists a'. split; [exact Hrun|exact Htrip].
Defined.

(** On that array the round trip is exact for the first entry. *)
Example round_trip_two_features :
  (VectorScaler.transform_x
     (VectorScaler.replay [VectorScaler.FitX two_features]
        (VectorScaler.__init__ None))
     two_features
   ≫= VectorScaler.inverse_transform_x
        (VectorScaler.replay [VectorScaler.FitX two_features]
           (VectorScaler.__init__ None)))
  = Ok two_features.
Proof. vm_compute. reflexivity. Qed.

(** C6 as stated fails in two ways. On a scaler restricted to the
    target column 5, [fit_x] is called on data with two columns and
    raises [IndexError]; the scaler stays unfitted, and
    [inverse_transform_x] raises "Not fitted on X." although [fit_x] was
    called. And a scaler fitted on data with two columns does not
    return the reversed transform of data with three columns: it raises
    numpy's broadcast error. *)
Lemma inverse_transform_after_failed_fit_counterexample :
  VectorScaler.calls_fit_x (VectorScaler.FitX two_features) = true
  /\ VectorScaler.fit_x (VectorScaler.__init__ (Some [5])) two_features
     = Raise IndexError
  /\ VectorScaler.inverse_transform_x
       (VectorScaler.replay [VectorScaler.FitX two_features]
          (VectorScaler.__init__ (Some [5])))
       two_features
     = Raise (ValueError "Not fitted on X.")
  /\ VectorScaler.x_is_fitted
       (VectorScaler.replay [VectorScaler.FitX two_features]
          (VectorScaler.__init__ None)) = true
  /\ VectorScaler.inverse_transform_x
       (VectorScaler.replay [VectorScaler.FitX two_features]
          (VectorScaler.__init__ None))
       [[[1; 2; 3]]]%float
     = Raise VectorScaler.broadcast_error.
Proof. vm_compute. done. Qed.

(** C4 as stated fails: fitted on an array whose second feature is
    constant, the scaler stores a standard deviation of zero, and the
    round trip returns NaN in that column, which is within no tolerance
    of the 5.0 that went in. *)
Lemma inverse_transform_zero_std_counterexample :
  exists self : VectorScaler.t,
    VectorScaler.fit_x (VectorScaler.__init__ None) constant_feature = Ok self
    /\ VectorScaler.x_is_fitted self = true
    /\ VectorScaler.x_std self = Some [[1; 0]]%float
    /\ (VectorScaler.transform_x self constant_feature
        ≫= VectorScaler.inverse_transform_x self)
       = Ok [[[1; nan]]; [[3; nan]]]%float
    /\ forall tol : float, (PrimFloat.abs (nan - 5) <=? tol)%float = false.
Proof.
  eexists. split; [vm_compute; reflexivity|].
  split; [reflexivity|]. split; [reflexivity|].
  split; [vm_compute; reflexivity|].
  intros tol. rewrite FloatAxioms.leb_spec.
  replace (Prim2SF (PrimFloat.abs (nan - 5))) with S754_nan
    by (vm_compute; reflexivity).
  reflexivity.
Qed.

(** The hypotheses of C5 hold in binary64 on an array with the target in
    column 0. *)
Lemma transform_x_keeps_columns_after_targets_witness :
  exists (self' : VectorScaler.t) (X' : list (list (list float))),
    VectorScaler.fit_x (VectorScaler.__init__ (Some [0])) two_features
    = Ok self'
    /\ VectorScaler.transform_x self' two_features = Ok X'
    /\ forall (i l j : nat) (x : float),
         Z.of_nat j ∉ [0] ->
         VectorScaler.entry two_features i l j = Some x ->
         VectorScaler.entry X' i l j = Some x.
Proof.
  assert (exists self',
             VectorScaler.fit_x (VectorScaler.__init__ (Some [0])) two_features
             = Ok self') as [self' Hfit] by (vm_compute; eexists; reflexivity).
  destruct (transform_x_keeps_columns_after_targets
              (VectorScaler.__init__ (Some [0])) self' [0]
              two_features two_features 1 1 2)
    as (m & sd & X' & _ & _ & HX' & _ & _ & Hkeep).
  - reflexivity.
  - by repeat constructor.
  - exact Hfit.
  - by repeat constructor.
  - exists self', X'. split; [done|]. split; [done|].
    apply Hkeep. intros c Hc. simpl in Hc. assert (c = 0) as -> by lia. left.
Defined.

(** C5 as stated fails: with [targets = [1]] the statistics of column 1
    are stored first, so column 0, which is not a target, is shifted and
    scaled by them, and column 1 is returned as it came. *)
Lemma transform_x_shifts_non_target_counterexample :
  exists (self : VectorScaler.t) (X' : list (list (list float))),
    VectorScaler.fit_x (VectorScaler.__init__ (Some [1])) two_features = Ok self
    /\ VectorScaler.x_mean self = Some [[20; 0]]%float
    /\ VectorScaler.x_std self = Some [[10; 1]]%float
    /\ VectorScaler.transform_x self two_features = Ok X'
    /\ (0 ∉ [1])
    /\ VectorScaler.entry two_features 0 0 0 = Some 1%float
    /\ VectorScaler.entry X' 0 0 0 = Some ((1 - 20) / 10)%float
    /\ PrimFloat.eqb ((1 - 20) / 10) 1 = false.
Proof.
  eexists _, _. split; [vm_compute; reflexivity|].
  split; [reflexivity|]. split; [reflexivity|].
  split; [vm_compute; reflexivity|].
  split; [by intros ?%list_elem_of_singleton|].
  split; [reflexivity|]. split; vm_compute; reflexivity.
Qed.

(** ** MetricsEvaluator *)

Lemma filter_none {A} (P : A -> Prop) `{forall x, Decision (P x)} (l : list A) :
  (forall x, x ∈ l -> ~ P x) -> filter P l = [].
Proof.
  induction l as [|x l IH]; intros Hall; [done|].
  rewrite filter_cons_False by (apply Hall; left).
  apply IH. intros y Hy. apply Hall. by right.
Qed.

Section MetricsEvaluatorFacts.
Import MetricsEvaluator.
Context {S Y V : Type}.
Variable custom_metrics : string -> option (S -> Y -> result V).
Variable format : V -> string.
Variable to_pickle_file : string -> result unit.

Abbreviation frame_t := (@MetricsEvaluator.t V).
Abbreviation computes := (MetricsEvaluator.computes custom_metrics).
Abbreviation fails := (MetricsEvaluator.fails custom_metrics).
Abbreviation try_metric := (MetricsEvaluator.try_metric custom_metrics format).
Abbreviation evaluate :=
  (MetricsEvaluator.evaluate custom_metrics format to_pickle_file).
Abbreviation invoke :=
  (MetricsEvaluator.invoke custom_metrics format to_pickle_file).
Abbreviation replay :=
  (MetricsEvaluator.replay custom_metrics format to_pickle_file).

Lemma computes_functional y_samples y_truth metric (v w : V) :
  computes y_samples y_truth metric v -> computes y_samples y_truth metric w ->
  v = w.
Proof. intros (f & Hf & Hv) (g & Hg & Hw). congruence. Qed.

Lemma fails_not_computes y_samples y_truth metric (v : V) :
  fails y_samples y_truth metric -> ~ computes y_samples y_truth metric v.
Proof.
  unfold MetricsEvaluator.fails. intros Hfail (f & Hf & Hv).
  rewrite Hf, Hv in Hfail. discriminate.
Qed.

(** The loop over the metric names: a name is a key of the results
    exactly when its metric was computed, with that value; every name
    whose metric fails has its line printed; nothing printed is lost. *)
Lemma foldl_try_metric y_samples y_truth verbose (names : list string)
    (d0 : gmap string V) (out0 : list string) :
  (forall metric value,
     d0 !! metric = Some value -> computes y_samples y_truth metric value) ->
  let r := foldl (try_metric y_samples y_truth verbose) (d0, out0) names in
  (forall metric value,
     r.1 !! metric = Some value
     <-> d0 !! metric = Some value
         \/ (metric ∈ names /\ computes y_samples y_truth metric value))
  /\ (forall line, line ∈ out0 -> line ∈ r.2)
  /\ (forall metric,
        metric ∈ names -> fails y_samples y_truth metric ->
        (metric +:+ " not a valid metric") ∈ r.2).
Proof.
  revert d0 out0. induction names as [|name names IH]; intros d0 out0 Hd0; simpl.
  - split; [|split].
    + intros metric value. split; [by left|].
      intros [?|[Hin _]]; [done|]. by apply elem_of_nil in Hin.
    + done.
    + intros metric Hin. by apply elem_of_nil in Hin.
  - assert (forall out',
               (forall line, line ∈ out0 -> line ∈ out') ->
               (fails y_samples y_truth name ->
                (name +:+ " not a valid metric") ∈ out') ->
               (forall metric value,
                  (foldl (try_metric y_samples y_truth verbose) (d0, out') names).1
                  !! metric = Some value
                  <-> d0 !! metric = Some value
                      \/ (metric ∈ names /\ computes y_samples y_truth metric value)) ->
               ~ (exists value, computes y_samples y_truth name value) ->
               let r := foldl (try_metric y_samples y_truth verbose) (d0, out') names in
               (forall metric value,
                  r.1 !! metric = Some value
                  <-> d0 !! metric = Some value
                      \/ (metric ∈ name :: names
                          /\ computes y_samples y_truth metric value))
               /\ (forall line, line ∈ out0 -> line ∈ r.2)
               /\ (forall metric,
                     metric ∈ name :: names -> fails y_samples y_truth metric ->
                     (metric +:+ " not a valid metric") ∈ r.2)) as Hskip.
    { intros out' Hout' Hline Hkeys Hnone.
      destruct (IH d0 out' Hd0) as (_ & Hout & Hfail). split; [|split].
      - intros metric value. rewrite Hkeys. split.
        + intros [?|[Hin Hc]]; [by left|]. right. split; [by right|done].
        + intros [?|[[->|Hin]%elem_of_cons Hc]]; [by left| |by right].
          exfalso. apply Hnone. by exists value.
      - intros line Hl. by apply Hout, Hout'.
      - intros metric [->|Hin]%elem_of_cons Hf; [by apply Hout, Hline|].
        by apply Hfail. }
    unfold MetricsEvaluator.try_metric at 2.
    destruct (custom_metrics name) as [eval_func|] eqn:Hname.
    + destruct (eval_func y_samples y_truth) as [value|e] eqn:Hvalue.
      * assert (computes y_samples y_truth name value) as Hc
          by by exists eval_func.
        destruct (IH (<[name := value]> d0)
                    (if verbose
                     then out0 ++ ["Results for " +:+ name +:+ " is "
                                   +:+ format value +:+ "."]
                     else out0)) as (Hkeys & Hout & Hfail).
        { intros metric v. rewrite lookup_insert_Some.
          intros [[<- <-]|[_ ?]]; [done|by apply Hd0]. }
        split; [|split].
        -- intros metric v. rewrite Hkeys, lookup_insert_Some. split.
           ++ intros [[[<- <-]|[_ ?]]|[Hin Hv]].
              ** right. split; [left|done].
              ** by left.
              ** right. split; [by right|done].
           ++ intros [Hd|[[->|Hin]%elem_of_cons Hv]].
              ** destruct (decide (name = metric)) as [<-|Hne].
                 --- left. left. split; [done|].
                     eapply computes_functional; [exact Hc|by apply Hd0].
                 --- left. by right.
              ** left. left. split; [done|]. by eapply computes_functional.
              ** by right.
        -- intros line Hl. apply Hout. destruct verbose; [|done].
           apply elem_of_app. by left.
        -- intros metric [->|Hin]%elem_of_cons Hf; [|by apply Hfail].
           by apply fails_not_computes with (v := value) in Hf.
      * apply Hskip.
        -- intros line Hl. apply elem_of_app. by left.
        -- intros _. apply elem_of_app. right. left.
        -- by destruct (IH d0 (out0 ++ [name +:+ " not a valid metric"]) Hd0).
        -- intros (v & f & Hf & Hv). congruence.
    + apply Hskip.
      * intros line Hl. apply elem_of_app. by left.
      * intros _. apply elem_of_app. right. left.
      * by destruct (IH d0 (out0 ++ [name +:+ " not a valid metric"]) Hd0).
      * intros (v & f & Hf & Hv). congruence.
Qed.

(** One call of [evaluate] on a tearsheet whose column labels are
    distinct: it raises only if a destination is configured and
    persisting to it raises; it appends exactly one row; a metric's name
    is a cell of that row exactly when the metric resolved and returned,
    with the value it returned; a metric that does not resolve or raises
    is reported on the output and has no cell in the row. *)
Lemma evaluate_distinct
    (self : frame_t) (y_samples : S) (y_truth : Y) (verbose : bool) :
  NoDup (columns (tearsheet self)) ->
  (forall e,
     raised (evaluate self y_samples y_truth verbose) = Some e ->
     exists name,
       truthy (filename self) = Some name /\ to_pickle_file name = Raise e)
  /\ (truthy (filename self) = None ->
      raised (evaluate self y_samples y_truth verbose) = None)
  /\ exists row : gmap string V,
       rows (tearsheet (after (evaluate self y_samples y_truth verbose)))
       = rows (tearsheet self) ++ [row]
       /\ (forall metric value,
             row !! metric = Some value
             <-> metric ∈ metrics self
                 /\ computes y_samples y_truth metric value)
       /\ (forall metric,
             metric ∈ metrics self -> fails y_samples y_truth metric ->
             row !! metric = None
             /\ (metric +:+ " not a valid metric")
                ∈ printed (evaluate self y_samples y_truth verbose)).
Proof.
  intros Hdistinct. unfold MetricsEvaluator.evaluate, append.
  pose proof (foldl_try_metric y_samples y_truth verbose (metrics self) ∅ [])
    as Hloop.
  destruct (foldl (try_metric y_samples y_truth verbose) (∅, []) (metrics self))
    as [eval_results out] eqn:Hfold.
  destruct Hloop as (Hkeys & _ & Hfail); [by intros metric value|].
  rewrite decide_True by done.
  simpl in *. split; [|split].
  - intros e. destruct (truthy (filename self)) as [name|]; [|done].
    destruct (to_pickle_file name) as [[]|e'] eqn:Hp; [done|].
    intros [= <-]. by exists name.
  - by intros ->.
  - exists eval_results. split; [done|]. split.
    + intros metric value. rewrite Hkeys, lookup_empty. split.
      * by intros [?|?].
      * by right.
    + intros metric Hin Hf. split; [|by apply Hfail].
      destruct (eval_results !! metric) as [value|] eqn:Hv; [|done].
      apply Hkeys in Hv as [Hv|[_ Hv]]; [by rewrite lookup_empty in Hv|].
      by apply fails_not_computes with (v := value) in Hf.
Qed.

(** One call of [evaluate] on a tearsheet in which a column label is
    repeated: the loop runs and reports as it always does, then line 196
    raises and the object is left as it was. *)
Lemma evaluate_repeated
    (self : frame_t) (y_samples : S) (y_truth : Y) (verbose : bool) :
  ~ NoDup (columns (tearsheet self)) ->
  raised (evaluate self y_samples y_truth verbose) = Some InvalidIndexError
  /\ after (evaluate self y_samples y_truth verbose) = self
  /\ (forall metric,
        metric ∈ metrics self -> fails y_samples y_truth metric ->
        (metric +:+ " not a valid metric")
        ∈ printed (evaluate self y_samples y_truth verbose)).
Proof.
  intros Hrepeated. unfold MetricsEvaluator.evaluate, append.
  pose proof (foldl_try_metric y_samples y_truth verbose (metrics self) ∅ [])
    as Hloop.
  destruct (foldl (try_metric y_samples y_truth verbose) (∅, []) (metrics self))
    as [eval_results out] eqn:Hfold.
  destruct Hloop as (_ & _ & Hfail); [by intros metric value|].
  rewrite decide_False by done. simpl in *. done.
Qed.

(** What one call of [evaluate] leaves of the object: the configuration
    untouched; the same columns when the configured names are columns
    already; a row more if the call returns. *)
Lemma evaluate_after (self : frame_t) (y_samples : S) (y_truth : Y) (verbose : bool) :
  let r := evaluate self y_samples y_truth verbose in
  metrics (after r) = metrics self /\ filename (after r) = filename self
  /\ ((forall metric, metric ∈ metrics self -> metric ∈ columns (tearsheet self)) ->
      columns (tearsheet (after r)) = columns (tearsheet self))
  /\ (NoDup (columns (tearsheet self)) ->
      exists row, rows (tearsheet (after r)) = rows (tearsheet self) ++ [row])
  /\ (raised r = None ->
      exists row, rows (tearsheet (after r)) = rows (tearsheet self) ++ [row]).
Proof.
  unfold MetricsEvaluator.evaluate, append.
  pose proof (foldl_try_metric y_samples y_truth verbose (metrics self) ∅ [])
    as Hloop.
  destruct (foldl (try_metric y_samples y_truth verbose) (∅, []) (metrics self))
    as [eval_results out] eqn:Hfold.
  destruct Hloop as (Hkeys & _ & _); [by intros metric value|].
  case_decide as Hdistinct; simpl in *; [|done].
  split; [done|]. split; [done|]. split; [|split; by eexists].
  intros Hcols. rewrite filter_none; [by rewrite app_nil_r|].
  intros metric Hin Hnew. apply Hnew, Hcols.
  apply elem_of_elements, elem_of_dom in Hin as [value Hvalue].
  apply Hkeys in Hvalue as [Hvalue|[Hm _]]; [|done].
  by rewrite lookup_empty in Hvalue.
Qed.

(** Whatever was called on an evaluator since it was constructed, it
    has the names and the destination it was configured with, and these
    names are the columns of its tearsheet. *)
Lemma replay_keeps (metrics0 : list string) (filename0 : option string)
    (history : list call) :
  let self := replay history (__init__ metrics0 filename0) in
  metrics self = metrics0
  /\ filename self = filename0
  /\ columns (tearsheet self) = metrics0.
Proof.
  induction history as [|c history IH] using rev_ind; [done|].
  cbv zeta in *. unfold MetricsEvaluator.replay in *. rewrite foldl_snoc.
  destruct IH as (Hm & Hf & Hc).
  destruct c as [y_samples y_truth verbose|]; simpl.
  - destruct (evaluate_after
                (foldl invoke (__init__ metrics0 filename0) history)
                y_samples y_truth verbose) as (Hm' & Hf' & Hc' & _).
    rewrite Hm', Hf', Hc'; [done|]. intros metric. by rewrite Hm, Hc.
  - by rewrite Hm, Hf.
Qed.

(** C7, as amended. Take an evaluator configured with any list of
    metric names, after any calls of [evaluate] and [reset], and any
    inputs. When no name is listed twice: [evaluate] raises only if a
    destination is configured and persisting to it raises, never
    because of a metric; it appends exactly one row; a metric's name is
    a cell of that row exactly when the metric resolved and returned,
    with the value it returned; a metric that does not resolve or raises
    is reported on the output and has no cell in the row. When a name is
    listed twice: failing metrics are reported all the same, then
    appending the row raises [InvalidIndexError] and the evaluator is
    left as it was, with no row for this call. *)
Theorem evaluate_isolates_metric_failures
    (metrics0 : list string) (filename0 : option string) (history : list call)
    (y_samples : S) (y_truth : Y) (verbose : bool) :
  let self := replay history (__init__ metrics0 filename0) in
  let r := evaluate self y_samples y_truth verbose in
  (NoDup metrics0 ->
   (forall e,
      raised r = Some e ->
      exists name, truthy filename0 = Some name /\ to_pickle_file name = Raise e)
   /\ (truthy filename0 = None -> raised r = None)
   /\ exists row : gmap string V,
        rows (tearsheet (after r)) = rows (tearsheet self) ++ [row]
        /\ (forall metric value,
              row !! metric = Some value
              <-> metric ∈ metrics0 /\ computes y_samples y_truth metric value)
        /\ (forall metric,
              metric ∈ metrics0 -> fails y_samples y_truth metric ->
              row !! metric = None
              /\ (metric +:+ " not a valid metric") ∈ printed r))
  /\ (~ NoDup metrics0 ->
      raised r = Some InvalidIndexError
      /\ after r = self
      /\ (forall metric,
            metric ∈ metrics0 -> fails y_samples y_truth metric ->
            (metric +:+ " not a valid metric") ∈ printed r)).
Proof.
  cbv zeta.
  destruct (replay_keeps metrics0 filename0 history) as (Hm & Hf & Hc).
  set (self := replay history (__init__ metrics0 filename0)) in *.
  split; intros Hnames.
  - pose proof (evaluate_distinct self y_samples y_truth verbose) as Hcall.
    rewrite Hm, Hf, Hc in Hcall. by apply Hcall.
  - pose proof (evaluate_repeated self y_samples y_truth verbose) as Hcall.
    rewrite Hm, Hc in Hcall. by apply Hcall.
Qed.

End MetricsEvaluatorFacts.

(** C7 on an evaluator configured with three distinct names, of which
    one computes, one does not resolve and one raises. *)
Lemma evaluate_isolates_metric_failures_witness :
  exists row : gmap string float,
    MetricsEvaluator.rows
      (MetricsEvaluator.tearsheet
         (MetricsEvaluator.after
            (MetricsEvaluator.evaluate
               Example.custom_metrics Example.format Example.to_pickle_file
               (MetricsEvaluator.__init__
                  ["bias"; "not_a_real_metric"; "broken"] None)
               [[[1%float]]] [[[1%float]]] false)))
    = [row]
    /\ row !! "broken" = None.
Proof.
  destruct (proj1 (evaluate_isolates_metric_failures
                     Example.custom_metrics Example.format Example.to_pickle_file
                     ["bias"; "not_a_real_metric"; "broken"] None []
                     [[[1%float]]] [[[1%float]]] false))
    as (_ & _ & row & Hrow & _ & Hfails).
  { apply (bool_decide_unpack _). vm_compute. exact I. }
  exists row. split; [exact Hrow|].
  apply (Hfails "broken"); [|reflexivity].
  apply (bool_decide_unpack _). vm_compute. exact I.
Defined.

(** C7 as stated fails: with the name ["bias"] listed twice the metric
    is computed, and then [evaluate] raises [InvalidIndexError] without
    recording it: the tearsheet has no row. *)
Lemma evaluate_repeated_name_counterexample :
  MetricsEvaluator.computes Example.custom_metrics
    [[[1%float]]] [[[1%float]]] "bias" 0%float
  /\ MetricsEvaluator.raised
       (MetricsEvaluator.evaluate
          Example.custom_metrics Example.format Example.to_pickle_file
          (MetricsEvaluator.__init__ ["bias"; "bias"] None)
          [[[1%float]]] [[[1%float]]] false)
     = Some InvalidIndexError
  /\ MetricsEvaluator.rows
       (MetricsEvaluator.tearsheet
          (MetricsEvaluator.after
             (MetricsEvaluator.evaluate
                Example.custom_metrics Example.format Example.to_pickle_file
                (MetricsEvaluator.__init__ ["bias"; "bias"] None)
                [[[1%float]]] [[[1%float]]] false)))
     = [].
Proof.
  split; [|split].
  - eexists. split; [reflexivity|]. vm_compute. reflexivity.
  - vm_compute. reflexivity.
  - vm_compute. reflexivity.
Qed.

(** ** CrossValidator *)

Section CrossValidatorFacts.
Import CrossValidator.
Context {A X Y S V Net Sc : Type} `{Scaler Sc X Y S}.
Variable sequentialize :
  list (list (list A)) -> Z -> Z -> option (list Z) -> result (X * Y).
Variable custom_metrics : string -> option (S -> Y -> result V).
Variable format : V -> string.
Variable to_pickle_file : string -> result unit.
Variable fit : @Forecaster Net -> X -> Y -> Z -> result (@Forecaster Net).
Variable predict : @Forecaster Net -> X -> Z -> result (@Forecaster Net * S).

Abbreviation cv := (@CrossValidator.t A V Net Sc).
Abbreviation body :=
  (CrossValidator.body custom_metrics format to_pickle_file fit predict).
Abbreviation for_rest := (CrossValidator.for_rest sequentialize).
Abbreviation for_folds := (CrossValidator.for_folds sequentialize).
Abbreviation evaluate :=
  (CrossValidator.evaluate sequentialize custom_metrics format to_pickle_file
     fit predict).

Ltac run_monad :=
  unfold mbind, M_bind, mret, M_ret, get, modify, lift, raise in *; simpl in *.

Ltac read_journal :=
  unfold fit_calls; simpl; rewrite ?omap_app; simpl; rewrite <- ?app_assoc; simpl.

Ltac no_call :=
  exists []; read_journal; rewrite !app_nil_r;
  split; [done|split; [constructor|simpl; lia]].

(** One turn of the loop: at most one call of [fit], made on a
    forecaster marked as not fitted; and without a scaler the turn
    raises before the evaluator is reached. *)
Lemma body_spec (n_samples : Z) (verbose : bool) (f : X * X * Y * Y) (w : cv) :
  (exists calls,
     fit_calls (body n_samples verbose f w).1 = fit_calls w ++ calls
     /\ Forall (fun fc => _is_fitted fc = false) calls
     /\ (length calls <= 1)%nat)
  /\ (scaler w = None ->
      evaluator (body n_samples verbose f w).1 = evaluator w
      /\ scaler (body n_samples verbose f w).1 = None
      /\ exists e,
           (body n_samples verbose f w).2 = Raise e
           /\ forall f1 f2 samples,
                fit {| _is_fitted := false; net := net (forecaster w) |}
                  f.1.1.1 f.1.2 0 = Ok f1 ->
                predict f1 f.1.1.2 n_samples = Ok (f2, samples) ->
                e = no_scaler_error).
Proof.
  destruct f as [[[X_train X_test] y_train] y_test].
  unfold CrossValidator.body, mark, scale_fold, call_fit, call_predict,
    call_inverse_transform_y, call_evaluate, unfitted.
  run_monad.
  destruct (scaler w) as [sc|] eqn:Hsc; simpl.
  - split; [|done].
    destruct (fit_transform_x sc X_train) as [[sc1 X_train']|e]; simpl;
      [|no_call].
    destruct (transform_x sc1 X_test) as [X_test'|e]; simpl;
      [|no_call].
    destruct (fit_transform_y sc1 y_train) as [[sc2 y_train']|e]; simpl;
      [|no_call].
    exists [{| _is_fitted := false; net := net (forecaster w) |}].
    split; [|split; [by repeat constructor|simpl; lia]].
    destruct (fit _ _ _ _) as [f1|e]; simpl; [|by read_journal].
    destruct (predict _ _ _) as [[f2 samples]|e]; simpl; [|by read_journal].
    destruct (inverse_transform_y sc2 samples) as [samples'|e]; simpl;
      [|by read_journal].
    destruct (MetricsEvaluator.raised _); simpl; [by read_journal|].
    destruct verbose; by read_journal.
  - split.
    + exists [{| _is_fitted := false; net := net (forecaster w) |}].
      split; [|split; [by repeat constructor|simpl; lia]].
      destruct (fit _ _ _ _) as [f1|e]; simpl; [|by read_journal].
      destruct (predict _ _ _) as [[f2 samples]|e]; simpl; [|by read_journal].
      rewrite Hsc. by read_journal.
    + intros _.
      destruct (fit _ _ _ _) as [f1|e] eqn:Hfit; simpl.
      * destruct (predict _ _ _) as [[f2 samples]|e] eqn:Hpredict; simpl.
        -- rewrite Hsc. split; [done|]. split; [done|].
           exists no_scaler_error. split; [done|]. done.
        -- rewrite Hsc. split; [done|]. split; [done|].
           exists e. split; [done|]. intros f1' f2' samples' [= <-].
           by rewrite Hpredict.
      * rewrite Hsc. split; [done|]. split; [done|].
        exists e. split; [done|]. done.
Qed.

(** The [for] loop equation: looping over a generator is taking [next]
    and running the body until the generator stops or raises. *)
Lemma for_folds_next (g : FoldGenerator.generator)
    (b : X * X * Y * Y -> M cv unit) (w : cv) :
  for_folds g b w
  = match FoldGenerator.next sequentialize g with
    | (FoldGenerator.Yielded f, g') => (b f;; for_folds g' b) w
    | (FoldGenerator.StopIteration, _) => (w, Ok tt)
    | (FoldGenerator.Raised e, _) => (w, Raise e)
    end.
Proof.
  destruct g as [fg [|T tr rest|]];
    unfold CrossValidator.for_folds, FoldGenerator.next; simpl; [| |done].
  - run_monad. destruct (FoldGenerator.lengths fg) as [[T tr]|e]; simpl; [|done].
    destruct (range (FoldGenerator.n_folds fg)) as [|i rest]; simpl; [done|].
    run_monad. by destruct (FoldGenerator.fold_at sequentialize fg T tr i).
  - destruct rest as [|i rest]; simpl; [done|].
    run_monad. by destruct (FoldGenerator.fold_at sequentialize fg T tr i).
Qed.

Ltac turn_leaf :=
  eexists _, _; split; [simpl; rewrite <- ?app_assoc; reflexivity|];
  split; [simpl; solve [econstructor; eassumption]|simpl; try done].

(** One turn of the loop, as the journal shows it: the turn starts by
    clearing the flag, calls [fit] on the forecaster so marked and
    [predict] on the forecaster that [fit] left; a turn that returns has
    done all three. *)
Lemma body_turn (n_samples : Z) (verbose : bool) (f : X * X * Y * Y) (w : cv) :
  exists block predicted,
    journal (body n_samples verbose f w).1 = journal w ++ block
    /\ turn fit predict n_samples (forecaster w) block
         (forecaster (body n_samples verbose f w).1) predicted
    /\ (is_ok (body n_samples verbose f w).2 = true ->
        predicted = true /\ length block = 3%nat).
Proof.
  destruct f as [[[X_train X_test] y_train] y_test].
  unfold CrossValidator.body, mark, scale_fold, call_fit, call_predict,
    call_inverse_transform_y, call_evaluate.
  run_monad.
  destruct (scaler w) as [sc|] eqn:Hsc; simpl.
  - destruct (fit_transform_x sc X_train) as [[sc1 X_train']|e]; simpl;
      [|turn_leaf].
    destruct (transform_x sc1 X_test) as [X_test'|e]; simpl; [|turn_leaf].
    destruct (fit_transform_y sc1 y_train) as [[sc2 y_train']|e]; simpl;
      [|turn_leaf].
    destruct (fit _ _ _ _) as [f1|e] eqn:Hfit; simpl; [|turn_leaf].
    destruct (predict _ _ _) as [[f2 samples]|e] eqn:Hpredict; simpl;
      [|turn_leaf].
    destruct (inverse_transform_y sc2 samples) as [samples'|e]; simpl;
      [|turn_leaf].
    destruct (MetricsEvaluator.raised _); simpl; [turn_leaf|].
    destruct verbose; turn_leaf.
  - destruct (fit _ _ _ _) as [f1|e] eqn:Hfit; simpl; [|turn_leaf].
    destruct (predict _ _ _) as [[f2 samples]|e] eqn:Hpredict; simpl;
      [|turn_leaf].
    rewrite Hsc. turn_leaf.
Qed.

(** The turns of a loop over what is left of the generator's range: no
    more turns than indices, and as many when the loop returns. *)
Lemma for_rest_turns (fg : FoldGenerator.t) (T tr : Z) (rest : list Z)
    (n_samples : Z) (verbose : bool) (w : cv) :
  exists blocks,
    journal (for_rest fg T tr rest (body n_samples verbose) w).1
    = journal w ++ concat blocks
    /\ turns fit predict n_samples (forecaster w) blocks
         (forecaster (for_rest fg T tr rest (body n_samples verbose) w).1)
    /\ (length blocks <= length rest)%nat
    /\ (is_ok (for_rest fg T tr rest (body n_samples verbose) w).2 = true ->
        length blocks = length rest
        /\ Forall (fun block => length block = 3%nat) blocks).
Proof.
  revert w. induction rest as [|i rest IH]; intros w; simpl.
  - exists []. simpl. rewrite app_nil_r. repeat split; try done. constructor.
  - run_monad.
    destruct (FoldGenerator.fold_at sequentialize fg T tr i) as [f|e]; simpl.
    2:{ exists []. simpl. rewrite app_nil_r. repeat split; try done; try lia.
        constructor. }
    destruct (body_turn n_samples verbose f w)
      as (block & predicted & Hj & Hturn & Hok).
    destruct (body n_samples verbose f w) as [w1 [[]|e]]; simpl in *.
    + destruct (Hok eq_refl) as [-> Hlen].
      destruct (IH w1) as (blocks & Hj' & Hturns & Hle & Hall).
      exists (block :: blocks). simpl. rewrite Hj', Hj, <- app_assoc.
      split; [done|]. split; [by econstructor|]. split; [lia|].
      intros Hret. destruct (Hall Hret) as [Hlen' Hblocks].
      split; [lia|]. by constructor.
    + exists [block]. simpl. rewrite app_nil_r. split; [done|].
      split; [by econstructor|]. split; [lia|done].
Qed.

Lemma turn_fit_calls (n_samples : Z) (f0 f1 : Forecaster) (block : list event)
    (predicted : bool) (f : Forecaster) :
  turn fit predict n_samples f0 block f1 predicted ->
  FitCalled f ∈ block -> f = unfitted f0.
Proof.
  intros Hturn Hin. destruct Hturn;
    repeat (apply elem_of_cons in Hin as [[=]|Hin]; try done);
    by apply elem_of_nil in Hin.
Qed.

Lemma turns_fit_calls (n_samples : Z) (f0 f1 : Forecaster)
    (blocks : list (list event)) (f : Forecaster) :
  turns fit predict n_samples f0 blocks f1 ->
  FitCalled f ∈ concat blocks -> _is_fitted f = false.
Proof.
  induction 1 as [f0|f0 block f1 predicted Hturn|f0 block f1 blocks f2 Hturn _ IH];
    simpl.
  - intros Hin. by apply elem_of_nil in Hin.
  - rewrite app_nil_r. intros Hin.
    by rewrite (turn_fit_calls _ _ _ _ _ _ Hturn Hin).
  - intros [Hin|Hin]%elem_of_app; [|by apply IH].
    by rewrite (turn_fit_calls _ _ _ _ _ _ Hturn Hin).
Qed.


(** C10. Without a scaler, if the fold generator yields a first fold,
    [evaluate] raises while processing it: at most one call of [fit] was
    made, the evaluator was reset and never reached, and if fitting and
    predicting on that fold return, the exception is the missing
    attribute [inverse_transform_y] on [None]. *)
Theorem evaluate_without_scaler_fails (n_samples : Z) (verbose : bool) (self : cv)
    (f : X * X * Y * Y) (g' : FoldGenerator.generator) :
  scaler self = None ->
  FoldGenerator.next sequentialize (FoldGenerator.__call__ (fold_generator self))
  = (FoldGenerator.Yielded f, g') ->
  exists e calls,
    (evaluate n_samples verbose self).2 = Raise e
    /\ fit_calls (evaluate n_samples verbose self).1 = fit_calls self ++ calls
    /\ (length calls <= 1)%nat
    /\ MetricsEvaluator.rows
         (MetricsEvaluator.tearsheet (evaluator (evaluate n_samples verbose self).1))
       = []
    /\ forall f1 f2 samples,
         fit {| _is_fitted := false; net := net (forecaster self) |}
           f.1.1.1 f.1.2 0 = Ok f1 ->
         predict f1 f.1.1.2 n_samples = Ok (f2, samples) ->
         e = no_scaler_error.
Proof.
  intros Hsc Hnext.
  unfold FoldGenerator.next in Hnext. simpl in Hnext.
  unfold CrossValidator.evaluate, CrossValidator.for_folds. run_monad.
  destruct (FoldGenerator.lengths (fold_generator self)) as [[T tr]|e0]; [|done].
  destruct (range (FoldGenerator.n_folds (fold_generator self))) as [|i rest];
    [done|].
  simpl in *. run_monad.
  destruct (FoldGenerator.fold_at sequentialize (fold_generator self) T tr i)
    as [f0|e0]; [|done].
  injection Hnext as <- _. simpl.
  destruct (body_spec n_samples verbose f0
              (set_evaluator (MetricsEvaluator.reset (evaluator self)) self))
    as [(calls & Hcalls & _ & Hlen) Hnone].
  destruct (Hnone Hsc) as (Hev & _ & e & Hraise & Hwhy).
  destruct (body n_samples verbose f0 _) as [w1 r1]. simpl in *. subst r1.
  exists e, calls. simpl. split; [done|]. split; [done|]. split; [done|].
  split; [by rewrite Hev|]. exact Hwhy.
Qed.

End CrossValidatorFacts.

(** ** Optimizer *)

Section OptimizerFacts.
Import Optimizer.
Context {Val Space : Type}.

(** C9 on the code. Whatever the trial: the loop of [get_objective]
    fails on its first item, the key ["model"] of the dict of
    [get_args], which does not unpack into two values; no attribute of
    the forecaster, its model or its optimizer is assigned. *)
Theorem get_objective_always_raises (self : @Optimizer.t Val)
    (args : gmap string Val) (space : Space) (f : Forecaster) :
  get_objective self args space f
  = (f, Raise (ValueError "too many values to unpack (expected 2)")).
Proof. reflexivity. Qed.

(** What the specification asks for the trial [{"filters": v}]: the
    value is assigned on the model. *)
Lemma spec_route_filters (f : @Forecaster Val) (v : Val) :
  spec_route f "filters" v
  = Ok {| this := this f; model := setattr (model f) "filters" (Hyper v);
          _optimizer := _optimizer f |}.
Proof. reflexivity. Qed.

End OptimizerFacts.



(** The hypotheses of C10 hold on the example cross-validator built
    without a scaler. *)
Lemma evaluate_without_scaler_fails_witness :
  (Example.evaluate 10 false Example.without_scaler).2
  = Raise CrossValidator.no_scaler_error.
Proof.
  assert (exists f g',
             FoldGenerator.next utils.sequentialize
               (FoldGenerator.__call__ scenario)
             = (FoldGenerator.Yielded f, g')) as (f & g' & Hnext)
    by (vm_compute; eexists _, _; reflexivity).
  destruct (evaluate_without_scaler_fails
              utils.sequentialize Example.custom_metrics Example.format
              Example.to_pickle_file Example.fit Example.predict
              10 false Example.without_scaler f g' eq_refl Hnext)
    as (e & calls & Hraise & _ & _ & _ & Hwhy).
  specialize (Hwhy _ _ _ eq_refl eq_refl). subst e. exact Hraise.
Defined.

(** ** The specification's scenarios, run *)

(** Scenario 7: two folds, each with as many inputs as targets; the test
    targets of fold 0 and of fold 1 start at rows 90 and 80. *)
Example scenario_folds :
  (fun '(X_train, X_test, y_train, y_test) =>
     (length X_train, length y_train, length X_test, length y_test,
      head y_test))
  <$> (FoldGenerator.drain utils.sequentialize (FoldGenerator.__call__ scenario)).1
  = [(225%nat, 225%nat, 30%nat, 30%nat, Some [[90%float]]);
     (225%nat, 225%nat, 30%nat, 30%nat, Some [[80%float]])].
Proof. vm_compute. reflexivity. Qed.

(** With the lag longer than the training length the second fold's test
    window leaves the series: one fold is yielded, then [IndexError]. *)
Example long_lag_folds :
  FoldGenerator.lengths long_lag = Ok (1, 8)
  /\ length (FoldGenerator.drain utils.sequentialize
               (FoldGenerator.__call__ long_lag)).1 = 1%nat
  /\ (FoldGenerator.drain utils.sequentialize
        (FoldGenerator.__call__ long_lag)).2 = Some IndexError.
Proof. vm_compute. done. Qed.

(** Scenario 5 and property 6 on one run with a scaler: the run returns;
    [fit] was called twice, each time on an unfitted forecaster although
    each [fit] marks it fitted; the two rows hold ["bias"] and no cell
    for the name that does not resolve and the metric that raises, which
    are reported. *)
Example evaluate_with_scaler :
  is_ok (Example.evaluate 10 false Example.with_scaler).2 = true
  /\ CrossValidator._is_fitted
     <$> CrossValidator.fit_calls (Example.evaluate 10 false Example.with_scaler).1
     = [false; false]
  /\ CrossValidator._is_fitted
       (CrossValidator.forecaster (Example.evaluate 10 false Example.with_scaler).1)
     = true
  /\ (fun row : gmap string float =>
        (row !! "bias", row !! "not_a_real_metric", row !! "broken"))
     <$> MetricsEvaluator.rows
           (MetricsEvaluator.tearsheet
              (CrossValidator.evaluator
                 (Example.evaluate 10 false Example.with_scaler).1))
     = [(Some 0%float, None, None); (Some 0%float, None, None)]
  /\ CrossValidator.stdout (Example.evaluate 10 false Example.with_scaler).1
     = ["not_a_real_metric not a valid metric"; "broken not a valid metric";
        "not_a_real_metric not a valid metric"; "broken not a valid metric"].
Proof. vm_compute. done. Qed.

(** Scenario 8 on the code and on the specification's routing. *)
Example optimizer_routing (f : @Optimizer.Forecaster Z) :
  Optimizer.get_objective (Space := unit)
    {| Optimizer.forecaster := f |} {["filters" := 64]} tt f
  = (f, Raise (ValueError "too many values to unpack (expected 2)"))
  /\ is_ok (Optimizer.spec_route f "filters" 64) = true
  /\ is_ok (Optimizer.spec_route f "lr" 1) = true
  /\ is_ok (Optimizer.spec_route f "epochs" 10) = true
  /\ Optimizer.spec_route f "bogus" 0
     = Raise (ValueError "bogus not a valid argument").
Proof. by repeat split. Qed.

(** ** FoldGenerator: edge cases and the geometry of the windows *)

Lemma slice_length {A} (a : list A) lo hi :
  0 <= lo -> hi <= Z.of_nat (length a) ->
  length (slice a lo hi) = Z.to_nat (hi - lo).
Proof.
  intros Hlo Hhi. unfold slice. rewrite length_take, length_drop. lia.
Qed.

Lemma slice_app {A} (a : list A) lo mid hi :
  0 <= lo <= mid -> mid <= hi ->
  slice a lo mid ++ slice a mid hi = slice a lo hi.
Proof.
  intros Hlo Hhi. unfold slice.
  replace (Z.to_nat (hi - lo))
    with (Z.to_nat (mid - lo) + Z.to_nat (hi - mid))%nat by lia.
  rewrite <- take_take_drop, drop_drop.
  by replace (Z.to_nat lo + Z.to_nat (mid - lo))%nat with (Z.to_nat mid) by lia.
Qed.

Lemma take_slice {A} (a : list A) lo hi (k : nat) :
  Z.of_nat k <= hi - lo -> take k (slice a lo hi) = slice a lo (lo + Z.of_nat k).
Proof.
  intros Hk. unfold slice. rewrite take_take.
  by replace (k `min` Z.to_nat (hi - lo))%nat
    with (Z.to_nat (lo + Z.of_nat k - lo)) by lia.
Qed.

Lemma drop_slice {A} (a : list A) lo hi (k : nat) :
  0 <= lo -> drop k (slice a lo hi) = slice a (lo + Z.of_nat k) hi.
Proof.
  intros Hlo. unfold slice. rewrite skipn_firstn_comm, drop_drop.
  replace (Z.to_nat (hi - lo) - k)%nat
    with (Z.to_nat (hi - (lo + Z.of_nat k))) by lia.
  by replace (Z.to_nat lo + k)%nat with (Z.to_nat (lo + Z.of_nat k)) by lia.
Qed.

Lemma slice_nil {A} (a : list A) lo hi : hi <= lo -> slice a lo hi = [].
Proof.
  intros Hle. unfold slice. by replace (Z.to_nat (hi - lo)) with 0%nat by lia.
Qed.

Lemma slice_to_end {A} (a : list A) lo :
  slice a lo (Z.of_nat (length a)) = drop (Z.to_nat lo) a.
Proof.
  unfold slice. apply take_ge. rewrite length_drop. lia.
Qed.

Section FoldGeneratorEdges.
Import FoldGenerator.
Context {A X Y : Type}.
Variable sequentialize :
  list (list (list A)) -> Z -> Z -> option (list Z) -> result (X * Y).

Abbreviation t := (@FoldGenerator.t A).
Abbreviation fold := (@FoldGenerator.fold X Y).
Abbreviation fold_at := (FoldGenerator.fold_at sequentialize).
Abbreviation next := (FoldGenerator.next sequentialize).
Abbreviation observe := (FoldGenerator.observe sequentialize).
Abbreviation drain := (FoldGenerator.drain sequentialize).
Abbreviation drain_rest := (FoldGenerator.drain_rest sequentialize).

(** X1. The configurations the generator rejects before any fold: the
    lengths cannot be computed exactly when the collection is empty
    ([max] of nothing), or the product of the longest length and the test
    fraction is an infinity or NaN ([int] of it). The error is raised by
    the first [next], not by the call that creates the generator, and
    the generator is exhausted after it. *)
Theorem generate_folds_rejects_configuration (self : t) (e : exn) :
  (lengths self = Raise e
   <-> (data self = []
        /\ e = ValueError "max() arg is an empty sequence")
       \/ exists L,
            data_length self = Ok L
            /\ ((exists s, Prim2SF (float_of_Z L * test_fraction self)
                           = S754_infinity s)
                /\ e = OverflowError
                \/ Prim2SF (float_of_Z L * test_fraction self) = S754_nan
                   /\ e = ValueError "cannot convert float NaN to integer"))
  /\ (lengths self = Raise e ->
      observe 2 (__call__ self) = [Raised e; StopIteration]
      /\ drain (__call__ self) = ([], Some e)).
Proof.
  split.
  - unfold lengths, data_length.
    destruct (data self) as [|ts rest] eqn:Hdata; simpl.
    + split.
      * intros [= <-]. by left.
      * intros [[_ ->]|(L & [=] & _)]; done.
    + unfold py_int.
      destruct (Prim2SF _) as [s|s| |s m x] eqn:Hprod; simpl; split;
        try done.
      all: try (intros [[[=] _]|(L & [= <-] & [[[s' Hs] _]|[Hn _]])];
                rewrite Hprod in *; done).
      * intros [= <-]. right. eexists. split; [done|]. left. split; [|done].
        by exists s.
      * intros [[[=] _]|(L & [= <-] & [[_ ->]|[Hn _]])]; [done|].
        rewrite Hprod in Hn. done.
      * intros [= <-]. right. eexists. split; [done|]. by right.
      * intros [[[=] _]|(L & [= <-] & [[[s' Hs] _]|[_ ->]])]; [|done].
        rewrite Hprod in Hs. done.
  - intros Hlen. unfold FoldGenerator.drain. simpl.
    unfold FoldGenerator.next; simpl. by rewrite Hlen.
Qed.


Lemma drain_rest_elem (self : t) T tr rest (folds : list fold) (e : option exn) f :
  drain_rest self T tr rest = (folds, e) -> f ∈ folds ->
  exists i, i ∈ rest /\ fold_at self T tr i = Ok f.
Proof.
  revert folds e. induction rest as [|i rest IH]; intros folds e; simpl.
  - intros [= <- _] Hf. by apply elem_of_nil in Hf.
  - destruct (fold_at self T tr i) as [f0|e0] eqn:Hi.
    + destruct (drain_rest self T tr rest) as [fs e1]. intros [= <- _] Hf.
      apply elem_of_cons in Hf as [->|Hf].
      * exists i. split; [left|done].
      * destruct (IH fs e1 eq_refl Hf) as (j & Hj & Hfj).
        exists j. split; [by right|done].
    + intros [= <- _] Hf. by apply elem_of_nil in Hf.
Qed.

(** X2. When the test fraction is so small that [int(L * test_fraction)]
    is zero, the training length is the whole length [L], no row is held
    out, and every fold the generator yields is the same fold: the one
    computed for index 0. *)
Theorem zero_test_length_repeats_fold (self : t) (tr : Z)
    (folds : list fold) (e : option exn) :
  lengths self = Ok (0, tr) -> drain (__call__ self) = (folds, e) ->
  data_length self = Ok tr
  /\ (forall i, test_ind self 0 i = arange (- lag self) 0)
  /\ forall f, f ∈ folds -> fold_at self 0 tr 0 = Ok f.
Proof.
  intros Hlen Hdrain. split; [|split].
  - unfold lengths in Hlen. destruct (data_length self) as [L|]; simpl in *; [|done].
    destruct (py_int _) as [T|]; simpl in *; [|done].
    injection Hlen as -> <-. f_equal. lia.
  - intros i. unfold test_ind. f_equal; lia.
  - unfold FoldGenerator.drain in Hdrain. simpl in Hdrain. rewrite Hlen in Hdrain.
    intros f Hf.
    destruct (drain_rest_elem self 0 tr _ folds e f Hdrain Hf) as (i & _ & <-).
    unfold FoldGenerator.fold_at, stack_slices, slice_series, train_ind, test_ind.
    by replace (- (i + 1) * 0) with (- (0 + 1) * 0) by lia;
       replace (- i * 0) with (- 0 * 0) by lia.
Qed.

(** X3. When lines 145-158 return, the stacked arrays are rectangular:
    one train slice and one test slice per series, every train slice of
    [train_length] rows and every test slice of [lag + test_length]
    rows, whatever the lengths of the series, and all series with the
    same number of variables. *)
Theorem stack_slices_shapes (self : t) (T tr i : Z)
    (data_train data_test : list (list (list A))) :
  stack_slices self T tr i = Ok (data_train, data_test) ->
  length data_train = length (data self)
  /\ length data_test = length (data self)
  /\ Forall (fun s => length s = Z.to_nat tr) data_train
  /\ Forall (fun s => length s = Z.to_nat (lag self + T)) data_test
  /\ same_variables self.
Proof.
  destruct (mapM (fun ts => slice_series self T tr i (steps ts)) (data self))
    as [slices|] eqn:Hmap.
  2:{ unfold stack_slices. by rewrite Hmap. }
  destruct (stack_slices_taken self T tr i slices Hmap) as [Hok Hraise].
  destruct (same_variables_dec self) as [Hsame|Hnot]; [|by rewrite Hraise].
  rewrite Hok by done.
  intros [= <- <-]. rewrite !length_fmap, (mapM_length _ _ _ Hmap).
  split; [done|]. split; [done|].
  apply mapM_Forall2_ok in Hmap.
  assert (Forall (fun p : list (list A) * list (list A) =>
                    length p.1 = Z.to_nat tr
                    /\ length p.2 = Z.to_nat (lag self + T)) slices) as Hall.
  { eapply Forall2_Forall_r; [exact Hmap|]. apply Forall_forall.
    intros ts _ [train test]. unfold slice_series.
    destruct (fancy_index (steps ts) (train_ind T tr i)) as [tr'|] eqn:Htr;
      simpl; [|done].
    destruct (fancy_index (steps ts) (test_ind self T i)) as [te'|] eqn:Hte;
      simpl; [|done].
    intros [= <- <-]. simpl.
    apply mapM_length in Htr, Hte. rewrite Htr, Hte.
    unfold train_ind, test_ind. rewrite !arange_length. split; f_equal; lia. }
  split; [|split; [|done]];
    apply Forall_fmap; eapply Forall_impl; try exact Hall; by intros p [? ?].
Qed.

(** What a slice that was returned holds, in rows of the series counted
    from its start. *)
Lemma slice_series_rows (self : t) (T tr i : Z) (ts train test : list (list A)) :
  0 <= T -> 0 <= i -> 0 <= lag self <= tr ->
  slice_series self T tr i ts = Ok (train, test) ->
  let n := Z.of_nat (length ts) in
  train = slice ts (n - (i + 1) * T - tr) (n - (i + 1) * T)
  /\ test = slice ts (n - (i + 1) * T - lag self) (n - i * T)
  /\ (0 <= n - (i + 1) * T - tr \/ (tr = 0 /\ T = 0)
      \/ (tr = 0 /\ 0 <= n - (i + 1) * T)).
Proof.
  intros HT Hi Hlag. rewrite slice_series_spec by lia.
  unfold spec_slices, spec_window.
  repeat case_decide; simpl; try done.
  intros [= <- <-]. cbv zeta. split; [f_equal; lia|]. split; [f_equal; lia|]. nia.
Qed.

(** X4. The context of a test window is training data: with
    [0 <= lag <= train_length], the first [lag] rows of a fold's test
    slice are the last [lag] rows of its train slice of the same
    series. *)
Theorem test_slice_starts_with_train_tail (self : t) (T tr i : Z)
    (ts train test : list (list A)) :
  0 <= T -> 0 <= i -> 0 <= lag self <= tr ->
  slice_series self T tr i ts = Ok (train, test) ->
  take (Z.to_nat (lag self)) test = drop (Z.to_nat (tr - lag self)) train.
Proof.
  intros HT Hi Hlag Hslice.
  destruct (slice_series_rows self T tr i ts train test HT Hi Hlag Hslice)
    as (-> & -> & Hbounds).
  destruct Hbounds as [Hin|[[-> ->]|[-> Hin]]].
  - rewrite take_slice, drop_slice by lia. f_equal; lia.
  - assert (lag self = 0) as -> by lia. by rewrite take_0, drop_0, slice_nil by lia.
  - assert (lag self = 0) as -> by lia. by rewrite take_0, drop_0, slice_nil by lia.
Qed.

(** X5. No look-ahead: with [0 <= lag <= train_length], the rows a fold
    trains on, followed by the rows it holds out (its test slice without
    the [lag] rows of context), are one contiguous run of the series, so
    every training row comes before every held-out row. *)
Theorem train_rows_precede_held_out_rows (self : t) (T tr i : Z)
    (ts train test : list (list A)) :
  0 <= T -> 0 <= i -> 0 <= lag self <= tr ->
  slice_series self T tr i ts = Ok (train, test) ->
  let n := Z.of_nat (length ts) in
  train ++ drop (Z.to_nat (lag self)) test
  = slice ts (n - (i + 1) * T - tr) (n - i * T)
  /\ length (drop (Z.to_nat (lag self)) test) = Z.to_nat T.
Proof.
  intros HT Hi Hlag Hslice n.
  destruct (slice_series_rows self T tr i ts train test HT Hi Hlag Hslice)
    as (-> & -> & Hbounds). fold n.
  destruct Hbounds as [Hin|[[-> ->]|[-> Hin]]].
  - rewrite drop_slice by lia.
    replace (n - (i + 1) * T - lag self + Z.of_nat (Z.to_nat (lag self)))
      with (n - (i + 1) * T) by lia.
    split; [apply slice_app; nia|]. rewrite slice_length; nia.
  - assert (lag self = 0) as -> by lia. rewrite !slice_nil by lia. done.
  - assert (lag self = 0) as -> by lia. rewrite drop_0.
    rewrite (slice_nil ts (n - (i + 1) * T - 0)) by lia. simpl. split.
    + f_equal; lia.
    + rewrite slice_length; nia.
Qed.

(** X6. The folds cover the series from end to end: fold 0 holds out the
    last [test_length] rows of a series of the maximal length, and the
    last fold ([n_folds - 1]) trains on its first [train_length] rows. *)
Theorem folds_span_the_series (self : t) (T tr L : Z)
    (ts train test train' test' : list (list A)) :
  data_length self = Ok L -> lengths self = Ok (T, tr) ->
  Z.of_nat (length ts) = L -> 0 <= T -> 0 <= lag self <= tr -> 0 < n_folds self ->
  slice_series self T tr 0 ts = Ok (train, test) ->
  slice_series self T tr (n_folds self - 1) ts = Ok (train', test') ->
  drop (Z.to_nat (lag self)) test = drop (Z.to_nat (L - T)) ts
  /\ train' = take (Z.to_nat tr) ts.
Proof.
  intros HL Hlen Hts HT Hlag Hn Hfirst Hlast.
  assert (L = tr + n_folds self * T) as HLeq.
  { unfold lengths in Hlen. rewrite HL in Hlen. simpl in Hlen.
    destruct (py_int _) as [T'|]; simpl in Hlen; [|done].
    injection Hlen as -> <-. lia. }
  destruct (slice_series_rows self T tr 0 ts train test HT ltac:(lia) Hlag Hfirst)
    as (_ & -> & Hb).
  destruct (slice_series_rows self T tr (n_folds self - 1) ts train' test' HT
              ltac:(lia) Hlag Hlast)
    as (-> & _ & Hb').
  split.
  - transitivity (slice ts (L - T) (Z.of_nat (length ts)));
      [|rewrite <- Hts; apply slice_to_end].
    destruct Hb as [Hin|[[-> ->]|[-> Hin]]].
    + rewrite drop_slice by lia. f_equal; lia.
    + assert (lag self = 0) as -> by lia. rewrite drop_0. f_equal; lia.
    + assert (lag self = 0) as -> by lia. rewrite drop_0. f_equal; lia.
  - unfold slice.
    replace (Z.to_nat (Z.of_nat (length ts) - (n_folds self - 1 + 1) * T - tr))
      with 0%nat by lia.
    rewrite drop_0. f_equal. lia.
Qed.

End FoldGeneratorEdges.

(** The hypotheses of X2 hold on [short_series]: 5 rows and a test
    fraction of 0.1 give a test length of zero, and both folds are the
    fold of index 0. *)
Lemma zero_test_length_repeats_fold_witness :
  exists folds,
    FoldGenerator.drain utils.sequentialize (FoldGenerator.__call__ short_series)
    = (folds, None)
    /\ length folds = 2%nat
    /\ forall f, f ∈ folds ->
         FoldGenerator.fold_at utils.sequentialize short_series 0 5 0 = Ok f.
Proof.
  assert (exists folds,
             FoldGenerator.drain utils.sequentialize
               (FoldGenerator.__call__ short_series) = (folds, None)
             /\ length folds = 2%nat) as (folds & Hdrain & Hlen)
    by (vm_compute; eexists; split; reflexivity).
  exists folds. split; [exact Hdrain|]. split; [exact Hlen|].
  exact (proj2 (proj2 (zero_test_length_repeats_fold utils.sequentialize
                         short_series 5 folds None eq_refl Hdrain))).
Defined.

(** The hypothesis of X3 holds on [scenario] at its second fold. *)
Lemma stack_slices_shapes_witness :
  exists data_train data_test,
    FoldGenerator.stack_slices scenario 10 80 1 = Ok (data_train, data_test)
    /\ length data_train = 3%nat
    /\ Forall (fun s => length s = 80%nat) data_train
    /\ Forall (fun s => length s = 15%nat) data_test
    /\ FoldGenerator.same_variables scenario.
Proof.
  assert (exists p, FoldGenerator.stack_slices scenario 10 80 1 = Ok p)
    as [[data_train data_test] Hstack] by (vm_compute; eexists; reflexivity).
  exists data_train, data_test. split; [exact Hstack|].
  destruct (stack_slices_shapes scenario 10 80 1 data_train data_test Hstack)
    as (Htrain & _ & Hrows & Hrows' & Hsame).
  split; [exact Htrain|]. split; [exact Hrows|]. split; [exact Hrows'|exact Hsame].
Defined.

(** The hypotheses of X4 hold on a series of [scenario] at its second
    fold. *)
Lemma test_slice_starts_with_train_tail_witness :
  exists train test,
    FoldGenerator.slice_series scenario 10 80 1 (ramp 100) = Ok (train, test)
    /\ take 5 test = drop 75 train.
Proof.
  assert (exists p, FoldGenerator.slice_series scenario 10 80 1 (ramp 100) = Ok p)
    as [[train test] Hslice] by (vm_compute; eexists; reflexivity).
  exists train, test. split; [exact Hslice|].
  apply (test_slice_starts_with_train_tail scenario 10 80 1 (ramp 100) train test);
    [lia|lia|simpl; lia|exact Hslice].
Defined.

(** The hypotheses of X5 hold on a series of [scenario] at its second
    fold: rows 0 to 79 are trained on, rows 80 to 89 are held out. *)
Lemma train_rows_precede_held_out_rows_witness :
  exists train test,
    FoldGenerator.slice_series scenario 10 80 1 (ramp 100) = Ok (train, test)
    /\ train ++ drop 5 test = slice (ramp 100) 0 90.
Proof.
  assert (exists p, FoldGenerator.slice_series scenario 10 80 1 (ramp 100) = Ok p)
    as [[train test] Hslice] by (vm_compute; eexists; reflexivity).
  exists train, test. split; [exact Hslice|].
  apply (train_rows_precede_held_out_rows scenario 10 80 1 (ramp 100) train test);
    [lia|lia|simpl; lia|exact Hslice].
Defined.

(** The hypotheses of X6 hold on a series of [scenario]. *)
Lemma folds_span_the_series_witness :
  exists train test train' test',
    FoldGenerator.slice_series scenario 10 80 0 (ramp 100) = Ok (train, test)
    /\ FoldGenerator.slice_series scenario 10 80 1 (ramp 100) = Ok (train', test')
    /\ drop 5 test = drop 90 (ramp 100)
    /\ train' = take 80 (ramp 100).
Proof.
  assert (exists p, FoldGenerator.slice_series scenario 10 80 0 (ramp 100) = Ok p)
    as [[train test] Hfirst] by (vm_compute; eexists; reflexivity).
  assert (exists p, FoldGenerator.slice_series scenario 10 80 1 (ramp 100) = Ok p)
    as [[train' test'] Hlast] by (vm_compute; eexists; reflexivity).
  exists train, test, train', test'. split; [exact Hfirst|]. split; [exact Hlast|].
  apply (folds_span_the_series scenario 10 80 100 (ramp 100) train test train' test');
    [vm_compute; reflexivity|vm_compute; reflexivity|vm_compute; reflexivity
    |lia|simpl; lia|simpl; lia|exact Hfirst|exact Hlast].
Defined.

(** ** VectorScaler: errors, shapes and what a fit leaves behind *)

Section VectorScalerEdges.
Import VectorScaler.
Context {T : Type} `{Dtype T}.

Abbreviation matrix := (list (list T)).
Abbreviation array3 := (list (list (list T))).

Lemma scale_raise (mean std : option matrix) (a : array3) (e : exn) :
  scale mean std a = Raise e ->
  (e = broadcast_error /\ is_Some mean /\ is_Some std)
  \/ (exists msg, e = TypeError msg) /\ (mean = None \/ std = None).
Proof.
  unfold scale. destruct mean as [m|], std as [sd|];
    try (intros [= <-]; right; split; [by eexists|by (left + right)]).
  destruct (ewise32 sub a m) as [centred|e'] eqn:Hsub; simpl.
  - intros He%ewise32_raise. left. by repeat split.
  - intros [= <-]. apply ewise32_raise in Hsub. left. by repeat split.
Qed.

Lemma invoke_unfitted (self : t) (c : call) :
  (x_is_fitted self = false -> x_mean self = None /\ x_std self = None) ->
  (y_is_fitted self = false -> y_mean self = None /\ y_std self = None) ->
  (x_is_fitted (invoke self c) = false ->
   x_mean (invoke self c) = None /\ x_std (invoke self c) = None)
  /\ (y_is_fitted (invoke self c) = false ->
      y_mean (invoke self c) = None /\ y_std (invoke self c) = None).
Proof.
  intros Hx Hy. destruct c as [X|y|X|y|X|y|X|y]; simpl; try done.
  all: destruct (fit_x self X) as [self'|e] eqn:Hfit; simpl; [|done].
  all: apply fit_x_sets in Hfit as (_ & Hfx & _ & _ & Hfy & Hym & Hys).
  all: rewrite Hfx, Hfy, Hym, Hys; done.
Qed.

Lemma replay_unfitted (history : list call) (targets0 : option (list Z)) :
  let self := replay history (__init__ targets0) in
  (x_is_fitted self = false -> x_mean self = None /\ x_std self = None)
  /\ (y_is_fitted self = false -> y_mean self = None /\ y_std self = None).
Proof.
  induction history as [|c history [IHx IHy]] using rev_ind; [done|].
  cbv zeta. rewrite replay_snoc. by apply invoke_unfitted.
Qed.

(** X7. Transforming before fitting is a [TypeError], not the "Not
    fitted" error of the inverse transforms: after any history of calls
    on a new scaler, and for an array with at least one entry (numpy
    raises nothing when there is no entry to subtract [None] from),
    [transform_x] raises [TypeError] exactly when no [fit_x] has
    returned, and [transform_y] exactly when [fit_y] was never called. *)
Theorem transform_before_fit_is_type_error
    (targets0 : option (list Z)) (history : list call) (a : array3) :
  let self := replay history (__init__ targets0) in
  is_Some (entry a 0 0 0) ->
  ((exists msg, transform_x self a = Raise (TypeError msg))
   <-> x_is_fitted self = false)
  /\ ((exists msg, transform_y self a = Raise (TypeError msg))
      <-> y_is_fitted self = false).
Proof.
  intros self _.
  destruct (replay_unfitted history targets0) as [Hx Hy]. fold self in Hx, Hy.
  destruct (replay_stats history (__init__ targets0)) as [Hx' Hy']; [done|done|].
  fold self in Hx', Hy'.
  unfold transform_x, transform_y. split; split.
  - intros [msg Hs]. destruct (x_is_fitted self); [|done].
    destruct Hx' as [[m Hm] [sd Hsd]]; [done|]. rewrite Hm, Hsd in Hs.
    apply scale_raise in Hs as [[[=] _]|[_ [[=]|[=]]]].
  - intros [-> ->]%Hx. by eexists.
  - intros [msg Hs]. destruct (y_is_fitted self); [|done].
    destruct Hy' as [[m Hm] [sd Hsd]]; [done|]. rewrite Hm, Hsd in Hs.
    apply scale_raise in Hs as [[[=] _]|[_ [[=]|[=]]]].
  - intros [-> ->]%Hy. by eexists.
Qed.

(** The statistics a fit stores have the shape of a sample. *)
Lemma fit_x_stats_shape (self self' : t) (n L F : nat) (X : array3) :
  rect3 (S n) L F X -> fit_x self X = Ok self' ->
  exists m sd,
    x_mean self' = Some m /\ x_std self' = Some sd
    /\ rect2 L F m /\ rect2 L F sd /\ x_is_fitted self' = true.
Proof.
  intros HX Hfit. destruct (targets self) as [tg|] eqn:Htg.
  - destruct (fit_x_restricted self self' tg X n L F Htg HX Hfit)
      as (mt & st & Hmt & Hst & Hk & -> & -> & Hflag).
    eexists _, _. split; [done|]. split; [done|].
    split; [by apply rect2_pad|]. split; [by apply rect2_pad|done].
  - unfold fit_x in Hfit. rewrite Htg in Hfit. injection Hfit as <-. simpl.
    eexists _, _. split; [done|]. split; [done|].
    split; [by apply (rect2_mean0 n)|]. split; [by apply (rect2_std0 n)|done].
Qed.

(** X8. After a fit on a non-empty rectangular array, transforming and
    inverse-transforming arrays of the same sample shape never raise and
    return arrays of the shape they were given, in either mode of the
    scaler. *)
Theorem transforms_keep_shape (self self' : t) (n k L F : nat) (X a : array3) :
  rect3 (S n) L F X -> fit_x self X = Ok self' -> rect3 k L F a ->
  (exists a', transform_x self' a = Ok a' /\ rect3 k L F a')
  /\ (exists a', inverse_transform_x self' a = Ok a' /\ rect3 k L F a').
Proof.
  intros HX Hfit [Hk Ha].
  destruct (fit_x_stats_shape self self' n L F X HX Hfit)
    as (m & sd & Hm & Hsd & Hrm & Hrsd & Hflag).
  unfold transform_x, inverse_transform_x. rewrite Hm, Hsd, Hflag.
  rewrite (scale_same L F), (unscale_same L F) by done. split.
  - eexists. split; [done|]. split; [by rewrite length_fmap|].
    apply Forall_fmap. eapply Forall_impl; [exact Ha|].
    intros sample Hs. simpl. by do 2 (apply rect2_zip_with; [|done]).
  - eexists. split; [done|]. split; [by rewrite length_fmap|].
    apply Forall_fmap. eapply Forall_impl; [exact Ha|].
    intros sample Hs. simpl. by do 2 (apply rect2_zip_with; [|done]).
Qed.


Lemma getitem_in_range {B} (row : list B) (k : Z) :
  - Z.of_nat (length row) <= k < Z.of_nat (length row) ->
  is_ok (getitem row k) = true.
Proof.
  intros Hk. unfold getitem. rewrite decide_True by done.
  destruct (lookup_lt_is_Some_2 row
              (Z.to_nat (if decide (k < 0) then k + Z.of_nat (length row) else k)))
    as [x ->]; [case_decide; lia|done].
Qed.

Lemma getitem_out_of_range {B} (row : list B) (k : Z) :
  ~ - Z.of_nat (length row) <= k < Z.of_nat (length row) ->
  getitem row k = Raise IndexError.
Proof. intros Hk. unfold getitem. by rewrite decide_False. Qed.

Lemma fancy_index_in_range {B} (row : list B) (ind : list Z) :
  Forall (fun k => - Z.of_nat (length row) <= k < Z.of_nat (length row)) ind ->
  is_ok (fancy_index row ind) = true.
Proof.
  intros Hall. unfold fancy_index.
  destruct (mapM_ok_all (getitem row) ind) as (r & -> & _); [|done].
  intros k Hk. apply getitem_in_range.
  by apply (proj1 (Forall_forall _ _) Hall).
Qed.

Lemma fancy_index_out_of_range {B} (row : list B) (ind : list Z) :
  ~ Forall (fun k => - Z.of_nat (length row) <= k < Z.of_nat (length row)) ind ->
  fancy_index row ind = Raise IndexError.
Proof.
  unfold fancy_index. induction ind as [|k ind IH]; intros Hnot.
  - destruct Hnot. constructor.
  - cbn [mapM].
    destruct (decide (- Z.of_nat (length row) <= k < Z.of_nat (length row)))
      as [Hk|Hk].
    + destruct (is_ok_true _ (getitem_in_range row k Hk)) as [x ->].
      rewrite bind_ok, IH; [done|]. intros Hall. apply Hnot. by constructor.
    + by rewrite getitem_out_of_range.
Qed.

(** X9. What [fit_x] does in target-restricted mode on a non-empty
    rectangular array with [F] columns: it returns when every target
    indexes a column (from [-F] to [F - 1]) and there are at most [F]
    targets; it raises [IndexError] when a target indexes no column; and
    it raises [ValueError] when the targets index columns but are more
    than [F], the padding then having a negative width. *)
Theorem fit_x_restricted_outcome (self : t) (tg : list Z) (n L F : nat) (X : array3) :
  targets self = Some tg -> rect3 (S n) (S L) F X ->
  let in_range := Forall (fun k => - Z.of_nat F <= k < Z.of_nat F) tg in
  (in_range -> (length tg <= F)%nat -> is_ok (fit_x self X) = true)
  /\ (~ in_range -> fit_x self X = Raise IndexError)
  /\ (in_range -> (F < length tg)%nat ->
      fit_x self X = Raise (ValueError "negative dimensions are not allowed")).
Proof.
  intros Htg HX in_range.
  destruct (shape_rect3 n (S L) F X HX) as [Hs1 [?|Hs2]]; [done|].
  assert (in_range -> exists Xt,
             select_targets X tg = Ok Xt /\ rect3 (S n) (S L) (length tg) Xt)
    as Hselect.
  { intros Hin. destruct HX as [Hlen HX].
    destruct (mapM_ok_all (mapM (fun row : list T => fancy_index row tg)) X)
      as (Xt & HXt & _).
    - intros sample Hsample.
      destruct (mapM_ok_all (fun row : list T => fancy_index row tg) sample)
        as (st & -> & _); [|done].
      intros row Hrow. apply fancy_index_in_range.
      pose proof (proj1 (Forall_forall _ _) HX sample Hsample) as [_ Hrows].
      by rewrite (proj1 (Forall_forall _ _) Hrows row Hrow).
    - exists Xt. split; [done|]. by apply (select_targets_rect (S n) (S L) F X). }
  unfold fit_x. rewrite Htg, Hs1, Hs2. split; [|split].
  - intros Hin Hle. destruct (Hselect Hin) as (Xt & -> & HXt). simpl.
    unfold full. rewrite !decide_False by lia. simpl.
    unfold concatenate1.
    pose proof (rect2_mean0 n (S L) (length tg) Xt HXt) as [Hlm _].
    pose proof (rect2_std0 n (S L) (length tg) Xt HXt) as [Hls _].
    rewrite !decide_True; [done| |]; simpl; rewrite length_replicate; done.
  - intros Hout. unfold select_targets.
    destruct HX as [Hlen HX]. destruct X as [|sample X]; [done|].
    apply Forall_cons in HX as [[HL Hrows] _].
    destruct sample as [|row sample]; [done|].
    apply Forall_cons in Hrows as [Hrow _]. simpl.
    rewrite fancy_index_out_of_range; [done|]. by rewrite Hrow.
  - intros Hin Hmore. destruct (Hselect Hin) as (Xt & -> & HXt). simpl.
    unfold full. destruct (decide _); [reflexivity|lia].
Qed.

(** X10. A fit keeps nothing of what came before it: after any history
    of calls on a new scaler, [fit_x] raises exactly when it raises on a
    new scaler with the same targets, and otherwise stores exactly the
    statistics a new scaler would store, leaving the y side as it was;
    likewise [fit_y] stores what a new scaler would store and leaves the
    X side as it was. *)
Theorem fit_is_history_independent
    (targets0 : option (list Z)) (history : list call) (a : array3) :
  let self := replay history (__init__ targets0) in
  match fit_x self a, fit_x (__init__ targets0) a with
  | Ok self', Ok fresh =>
      x_mean self' = x_mean fresh /\ x_std self' = x_std fresh
      /\ y_mean self' = y_mean self /\ y_std self' = y_std self
      /\ y_is_fitted self' = y_is_fitted self
  | Raise e, Raise e0 => e = e0
  | _, _ => False
  end
  /\ y_mean (fit_y self a) = y_mean (fit_y (__init__ targets0) a)
  /\ y_std (fit_y self a) = y_std (fit_y (__init__ targets0) a)
  /\ x_mean (fit_y self a) = x_mean self /\ x_std (fit_y self a) = x_std self
  /\ x_is_fitted (fit_y self a) = x_is_fitted self.
Proof.
  intros self. split; [|done].
  pose proof (replay_targets history (__init__ targets0)) as Htg.
  fold self in Htg. unfold fit_x. rewrite Htg. simpl.
  destruct targets0 as [tg|]; [|done].
  destruct (select_targets a tg) as [Xt|]; simpl; [|done].
  destruct (full zero _ _); simpl; [|done].
  destruct (full one _ _); simpl; [|done].
  destruct (concatenate1 (mean0 Xt) _); simpl; [|done].
  by destruct (concatenate1 (std0 Xt) _).
Qed.

Lemma entry2_zip_with (f : T -> T -> T) (a b : matrix) (l j : nat) (x y : T) :
  entry2 a l j = Some x -> entry2 b l j = Some y ->
  entry2 (zip_with (zip_with f) a b) l j = Some (f x y).
Proof.
  unfold entry2. rewrite lookup_zip_with.
  destruct (a !! l) as [ra|]; simpl; [|done].
  destruct (b !! l) as [rb|]; simpl; [|done].
  rewrite lookup_zip_with. intros -> ->. reflexivity.
Qed.

End VectorScalerEdges.

(** The hypothesis of X7 holds on a scaler whose y side alone was
    fitted. *)
Lemma transform_before_fit_is_type_error_witness :
  exists msg,
    VectorScaler.transform_x
      (VectorScaler.replay
         [VectorScaler.TransformY two_features; VectorScaler.FitY two_features]
         (VectorScaler.__init__ None))
      two_features
    = Raise (TypeError msg).
Proof.
  apply (proj1 (transform_before_fit_is_type_error None
                  [VectorScaler.TransformY two_features;
                   VectorScaler.FitY two_features]
                  two_features (mk_is_Some _ _ eq_refl))).
  reflexivity.
Defined.

(** The hypotheses of X8 hold on a scaler fitted in target-restricted
    mode, for an array of three samples. *)
Lemma transforms_keep_shape_witness :
  exists self' a',
    VectorScaler.fit_x (VectorScaler.__init__ (Some [0])) two_features = Ok self'
    /\ VectorScaler.transform_x self' [[[1; 10]]; [[3; 30]]; [[5; 50]]]%float = Ok a'
    /\ VectorScaler.rect3 3 1 2 a'.
Proof.
  assert (exists self',
             VectorScaler.fit_x (VectorScaler.__init__ (Some [0])) two_features
             = Ok self') as [self' Hfit] by (vm_compute; eexists; reflexivity).
  destruct (transforms_keep_shape (VectorScaler.__init__ (Some [0])) self'
              1 3 1 2 two_features [[[1; 10]]; [[3; 30]]; [[5; 50]]]%float)
    as [(a' & Ha' & Hshape) _].
  - by repeat constructor.
  - exact Hfit.
  - by repeat constructor.
  - exists self', a'. split; [exact Hfit|]. split; [exact Ha'|exact Hshape].
Defined.

(** The hypotheses of X9 hold on an array of two columns: a target of 2
    indexes no column. *)
Lemma fit_x_restricted_outcome_witness :
  VectorScaler.fit_x (VectorScaler.__init__ (Some [0; 2])) two_features
  = Raise IndexError.
Proof.
  refine (proj1 (proj2 (fit_x_restricted_outcome
                          (VectorScaler.__init__ (Some [0; 2])) [0; 2] 1 0 2
                          two_features eq_refl _)) _).
  - by repeat constructor.
  - intros Hall. apply Forall_cons in Hall as [_ Hall].
    apply Forall_cons in Hall as [Hk _]. lia.
Defined.

(** ** MetricsEvaluator: the tearsheet over time and what is printed *)

Section MetricsEvaluatorEdges.
Import MetricsEvaluator.
Context {S Y V : Type}.
Variable custom_metrics : string -> option (S -> Y -> result V).
Variable format : V -> string.
Variable to_pickle_file : string -> result unit.

Abbreviation frame_t := (@MetricsEvaluator.t V).
Abbreviation computes := (MetricsEvaluator.computes custom_metrics).
Abbreviation fails := (MetricsEvaluator.fails custom_metrics).
Abbreviation try_metric := (MetricsEvaluator.try_metric custom_metrics format).
Abbreviation evaluate :=
  (MetricsEvaluator.evaluate custom_metrics format to_pickle_file).
Abbreviation invoke :=
  (MetricsEvaluator.invoke custom_metrics format to_pickle_file).
Abbreviation replay :=
  (MetricsEvaluator.replay custom_metrics format to_pickle_file).

(** X12. What an evaluator keeps over any history of [evaluate] and
    [reset] calls, whatever the metrics do and whether or not persisting
    fails: the configured names and the destination never change, and
    the columns of the tearsheet stay the configured names. When no name
    is configured twice the tearsheet holds one row per call of
    [evaluate] since the last [reset] (or since construction); when a
    name is configured twice it never holds a row. *)
Theorem tearsheet_counts_evaluations
    (metrics0 : list string) (filename0 : option string) (history : list call) :
  let self := replay history (__init__ metrics0 filename0) in
  metrics self = metrics0
  /\ filename self = filename0
  /\ columns (tearsheet self) = metrics0
  /\ length (rows (tearsheet self))
     = if decide (NoDup metrics0) then evaluations_since_reset history else 0%nat.
Proof.
  cbv zeta.
  destruct (replay_keeps custom_metrics format to_pickle_file
              metrics0 filename0 history) as (Hm & Hf & Hc).
  split; [done|]. split; [done|]. split; [done|]. clear Hm Hf Hc.
  induction history as [|c history IH] using rev_ind; [by case_decide|].
  destruct (replay_keeps custom_metrics format to_pickle_file
              metrics0 filename0 history) as (_ & _ & Hc).
  unfold MetricsEvaluator.replay, evaluations_since_reset in *.
  rewrite !foldl_snoc.
  destruct c as [y_samples y_truth verbose|]; simpl; [|by case_decide].
  case_decide as Hnames.
  - destruct (evaluate_after custom_metrics format to_pickle_file
                (foldl invoke (__init__ metrics0 filename0) history)
                y_samples y_truth verbose) as (_ & _ & _ & Hrow & _).
    destruct Hrow as [row Hrow]; [by rewrite Hc|].
    rewrite Hrow, length_app, IH. simpl. lia.
  - destruct (evaluate_repeated custom_metrics format to_pickle_file
                (foldl invoke (__init__ metrics0 filename0) history)
                y_samples y_truth verbose) as (_ & Hafter & _);
      [by rewrite Hc|].
    by rewrite Hafter.
Qed.

(** What the loop prints: with [verbose] a line for every name, without
    it only the lines of names whose metric fails. *)
Lemma foldl_try_metric_printed y_samples y_truth (names : list string)
    (d0 : gmap string V) (out0 : list string) :
  length (foldl (try_metric y_samples y_truth true) (d0, out0) names).2
  = (length out0 + length names)%nat
  /\ forall line,
       line ∈ (foldl (try_metric y_samples y_truth false) (d0, out0) names).2 ->
       line ∈ out0
       \/ exists metric,
            metric ∈ names /\ fails y_samples y_truth metric
            /\ line = metric +:+ " not a valid metric".
Proof.
  revert d0 out0. induction names as [|name names IH]; intros d0 out0.
  - simpl. split; [lia|]. by left.
  - cbn [foldl]. unfold MetricsEvaluator.try_metric at 2 4.
    unfold MetricsEvaluator.fails.
    destruct (custom_metrics name) as [eval_func|] eqn:Hname.
    + destruct (eval_func y_samples y_truth) as [value|e] eqn:Hvalue.
      * destruct (IH (<[name := value]> d0)
                    (out0 ++ ["Results for " +:+ name +:+ " is "
                              +:+ format value +:+ "."])) as [Hlen _].
        destruct (IH (<[name := value]> d0) out0) as [_ Hquiet].
        split.
        -- rewrite Hlen, length_app. simpl. lia.
        -- intros line [?|(metric & Hin & Hf & ->)]%Hquiet; [by left|].
           right. exists metric. split; [by right|done].
      * destruct (IH d0 (out0 ++ [name +:+ " not a valid metric"])) as [Hlen Hquiet].
        split.
        -- rewrite Hlen, length_app. simpl. lia.
        -- intros line [[?|Hl%list_elem_of_singleton]%elem_of_app
                       |(metric & Hin & Hf & ->)]%Hquiet.
           ++ by left.
           ++ right. exists name. split; [left|]. by rewrite Hname, Hvalue.
           ++ right. exists metric. split; [by right|done].
    + destruct (IH d0 (out0 ++ [name +:+ " not a valid metric"])) as [Hlen Hquiet].
      split.
      * rewrite Hlen, length_app. simpl. lia.
      * intros line [[?|Hl%list_elem_of_singleton]%elem_of_app
                     |(metric & Hin & Hf & ->)]%Hquiet.
        -- by left.
        -- right. exists name. split; [left|]. by rewrite Hname.
        -- right. exists metric. split; [by right|done].
Qed.

(** X13. What [evaluate] prints: with [verbose] exactly one line per
    configured name, a result or a complaint; without it nothing but
    complaints, each about a configured name whose metric does not
    resolve or raises. *)
Theorem evaluate_prints (self : frame_t) (y_samples : S) (y_truth : Y) :
  length (printed (evaluate self y_samples y_truth true)) = length (metrics self)
  /\ forall line,
       line ∈ printed (evaluate self y_samples y_truth false) ->
       exists metric,
         metric ∈ metrics self /\ fails y_samples y_truth metric
         /\ line = metric +:+ " not a valid metric".
Proof.
  destruct (foldl_try_metric_printed y_samples y_truth (metrics self) ∅ [])
    as [Hlen Hquiet].
  unfold MetricsEvaluator.evaluate. split.
  - destruct (foldl (try_metric y_samples y_truth true) (∅, []) (metrics self));
      simpl in *. by destruct (append _ _).
  - destruct (foldl (try_metric y_samples y_truth false) (∅, []) (metrics self))
      as [eval_results out]; simpl in *.
    assert (forall line,
              line ∈ out ->
              exists metric,
                metric ∈ metrics self /\ fails y_samples y_truth metric
                /\ line = metric +:+ " not a valid metric") as Hout.
    { intros line [Hl|?]%Hquiet; [|done]. by apply elem_of_nil in Hl. }
    by destruct (append _ _).
Qed.

End MetricsEvaluatorEdges.

(** ** CrossValidator: what a run leaves behind *)

Section CrossValidatorEdges.
Import CrossValidator.
Context {A X Y S V Net Sc : Type} `{Scaler Sc X Y S}.
Variable sequentialize :
  list (list (list A)) -> Z -> Z -> option (list Z) -> result (X * Y).
Variable custom_metrics : string -> option (S -> Y -> result V).
Variable format : V -> string.
Variable to_pickle_file : string -> result unit.
Variable fit : @Forecaster Net -> X -> Y -> Z -> result (@Forecaster Net).
Variable predict : @Forecaster Net -> X -> Z -> result (@Forecaster Net * S).

Abbreviation cv := (@CrossValidator.t A V Net Sc).
Abbreviation body :=
  (CrossValidator.body custom_metrics format to_pickle_file fit predict).
Abbreviation for_rest := (CrossValidator.for_rest sequentialize).
Abbreviation for_folds := (CrossValidator.for_folds sequentialize).
Abbreviation evaluate :=
  (CrossValidator.evaluate sequentialize custom_metrics format to_pickle_file
     fit predict).
Abbreviation rows_of w :=
  (MetricsEvaluator.rows (MetricsEvaluator.tearsheet (evaluator w))).

Ltac run_monad :=
  unfold mbind, M_bind, mret, M_ret, get, modify, lift, raise in *; simpl in *.

(** One turn of the loop that completes: one call of [fit], one row
    more in the tearsheet, and a scaler was there. *)
Lemma body_completes (n_samples : Z) (verbose : bool) (f : X * X * Y * Y)
    (w w' : cv) :
  body n_samples verbose f w = (w', Ok tt) ->
  (exists fc, fit_calls w' = fit_calls w ++ [fc])
  /\ (exists row, rows_of w' = rows_of w ++ [row])
  /\ MetricsEvaluator.metrics (evaluator w') = MetricsEvaluator.metrics (evaluator w)
  /\ is_Some (scaler w) /\ is_Some (scaler w')
  /\ fold_generator w' = fold_generator w.
Proof.
  destruct f as [[[X_train X_test] y_train] y_test].
  unfold CrossValidator.body, mark, scale_fold, call_fit, call_predict,
    call_inverse_transform_y, call_evaluate, unfitted.
  run_monad.
  destruct (scaler w) as [sc|] eqn:Hsc; simpl.
  - destruct (fit_transform_x sc X_train) as [[sc1 X_train']|e]; simpl; [|done].
    destruct (transform_x sc1 X_test) as [X_test'|e]; simpl; [|done].
    destruct (fit_transform_y sc1 y_train) as [[sc2 y_train']|e]; simpl; [|done].
    destruct (fit _ _ _ _) as [f1|e]; simpl; [|done].
    destruct (predict _ _ _) as [[f2 samples]|e]; simpl; [|done].
    destruct (inverse_transform_y sc2 samples) as [samples'|e]; simpl; [|done].
    destruct (evaluate_after custom_metrics format to_pickle_file
                (evaluator w) samples' y_test verbose)
      as (Hm & _ & _ & _ & Hrow).
    destruct (MetricsEvaluator.raised _); simpl; [done|].
    specialize (Hrow eq_refl).
    destruct verbose; simpl; intros [= <-]; simpl;
      (split; [eexists; unfold fit_calls; simpl; rewrite !omap_app; simpl;
               by rewrite !app_nil_r|]);
      (split; [exact Hrow|]); (split; [exact Hm|]);
      by repeat split.
  - destruct (fit _ _ _ _) as [f1|e]; simpl; [|done].
    destruct (predict _ _ _) as [[f2 samples]|e]; simpl; [|done].
    by rewrite Hsc.
Qed.

Lemma for_rest_completes (fg : FoldGenerator.t) (T tr : Z) (rest : list Z)
    (n_samples : Z) (verbose : bool) (w w' : cv) :
  for_rest fg T tr rest (body n_samples verbose) w = (w', Ok tt) ->
  length (fit_calls w') = (length (fit_calls w) + length rest)%nat
  /\ length (rows_of w') = (length (rows_of w) + length rest)%nat
  /\ MetricsEvaluator.metrics (evaluator w') = MetricsEvaluator.metrics (evaluator w)
  /\ (rest <> [] -> is_Some (scaler w)).
Proof.
  revert w. induction rest as [|i rest IH]; intros w; simpl.
  - run_monad. intros [= <-]. repeat split; try lia. done.
  - run_monad.
    destruct (FoldGenerator.fold_at sequentialize fg T tr i) as [f|e]; simpl;
      [|done].
    destruct (body n_samples verbose f w) as [w1 [[]|e]] eqn:Hbody; simpl; [|done].
    apply body_completes in Hbody
      as ([fc Hfc] & [row Hrow] & Hm & Hsc & _ & _).
    intros (Hfits & Hrows & Hm' & _)%IH.
    rewrite Hfits, Hrows, Hm', Hfc, Hrow, Hm, !length_app. simpl.
    repeat split; try lia. done.
Qed.

(** X14. A run of [evaluate] that returns has processed every fold
    once: the tearsheet it returns has exactly [n_folds] rows, whatever
    the evaluator held before, [fit] was called exactly [n_folds] times,
    and, if there was a fold at all, a scaler was configured. *)
Theorem evaluate_returns_one_row_per_fold (n_samples : Z) (verbose : bool)
    (self self' : cv) (tearsheet : MetricsEvaluator.DataFrame) :
  evaluate n_samples verbose self = (self', Ok tearsheet) ->
  let n := Z.to_nat (FoldGenerator.n_folds (fold_generator self)) in
  tearsheet = MetricsEvaluator.tearsheet (evaluator self')
  /\ length (MetricsEvaluator.rows tearsheet) = n
  /\ length (fit_calls self') = (length (fit_calls self) + n)%nat
  /\ (n <> 0%nat -> is_Some (scaler self)).
Proof.
  unfold CrossValidator.evaluate, CrossValidator.for_folds. run_monad.
  destruct (FoldGenerator.lengths (fold_generator self)) as [[T tr]|e]; simpl;
    [|done].
  destruct (for_rest _ _ _ _ _ _) as [w [[]|e]] eqn:Hloop; simpl; [|done].
  intros [= <- <-].
  apply for_rest_completes in Hloop as (Hfits & Hrows & _ & Hsc).
  rewrite range_length in *. simpl in *.
  repeat split; try done. intros Hn. apply Hsc.
  intros Hnil. apply (f_equal length) in Hnil. rewrite range_length in Hnil.
  simpl in Hnil. lia.
Qed.

(** X15. Before the first fold [evaluate] touches nothing but the
    evaluator, which it resets. When no fold is requested
    ([n_folds <= 0]) it returns the empty tearsheet, with or without a
    scaler; when the generator rejects its configuration it raises the
    generator's error. In both cases the forecaster is not fitted and
    the rows of an earlier run are gone. *)
Theorem evaluate_without_folds (n_samples : Z) (verbose : bool) (self : cv) :
  let self' := set_evaluator (MetricsEvaluator.reset (evaluator self)) self in
  (forall lengths,
     FoldGenerator.lengths (fold_generator self) = Ok lengths ->
     FoldGenerator.n_folds (fold_generator self) <= 0 ->
     evaluate n_samples verbose self
     = (self', Ok (MetricsEvaluator.empty (MetricsEvaluator.metrics (evaluator self)))))
  /\ (forall e,
        FoldGenerator.lengths (fold_generator self) = Raise e ->
        evaluate n_samples verbose self = (self', Raise e)).
Proof.
  unfold CrossValidator.evaluate, CrossValidator.for_folds. run_monad.
  split.
  - intros [T tr] -> Hn. simpl. unfold range.
    by replace (Z.to_nat (FoldGenerator.n_folds (fold_generator self)))
      with 0%nat by lia.
  - by intros e ->.
Qed.

End CrossValidatorEdges.

(** The hypothesis of X14 holds on the example run with a scaler: two
    folds, two rows. *)
Lemma evaluate_returns_one_row_per_fold_witness :
  exists self' tearsheet,
    Example.evaluate 10 false Example.with_scaler = (self', Ok tearsheet)
    /\ length (MetricsEvaluator.rows tearsheet) = 2%nat
    /\ length (CrossValidator.fit_calls self') = 2%nat.
Proof.
  unfold Example.evaluate.
  assert (exists self' tearsheet,
             CrossValidator.evaluate (Sc := @VectorScaler.t float)
               utils.sequentialize Example.custom_metrics Example.format
               Example.to_pickle_file Example.fit Example.predict
               10 false Example.with_scaler = (self', Ok tearsheet))
    as (self' & tearsheet & Hrun) by (vm_compute; eexists _, _; reflexivity).
  exists self', tearsheet. split; [exact Hrun|].
  destruct (evaluate_returns_one_row_per_fold
              utils.sequentialize Example.custom_metrics Example.format
              Example.to_pickle_file Example.fit Example.predict
              10 false Example.with_scaler self' tearsheet Hrun)
    as (_ & Hrows & Hfits & _).
  split; [exact Hrows|exact Hfits].
Defined.

(** ** The command-line script: how the table is split *)

Section ScriptFacts.
Import deep4cast.
Context {A : Type}.

Abbreviation table := (list (list (list A))).

Lemma py_slice_spec {B} (a : list B) (start stop : option Z) :
  py_slice a start stop
  = slice a (from_option (slice_bound (Z.of_nat (length a))) 0 start)
            (from_option (slice_bound (Z.of_nat (length a)))
                         (Z.of_nat (length a)) stop).
Proof. reflexivity. Qed.

Lemma slice_from_start {B} (a : list B) (hi : Z) :
  slice a 0 hi = take (Z.to_nat hi) a.
Proof. unfold slice. rewrite drop_0. f_equal. lia. Qed.

(** X16. With a test fraction that holds out [T] rows, [0 < T <= n]:
    the forecaster is fitted on the first [n - T] rows, the test error
    is measured against the last [T] rows, the two together are the
    table, and (for [0 <= lag]) the forecaster is tested on the last
    [T + lag] rows, so on the held-out rows preceded by [lag] rows of
    context. *)
Theorem prepare_holds_out_the_end (args : Namespace) (ts : table)
    (fraction : float) (T : Z) :
  let n := Z.of_nat (length ts) in
  given (test_fraction args) = Some fraction ->
  py_int (float_of_Z n * fraction) = Ok T ->
  0 < T <= n -> 0 <= lag args ->
  exists s ts_test,
    prepare args ts = Ok s
    /\ held_out s = Some (ts_test, n - T)
    /\ ts_train s = take (Z.to_nat (n - T)) ts
    /\ truth_test ts (n - T) = drop (Z.to_nat (n - T)) ts
    /\ ts_train s ++ truth_test ts (n - T) = ts
    /\ ts_test = drop (Z.to_nat (n - T - lag args)) ts.
Proof.
  intros n Hgiven Hint HT Hlag. subst n. unfold prepare. rewrite Hgiven, Hint.
  simpl. eexists _, _. split; [done|]. simpl. split; [done|].
  assert (py_slice ts None (Some (- T))
          = take (Z.to_nat (Z.of_nat (length ts) - T)) ts) as ->.
  { rewrite py_slice_spec. simpl. unfold slice_bound.
    rewrite decide_True by lia. rewrite slice_from_start. f_equal. lia. }
  assert (truth_test ts (Z.of_nat (length ts) - T)
          = drop (Z.to_nat (Z.of_nat (length ts) - T)) ts) as ->.
  { unfold truth_test. rewrite py_slice_spec. simpl. unfold slice_bound.
    rewrite decide_False by lia.
    replace (Z.min (Z.of_nat (length ts) - T) (Z.of_nat (length ts)))
      with (Z.of_nat (length ts) - T) by lia.
    apply slice_to_end. }
  split; [done|]. split; [done|]. split; [apply take_drop|].
  rewrite py_slice_spec. simpl. unfold slice_bound.
  rewrite decide_True by lia. rewrite slice_to_end. f_equal. lia.
Qed.

(** X17. With a test fraction, the forecaster is fitted on no data
    exactly when the number of held-out rows [T = int(n * fraction)] is
    zero or at least the number [n > 0] of rows: a fraction so small
    that it holds out nothing empties the training set, because
    [ts[:-0]] is [ts[:0]]. *)
Theorem prepare_empties_the_training_set (args : Namespace) (ts : table)
    (fraction : float) (T : Z) (s : split) :
  let n := Z.of_nat (length ts) in
  given (test_fraction args) = Some fraction ->
  py_int (float_of_Z n * fraction) = Ok T ->
  prepare args ts = Ok s -> ts <> [] ->
  (ts_train s = [] <-> T = 0 \/ n <= T)
  /\ (T = 0 -> truth_test ts (n - T) = []).
Proof.
  intros n Hgiven Hint Hs Hne. subst n. unfold prepare in Hs.
  rewrite Hgiven, Hint in Hs. simpl in Hs. injection Hs as <-. simpl.
  assert (0 < Z.of_nat (length ts)) as Hn by (destruct ts; [done|simpl; lia]).
  rewrite py_slice_spec. simpl. rewrite slice_from_start. split.
  - rewrite <- length_zero_iff_nil, length_take. unfold slice_bound.
    case_decide; lia.
  - intros ->. unfold truth_test. rewrite py_slice_spec. simpl.
    unfold slice_bound. rewrite decide_False by lia. apply slice_nil. lia.
Qed.


Variable F P : Type.
Variable read_table : string -> result (list (list A)).
Variable Forecaster : Namespace -> result F.
Variable fit : F -> table -> result F.
Variable predict : F -> table -> Z -> result (F * P).
Variable metric : P -> table -> result float.
Variable format : float -> string.

Abbreviation main := (deep4cast.main read_table Forecaster fit predict metric format).
Abbreviation report := (deep4cast.report format).

(** X18. What [main] prints. The loading line always comes first. If
    the table cannot be read, or the split raises (a test fraction whose
    product with the number of rows is an infinity or NaN), [main]
    raises that error having printed nothing else and built no
    forecaster. A run that returns has printed, after the loading line,
    the TRAIN line alone when no test fraction was given (or 0.0), and
    the TRAIN line followed by the TEST line otherwise. *)
Theorem main_output (args : Namespace) (out : list string) :
  let loading := newline +:+ newline +:+ "Loading datasets." in
  (forall e,
     read_table (data_path args) = Raise e ->
     main args out = (out ++ [loading], Raise e))
  /\ (forall values e,
        read_table (data_path args) = Ok values ->
        prepare args (expand_dims values) = Raise e ->
        main args out = (out ++ [loading], Raise e)
        /\ exists fraction,
             given (test_fraction args) = Some fraction
             /\ py_int (float_of_Z (Z.of_nat (length values)) * fraction) = Raise e)
  /\ (forall out',
        main args out = (out', Ok tt) ->
        exists train_error,
          match given (test_fraction args) with
          | None => out' = out ++ [loading; report "TRAIN" train_error]
          | Some _ =>
              exists test_error,
                out' = out ++ [loading; report "TRAIN" train_error;
                               report "TEST" test_error]
          end).
Proof.
  intros loading. unfold deep4cast.main, print.
  unfold mbind, M_bind, mret, M_ret, modify, lift. simpl.
  split; [|split].
  - by intros e ->.
  - intros values e -> Hsplit. rewrite Hsplit. split; [done|].
    unfold prepare in Hsplit. unfold expand_dims in Hsplit.
    rewrite length_fmap in Hsplit.
    destruct (given (test_fraction args)) as [fraction|]; [|done].
    exists fraction. split; [done|].
    destruct (py_int _) as [T|e']; simpl in Hsplit; [done|by injection Hsplit as ->].
  - intros out'. destruct (read_table (data_path args)) as [values|]; [|done].
    unfold prepare.
    destruct (given (test_fraction args)) as [fraction|]; simpl.
    + destruct (py_int _) as [T|]; simpl; [|done].
      destruct (Forecaster args) as [f0|]; simpl; [|done].
      destruct (fit f0 _) as [f1|]; simpl; [|done].
      destruct (predict f1 _ _) as [[f2 p]|]; simpl; [|done].
      destruct (predict f2 _ _) as [[f3 p']|]; simpl; [|done].
      destruct (metric p _) as [train_error|]; simpl; [|done].
      destruct (metric p' _) as [test_error|]; simpl; [|done].
      intros [= <-]. exists train_error, test_error.
      by rewrite <- !app_assoc.
    + destruct (Forecaster args) as [f0|]; simpl; [|done].
      destruct (fit f0 _) as [f1|]; simpl; [|done].
      destruct (predict f1 _ _) as [[f2 p]|]; simpl; [|done].
      destruct (metric p _) as [train_error|]; simpl; [|done].
      intros [= <-]. exists train_error. by rewrite <- !app_assoc.
Qed.

End ScriptFacts.

(** The hypotheses of X16 hold on a table of 10 rows: one row is held
    out, nine are trained on, and the test series is the last three. *)
Lemma prepare_holds_out_the_end_witness :
  exists s ts_test,
    deep4cast.prepare command_line (expand_dims (ramp 10)) = Ok s
    /\ deep4cast.held_out s = Some (ts_test, 9)
    /\ deep4cast.ts_train s = take 9 (expand_dims (ramp 10))
    /\ ts_test = drop 7 (expand_dims (ramp 10)).
Proof.
  destruct (prepare_holds_out_the_end command_line (expand_dims (ramp 10))
              0.1%float 1)
    as (s & ts_test & Hs & Hheld & Htrain & _ & _ & Htest).
  - reflexivity.
  - vm_compute. reflexivity.
  - vm_compute. by split.
  - simpl. lia.
  - exists s, ts_test. split; [exact Hs|]. split; [exact Hheld|].
    split; [exact Htrain|exact Htest].
Defined.

(** The hypotheses of X17 hold on a table of 5 rows: a test fraction of
    0.1 holds out nothing, and the training set is empty. *)
Lemma prepare_empties_the_training_set_witness :
  exists s,
    deep4cast.prepare command_line (expand_dims (ramp 5)) = Ok s
    /\ deep4cast.ts_train s = [].
Proof.
  assert (exists s, deep4cast.prepare command_line (expand_dims (ramp 5)) = Ok s)
    as [s Hs] by (vm_compute; eexists; reflexivity).
  assert (py_int (float_of_Z (Z.of_nat (length (expand_dims (ramp 5)))) * 0.1)
          = Ok 0) as Hint by (vm_compute; reflexivity).
  assert (expand_dims (ramp 5) <> []) as Hne by discriminate.
  exists s. split; [exact Hs|].
  apply (proj1 (prepare_empties_the_training_set command_line
                  (expand_dims (ramp 5)) 0.1%float 0 s eq_refl Hint Hs Hne)).
  by left.
Defined.

(** ** VectorScaler in binary64: the inverse transform outside the targets *)

Lemma shr_52 (m : positive) (e : Z) :
  shr (shr_record_of_loc (Z.pos (4503599627370496 * m)) loc_Exact) e 52
  = ({| shr_m := Z.pos m; shr_r := false; shr_s := false |}, e + 52).
Proof. reflexivity. Qed.

Lemma digits2_pos_shift (m : positive) :
  Z.pos (digits2_pos (4503599627370496 * m)) = Z.pos (digits2_pos m) + 52.
Proof.
  change (digits2_pos (4503599627370496 * m))
    with (Pos.iter Pos.succ (digits2_pos m) 52).
  cbv [Pos.iter]. rewrite !Pos2Z.inj_succ. lia.
Qed.

Lemma mul_one_finite s m e :
  bounded prec emax m e = true ->
  SF64mul (S754_finite s m e) (S754_finite false 4503599627370496 (-52))
  = S754_finite s m e.
Proof.
  intros [He Hc]%canonical_cases.
  unfold SF64mul, SFmul. rewrite xorb_false_r, Pos.mul_comm. std_Z.
  unfold binary_round_aux, shr_fexp. std_Z.
  change (Zdigits2 (Z.pos (4503599627370496 * m)))
    with (Z.pos (digits2_pos (4503599627370496 * m))).
  rewrite digits2_pos_shift.
  replace (fexp prec emax (Z.pos (digits2_pos m) + 52 + (e + -52)) - (e + -52))
    with 52 by (replace (Z.pos (digits2_pos m) + 52 + (e + -52))
                  with (Z.pos (digits2_pos m) + e) by lia; lia).
  rewrite shr_52. cbv beta iota.
  change (round_nearest_even _ _) with (Z.pos m).
  replace (e + -52 + 52) with e by lia.
  change (Zdigits2 (Z.pos m)) with (Z.pos (digits2_pos m)).
  rewrite Hc, Z.sub_diag.
  change (shr _ e 0) with ({| shr_m := Z.pos m; shr_r := false; shr_s := false |}, e).
  cbv beta iota. change (shr_m _) with (Z.pos m). cbv beta iota.
  change (emax - prec) with 971.
  by rewrite (proj2 (Z.leb_le e 971)) by done.
Qed.

Lemma SF64mul_one (x : spec_float) :
  valid_binary x = true ->
  SF64mul x (S754_finite false 4503599627370496 (-52)) = x.
Proof.
  destruct x as [[]|[]| |s m e]; try done. apply mul_one_finite.
Qed.

Lemma float_mul_one (x : float) : (x * 1)%float = x.
Proof.
  rewrite <- (SF2Prim_Prim2SF (x * 1)), FloatAxioms.mul_spec.
  change (Prim2SF 1) with (S754_finite false 4503599627370496 (-52)).
  by rewrite SF64mul_one, SF2Prim_Prim2SF by apply Prim2SF_valid.
Qed.

Lemma SF64add_zero (x : spec_float) :
  SF64add x (S754_zero false)
  = match x with S754_zero true => S754_zero false | _ => x end.
Proof. by destruct x as [[]|[]| |s m e]. Qed.

(** Multiplying by one and adding zero returns the value, except that
    the negative zero comes back positive. *)
Lemma float_mul_one_add_zero (x : float) :
  (x * 1 + 0)%float = x
  \/ (Prim2SF x = S754_zero true /\ (x * 1 + 0)%float = 0%float).
Proof.
  rewrite float_mul_one.
  rewrite <- (SF2Prim_Prim2SF (x + 0)), FloatAxioms.add_spec.
  change (Prim2SF 0) with (S754_zero false). rewrite SF64add_zero.
  destruct (Prim2SF x) as [[]| | |] eqn:Hx.
  - right. split; [done|]. reflexivity.
  - left. by rewrite <- Hx, SF2Prim_Prim2SF.
  - left. by rewrite <- Hx, SF2Prim_Prim2SF.
  - left. by rewrite <- Hx, SF2Prim_Prim2SF.
  - left. by rewrite <- Hx, SF2Prim_Prim2SF.
Qed.

(** X19. In binary64 and in target-restricted mode, the inverse
    transform returns every column at index [len(targets)] or more as it
    was given, bit for bit, with one exception: a negative zero comes
    back as a positive zero, because [x * 1.0 + 0.0] is computed. *)
Theorem inverse_transform_x_keeps_columns_after_targets
    (self self' : @VectorScaler.t float) (tg : list Z) (n k L F : nat)
    (X a : list (list (list float))) :
  VectorScaler.targets self = Some tg ->
  VectorScaler.rect3 (S n) L F X ->
  VectorScaler.fit_x self X = Ok self' ->
  VectorScaler.rect3 k L F a ->
  exists a',
    VectorScaler.inverse_transform_x self' a = Ok a'
    /\ forall (i l j : nat) (x : float),
         (length tg <= j)%nat ->
         VectorScaler.entry a i l j = Some x ->
         VectorScaler.entry a' i l j = Some x
         \/ (Prim2SF x = S754_zero true
             /\ VectorScaler.entry a' i l j = Some 0%float).
Proof.
  intros Htg HX Hfit [Hk Ha].
  destruct (fit_x_restricted self self' tg X n L F Htg HX Hfit)
    as (mt & st & Hmt & Hst & Hwidth & Hmean & Hstd & Hflag).
  unfold VectorScaler.inverse_transform_x. rewrite Hflag, Hmean, Hstd.
  rewrite (unscale_same L F); [|by apply rect2_pad|by apply rect2_pad|done].
  eexists. split; [reflexivity|].
  intros i l j x Hj Hx.
  destruct (entry_bounds L F a i l j x Ha Hx) as [Hl HjF].
  assert (VectorScaler.entry
            ((fun sample =>
                zip_with (zip_with VectorScaler.add)
                  (zip_with (zip_with VectorScaler.mul) sample
                     ((fun row => row ++ replicate (F - length tg) VectorScaler.one)
                      <$> st))
                  ((fun row => row ++ replicate (F - length tg) VectorScaler.zero)
                   <$> mt)) <$> a) i l j
          = Some (x * 1 + 0)%float) as ->.
  { unfold VectorScaler.entry in *. rewrite list_lookup_fmap.
    destruct (a !! i) as [sample|]; simpl in *; [|done].
    apply (entry2_zip_with PrimFloat.add); [|by apply (entry2_pad L)].
    apply (entry2_zip_with PrimFloat.mul); [done|by apply (entry2_pad L)]. }
  destruct (float_mul_one_add_zero x) as [Heq|[Hzero Heq]].
  - left. f_equal. exact Heq.
  - right. split; [done|]. f_equal. exact Heq.
Qed.

(** The hypotheses of X19 hold on an array with the target in column 0:
    the 7.0 of column 1 comes back as it was. *)
Lemma inverse_transform_x_keeps_columns_after_targets_witness :
  exists self' a',
    VectorScaler.fit_x (VectorScaler.__init__ (Some [0])) two_features = Ok self'
    /\ VectorScaler.inverse_transform_x self' [[[2; -0]]; [[4; 7]]]%float = Ok a'
    /\ VectorScaler.entry a' 1 0 1 = Some 7%float.
Proof.
  assert (exists self',
             VectorScaler.fit_x (VectorScaler.__init__ (Some [0])) two_features
             = Ok self') as [self' Hfit] by (vm_compute; eexists; reflexivity).
  destruct (inverse_transform_x_keeps_columns_after_targets
              (VectorScaler.__init__ (Some [0])) self' [0] 1 2 1 2
              two_features [[[2; -0]]; [[4; 7]]]%float)
    as (a' & Ha' & Hkeep).
  - reflexivity.
  - by repeat constructor.
  - exact Hfit.
  - by repeat constructor.
  - exists self', a'. split; [exact Hfit|]. split; [exact Ha'|].
    destruct (Hkeep 1%nat 0%nat 1%nat 7%float) as [Hsame|[Hzero _]];
      [simpl; lia|reflexivity|exact Hsame|].
    vm_compute in Hzero. discriminate.
Defined.

(** The exception of X19 on the same array: the negative zero of column
    1 comes back positive. *)
Example inverse_transform_x_negative_zero :
  (self' ← VectorScaler.fit_x (VectorScaler.__init__ (Some [0])) two_features;
   a' ← VectorScaler.inverse_transform_x self' [[[2; -0]]; [[4; 7]]]%float;
   mret (Prim2SF <$> VectorScaler.entry a' 0 0 1))
  = Ok (Some (S754_zero false)).
Proof. vm_compute. reflexivity. Qed.

(** ** CrossValidator with a VectorScaler: the scaler a run leaves behind *)

Lemma range_snoc (n : Z) : 0 < n -> range n = range (n - 1) ++ [n - 1].
Proof.
  intros Hn. unfold range.
  replace (Z.to_nat n) with (S (Z.to_nat (n - 1))) by lia.
  rewrite seq_S, fmap_app. simpl. do 2 f_equal. lia.
Qed.

Section ScalerAfterRun.
Import CrossValidator.
Context {A V Net T : Type} `{VectorScaler.Dtype T}.
Variable sequentialize :
  list (list (list A)) -> Z -> Z -> option (list Z)
  -> result (list (list (list T)) * list (list (list T))).
Variable custom_metrics :
  string -> option (list (list (list T)) -> list (list (list T)) -> result V).
Variable format : V -> string.
Variable to_pickle_file : string -> result unit.
Variable fit :
  @Forecaster Net -> list (list (list T)) -> list (list (list T)) -> Z
  -> result (@Forecaster Net).
Variable predict :
  @Forecaster Net -> list (list (list T)) -> Z
  -> result (@Forecaster Net * list (list (list T))).

Abbreviation array3 := (list (list (list T))).
Abbreviation cv := (@CrossValidator.t A V Net (@VectorScaler.t T)).
Abbreviation body :=
  (CrossValidator.body (Sc := @VectorScaler.t T)
     custom_metrics format to_pickle_file fit predict).
Abbreviation for_rest :=
  (CrossValidator.for_rest (Sc := @VectorScaler.t T) (V := V) (Net := Net)
     sequentialize).
Abbreviation evaluate :=
  (CrossValidator.evaluate (Sc := @VectorScaler.t T)
     sequentialize custom_metrics format to_pickle_file fit predict).

Ltac run_monad :=
  unfold mbind, M_bind, mret, M_ret, get, modify, lift, raise in *; simpl in *.

(** A fit reads nothing of the scaler but its targets. *)
Lemma fit_x_reads_targets (s1 s2 : @VectorScaler.t T) (a : array3) :
  VectorScaler.targets s1 = VectorScaler.targets s2 ->
  match VectorScaler.fit_x s1 a, VectorScaler.fit_x s2 a with
  | Ok s1', Ok s2' =>
      VectorScaler.x_mean s1' = VectorScaler.x_mean s2'
      /\ VectorScaler.x_std s1' = VectorScaler.x_std s2'
  | Raise e1, Raise e2 => e1 = e2
  | _, _ => False
  end.
Proof.
  intros Htg. unfold VectorScaler.fit_x. rewrite Htg.
  destruct (VectorScaler.targets s2) as [tg|]; [|done].
  destruct (VectorScaler.select_targets a tg) as [Xt|]; simpl; [|done].
  destruct (VectorScaler.full VectorScaler.zero _ _); simpl; [|done].
  destruct (VectorScaler.full VectorScaler.one _ _); simpl; [|done].
  destruct (VectorScaler.concatenate1 (VectorScaler.mean0 Xt) _); simpl; [|done].
  by destruct (VectorScaler.concatenate1 (VectorScaler.std0 Xt) _).
Qed.

(** One turn of the loop that completes leaves the scaler fitted on
    that fold's training data, with the targets it had. *)
Lemma body_leaves_scaler (n_samples : Z) (verbose : bool)
    (X_train X_test y_train y_test : array3) (w w' : cv) :
  body n_samples verbose (X_train, X_test, y_train, y_test) w = (w', Ok tt) ->
  exists sc sc1 sc',
    scaler w = Some sc /\ scaler w' = Some sc'
    /\ VectorScaler.fit_x sc X_train = Ok sc1
    /\ VectorScaler.targets sc' = VectorScaler.targets sc
    /\ VectorScaler.x_mean sc' = VectorScaler.x_mean sc1
    /\ VectorScaler.x_std sc' = VectorScaler.x_std sc1
    /\ VectorScaler.y_mean sc' = Some (VectorScaler.mean0 y_train)
    /\ VectorScaler.y_std sc' = Some (VectorScaler.std0 y_train).
Proof.
  unfold CrossValidator.body, scale_fold, call_fit, call_predict,
    call_inverse_transform_y, call_evaluate.
  run_monad.
  destruct (scaler w) as [sc|] eqn:Hsc; simpl.
  - unfold VectorScaler.fit_transform_x, VectorScaler.fit_transform_y. run_monad.
    unfold result_bind.
    destruct (VectorScaler.fit_x sc X_train) as [sc1|e] eqn:Hfit; simpl; [|done].
    destruct (VectorScaler.transform_x sc1 X_train) as [X_train'|e]; simpl; [|done].
    destruct (VectorScaler.transform_x sc1 X_test) as [X_test'|e]; simpl; [|done].
    destruct (VectorScaler.transform_y _ y_train) as [y_train'|e]; simpl; [|done].
    destruct (fit _ _ _ _) as [f1|e]; simpl; [|done].
    destruct (predict _ _ _) as [[f2 samples]|e]; simpl; [|done].
    destruct (VectorScaler.inverse_transform_y _ samples) as [samples'|e]; simpl;
      [|done].
    destruct (MetricsEvaluator.raised _); simpl; [done|].
    apply fit_x_sets in Hfit as Hsets. destruct Hsets as (Htg & _).
    destruct verbose; simpl; intros [= <-]; simpl;
      exists sc, sc1, (VectorScaler.fit_y sc1 y_train); by repeat split.
  - destruct (fit _ _ _ _) as [f1|e]; simpl; [|done].
    destruct (predict _ _ _) as [[f2 samples]|e]; simpl; [|done].
    by rewrite Hsc.
Qed.

Lemma for_rest_targets (fg : FoldGenerator.t) (T0 tr : Z) (rest : list Z)
    (n_samples : Z) (verbose : bool) (w w' : cv) (sc : @VectorScaler.t T) :
  for_rest fg T0 tr rest (body n_samples verbose) w = (w', Ok tt) ->
  scaler w = Some sc ->
  exists sc', scaler w' = Some sc'
              /\ VectorScaler.targets sc' = VectorScaler.targets sc.
Proof.
  revert w sc. induction rest as [|i rest IH]; intros w sc; simpl.
  - run_monad. intros [= <-] Hsc. by exists sc.
  - run_monad.
    destruct (FoldGenerator.fold_at sequentialize fg T0 tr i) as [f|e]; simpl;
      [|done].
    destruct (body n_samples verbose f w) as [w1 [[]|e]] eqn:Hbody; simpl; [|done].
    destruct f as [[[X_train X_test] y_train] y_test].
    apply body_leaves_scaler in Hbody
      as (sc0 & sc1 & sc2 & Hsc0 & Hsc2 & _ & Htg & _).
    intros Hrest Hsc. rewrite Hsc in Hsc0. injection Hsc0 as <-.
    destruct (IH w1 sc2 Hrest Hsc2) as (sc' & Hsc' & Htg').
    exists sc'. split; [done|]. congruence.
Qed.

Lemma for_rest_snoc (fg : FoldGenerator.t) (T0 tr : Z) (rest : list Z) (i : Z)
    (b : array3 * array3 * array3 * array3 -> M cv unit) (w w' : cv) :
  for_rest fg T0 tr (rest ++ [i]) b w = (w', Ok tt) ->
  exists w1 f,
    for_rest fg T0 tr rest b w = (w1, Ok tt)
    /\ FoldGenerator.fold_at sequentialize fg T0 tr i = Ok f
    /\ b f w1 = (w', Ok tt).
Proof.
  revert w. induction rest as [|j rest IH]; intros w; simpl.
  - run_monad.
    destruct (FoldGenerator.fold_at sequentialize fg T0 tr i) as [f|e]; simpl;
      [|done].
    destruct (b f w) as [w1 [[]|e]] eqn:Hb; simpl; [|done].
    intros [= <-]. by exists w, f.
  - run_monad.
    destruct (FoldGenerator.fold_at sequentialize fg T0 tr j) as [f|e]; simpl;
      [|done].
    destruct (b f w) as [w1 [[]|e]]; simpl; [|done].
    apply IH.
Qed.

(** X20. The scaler a completed run leaves behind is fitted on the last
    fold alone, which is the earliest window in time: after [evaluate]
    has returned with [n_folds >= 1] and a [VectorScaler], the scaler's
    X statistics are those a new scaler with the same targets stores for
    the training inputs of fold [n_folds - 1], and its y statistics are
    the mean and standard deviation of that fold's training targets. *)
Theorem evaluate_leaves_scaler_of_last_fold (n_samples : Z) (verbose : bool)
    (self self' : cv) (tearsheet : MetricsEvaluator.DataFrame)
    (sc0 : @VectorScaler.t T) (T0 tr : Z) :
  evaluate n_samples verbose self = (self', Ok tearsheet) ->
  scaler self = Some sc0 ->
  FoldGenerator.lengths (fold_generator self) = Ok (T0, tr) ->
  0 < FoldGenerator.n_folds (fold_generator self) ->
  exists X_train X_test y_train y_test sc fresh,
    FoldGenerator.fold_at sequentialize (fold_generator self) T0 tr
      (FoldGenerator.n_folds (fold_generator self) - 1)
    = Ok (X_train, X_test, y_train, y_test)
    /\ scaler self' = Some sc
    /\ VectorScaler.fit_x (VectorScaler.__init__ (VectorScaler.targets sc0)) X_train
       = Ok fresh
    /\ VectorScaler.x_mean sc = VectorScaler.x_mean fresh
    /\ VectorScaler.x_std sc = VectorScaler.x_std fresh
    /\ VectorScaler.y_mean sc = Some (VectorScaler.mean0 y_train)
    /\ VectorScaler.y_std sc = Some (VectorScaler.std0 y_train).
Proof.
  intros Hrun Hsc0 Hlen Hn.
  unfold CrossValidator.evaluate, CrossValidator.for_folds in Hrun. run_monad.
  rewrite Hlen in Hrun. simpl in Hrun.
  rewrite range_snoc in Hrun by done.
  destruct (for_rest _ _ _ _ _ _) as [w [[]|e]] eqn:Hloop; simpl in Hrun; [|done].
  injection Hrun as <- _.
  apply for_rest_snoc in Hloop
    as (w1 & [[[X_train X_test] y_train] y_test] & Hrest & Hfold & Hbody).
  destruct (for_rest_targets _ _ _ _ _ _ _ _ sc0 Hrest) as (sc1 & Hsc1 & Htg1);
    [done|].
  apply body_leaves_scaler in Hbody
    as (sc1' & sc2 & sc & Hsc1' & Hsc & Hfit & _ & Hm & Hs & Hym & Hys).
  rewrite Hsc1 in Hsc1'. injection Hsc1' as <-.
  pose proof (fit_x_reads_targets sc1
                (VectorScaler.__init__ (VectorScaler.targets sc0)) X_train Htg1)
    as Hsame.
  rewrite Hfit in Hsame.
  destruct (VectorScaler.fit_x (VectorScaler.__init__ _) X_train) as [fresh|]
    eqn:Hfresh; [|done].
  destruct Hsame as [Hm' Hs'].
  exists X_train, X_test, y_train, y_test, sc, fresh.
  split; [done|]. split; [done|]. split; [done|].
  split; [congruence|]. split; [congruence|]. by split.
Qed.

End ScalerAfterRun.

(** The hypotheses of X20 hold on the example run with a scaler: the
    scaler is left with the statistics of the second fold, whose
    training window is the first 80 rows. *)
Lemma evaluate_leaves_scaler_of_last_fold_witness :
  exists self' tearsheet X_train X_test y_train y_test sc fresh,
    Example.evaluate 10 false Example.with_scaler = (self', Ok tearsheet)
    /\ FoldGenerator.fold_at utils.sequentialize scenario 10 80 1
       = Ok (X_train, X_test, y_train, y_test)
    /\ CrossValidator.scaler self' = Some sc
    /\ VectorScaler.fit_x (VectorScaler.__init__ (Some [0])) X_train = Ok fresh
    /\ VectorScaler.x_mean sc = VectorScaler.x_mean fresh
    /\ VectorScaler.y_mean sc = Some (VectorScaler.mean0 y_train).
Proof.
  unfold Example.evaluate.
  assert (exists self' tearsheet,
             CrossValidator.evaluate (Sc := @VectorScaler.t float)
               utils.sequentialize Example.custom_metrics Example.format
               Example.to_pickle_file Example.fit Example.predict
               10 false Example.with_scaler = (self', Ok tearsheet))
    as (self' & tearsheet & Hrun) by (vm_compute; eexists _, _; reflexivity).
  destruct (evaluate_leaves_scaler_of_last_fold
              utils.sequentialize Example.custom_metrics Example.format
              Example.to_pickle_file Example.fit Example.predict
              10 false Example.with_scaler self' tearsheet
              (VectorScaler.__init__ (Some [0])) 10 80 Hrun)
    as (X_train & X_test & y_train & y_test & sc & fresh
        & Hfold & Hsc & Hfresh & Hm & _ & Hym & _).
  - reflexivity.
  - vm_compute. reflexivity.
  - simpl. lia.
  - exists self', tearsheet, X_train, X_test, y_train, y_test, sc, fresh.
    split; [exact Hrun|]. split; [exact Hfold|]. split; [exact Hsc|].
    split; [exact Hfresh|]. split; [exact Hm|exact Hym].
Defined.
